(** * Transfer learning with MobileNetV2: the two utility scripts

    A shallow embedding of

    - [src/utils/plotting.py]: [plot_training_history_with_annotations],
      the training-curve renderer;
    - [src/scripts/preprocess_data.py]: [preprocess_dataset], the
      marker-crop transform.

    Python values are modelled as the interpreter has them: [int] as [Z]
    or [nat], [float] as an IEEE-754 binary64 value ([spec_float]) carried
    by an object with an identity, [None] as [option], a [dict] as a
    [gmap], an exception as the [Raise] branch of [result]. *)

From Stdlib Require Import ZArith Lia List Strings.Byte Sorting.Sorted.
From Stdlib Require Import Floats.SpecFloat Floats.PrimFloat Floats.FloatOps.
From Stdlib Require Import Strings.Ascii.
From stdpp Require Import base option list gmap strings.

Local Open Scope Z_scope.

(** ** Python values and builtins *)

Module Py.

(** Exceptions the two scripts can run into. *)
Inductive exn :=
  | TypeError        (* len(None), max(None), min(None) *)
  | ValueError       (* max([]), list.index miss, matplotlib argument checks,
                        savefig to an unsupported format *)
  | AttributeError   (* None.index *)
  | OSError          (* os.listdir / mkdir failures, savefig into a missing
                        directory *)
  | CvError.         (* cv2.error: resize of an empty image, imwrite without
                        an encoder *)

Inductive result (A : Type) :=
  | Ok (a : A)
  | Raise (e : exn).
Arguments Ok {A} a.
Arguments Raise {A} e.

(** A Python [float] object: a binary64 value together with the identity
    of the object ([id(x)]), which [list.index] consults before [==]. *)
Record pyfloat := PyFloat { oid : nat; fval : spec_float }.

(** [a > b], [a < b] and [a == b] on floats. *)
Definition py_gt (a b : pyfloat) : bool := SFltb (fval b) (fval a).
Definition py_lt (a b : pyfloat) : bool := SFltb (fval a) (fval b).
Definition py_eq (a b : pyfloat) : bool := SFeqb (fval a) (fval b).

#[global] Instance spec_float_eq_dec : EqDecision spec_float.
Proof. solve_decision. Defined.
#[global] Instance pyfloat_eq_dec : EqDecision pyfloat.
Proof. solve_decision. Defined.

(** [a is b]: the same object, hence also the same value. *)
Definition py_is (a b : pyfloat) : bool := bool_decide (a = b).

(** [len(x)]: [TypeError] on [None]. *)
Definition py_len {A} (x : option (list A)) : result nat :=
  match x with
  | None => Raise TypeError
  | Some l => Ok (length l)
  end.

(** The scan of [max]/[min]: the running best is replaced when the next
    item compares strictly better ([item > best], resp. [item < best]). *)
Fixpoint scan (better : pyfloat -> pyfloat -> bool) (best : pyfloat)
    (l : list pyfloat) : pyfloat :=
  match l with
  | [] => best
  | item :: rest => scan better (if better item best then item else best) rest
  end.

(** [max(x)] and [min(x)]: [TypeError] on [None], [ValueError] on an empty
    sequence; the result is one of the objects of the list. *)
Definition py_extremum (better : pyfloat -> pyfloat -> bool)
    (x : option (list pyfloat)) : result pyfloat :=
  match x with
  | None => Raise TypeError
  | Some [] => Raise ValueError
  | Some (first :: rest) => Ok (scan better first rest)
  end.

Definition py_max := py_extremum py_gt.
Definition py_min := py_extremum py_lt.

(** What [list.index] tests at each position: identity, then equality. *)
Definition same (item v : pyfloat) : bool := py_is item v || py_eq item v.

(** [l.index(v)] counted from position [i]. *)
Fixpoint index_from (i : nat) (l : list pyfloat) (v : pyfloat) : option nat :=
  match l with
  | [] => None
  | item :: rest => if same item v then Some i else index_from (S i) rest v
  end.

(** [x.index]: the bound method, looked up before its argument is
    evaluated; [AttributeError] on [None]. Calling it raises [ValueError]
    when no position matches. *)
Definition list_index (l : list pyfloat) (v : pyfloat) : result nat :=
  match index_from 0 l v with
  | Some i => Ok i
  | None => Raise ValueError
  end.

Definition py_getattr_index (x : option (list pyfloat))
    : result (pyfloat -> result nat) :=
  match x with
  | None => Raise AttributeError
  | Some l => Ok (list_index l)
  end.

(** [f'{x}'] of an optional string: [None] formats as the text [None]. *)
Definition fstring (x : option string) : string :=
  match x with
  | None => "None"
  | Some s => s
  end.

(** [c in s] for a character [c], and [os.path.splitext(s)[1][1:]]: the
    text after the last dot of a file name, if it has a dot. *)
Fixpoint mentions (c : ascii) (s : string) : bool :=
  match s with
  | EmptyString => false
  | String c' rest => Ascii.eqb c c' || mentions c rest
  end.
Fixpoint after_last_dot (s : string) (found : option string) : option string :=
  match s with
  | EmptyString => found
  | String c rest =>
      after_last_dot rest (if Ascii.eqb c "."%char then Some rest else found)
  end.
Definition extension (name : string) : option string := after_last_dot name None.

(** Binary64 literals of the scripts and of the spec's examples, each the
    double nearest to the decimal numeral in the comment. *)
Definition f64 (x : PrimFloat.float) : spec_float := Prim2SF x.
Definition lit_0_01 : spec_float := Eval vm_compute in f64 0x1.47ae147ae147bp-7%float.  (* 0.01 *)
Definition lit_0_1 : spec_float := Eval vm_compute in f64 0x1.999999999999ap-4%float.  (* 0.1 *)
Definition lit_0_2 : spec_float := Eval vm_compute in f64 0x1.999999999999ap-3%float.  (* 0.2 *)
Definition lit_0_5 : spec_float := Eval vm_compute in f64 0x1p-1%float.  (* 0.5 *)
Definition lit_0_7 : spec_float := Eval vm_compute in f64 0x1.6666666666666p-1%float.  (* 0.7 *)
Definition lit_0_9 : spec_float := Eval vm_compute in f64 0x1.ccccccccccccdp-1%float.  (* 0.9 *)
Definition lit_1_0 : spec_float := Eval vm_compute in f64 0x1p+0%float.  (* 1.0 *)

(** [a + b] on binary64 values. *)
Definition fadd (a b : spec_float) : spec_float := SFadd prec emax a b.

(** A computation with effects on a state [S] that returns a value or
    raises: the state reached is kept in both cases. *)
Definition eff (S A : Type) : Type := S -> S * result A.

Definition ret {S A} (a : A) : eff S A := fun s => (s, Ok a).
Definition bind {S A B} (m : eff S A) (k : A -> eff S B) : eff S B :=
  fun s =>
    match m s with
    | (s', Ok a) => k a s'
    | (s', Raise e) => (s', Raise e)
    end.
Definition lift {S A} (r : result A) : eff S A := fun s => (s, r).

Notation "x <- m ;; k" := (bind m (fun x => k))
  (at level 100, m at next level, right associativity).
Notation "m ;; k" := (bind m (fun _ => k))
  (at level 100, right associativity).

(** [for x in l: body(x)]. *)
Fixpoint for_each {S A} (l : list A) (body : A -> eff S unit) : eff S unit :=
  match l with
  | [] => ret tt
  | x :: rest => body x ;; for_each rest body
  end.

(** [sorted(l)] on strings, which compare by code unit. *)
Fixpoint insert_sorted (s : string) (l : list string) : list string :=
  match l with
  | [] => [s]
  | x :: rest => if String.leb s x then s :: l else x :: insert_sorted s rest
  end.
Definition sorted (l : list string) : list string := foldr insert_sorted [] l.

(** [max(first, *rest, key=key)]: the key of each item is computed once and
    the running best is replaced when a key is strictly greater. *)
Fixpoint scan_key {A} (key : A -> spec_float) (best : A) (kbest : spec_float)
    (l : list A) : A :=
  match l with
  | [] => best
  | item :: rest =>
      let k := key item in
      if SFltb kbest k then scan_key key item k rest
      else scan_key key best kbest rest
  end.
Definition max_by_key {A} (key : A -> spec_float) (first : A) (rest : list A) : A :=
  scan_key key first (key first) rest.

(** [l[a:b]] for integers [a], [b]: negative bounds count from the end and
    both are clamped to the length. *)
Definition slice_bound (n i : Z) : Z :=
  if i <? 0 then Z.max 0 (i + n) else Z.min i n.
Definition py_slice {A} (l : list A) (a b : Z) : list A :=
  let n := Z.of_nat (length l) in
  let start := slice_bound n a in
  let stop := slice_bound n b in
  take (Z.to_nat (stop - start)) (drop (Z.to_nat start) l).

End Py.

(** ** The training-curve renderer ([src/utils/plotting.py]) *)

Module Plotting.
Import Py.

(** [history.history]: a dict from metric name to the per-epoch values. *)
Definition history := gmap string (list pyfloat).

(** The text of an annotation, [f'{prefix}: {value:.2f} (epoch {epoch})'],
    kept unformatted. *)
Record annotation := Annotation {
  ann_prefix : string;
  ann_value : spec_float;
  ann_epoch : nat
}.

(** The pyplot calls the renderer issues, in order, with the arguments
    that matter here. *)
Inductive plt_call :=
  | Figure (width height : Z)
  | Subplot (nrows ncols idx : Z)
  | Plot (xs : list nat) (ys : list pyfloat) (label : string)
  | Scatter (x : nat) (y : pyfloat)
  | Text (x : nat) (y : spec_float) (s : annotation)
  | Title (s : string)
  | Xlabel (s : string)
  | Ylabel (s : string)
  | Legend
  | Grid
  | Suptitle (s : string)
  | TightLayout
  | Savefig (fname : string) (dpi : Z) (written : string)
  | Show.

(** The renderer's effect: the pyplot calls made so far. *)
Definition plt (A : Type) : Type := eff (list plt_call) A.

Definition call (c : plt_call) : plt unit := fun tr => (tr ++ [c], Ok tt).

(** [plt.plot(x, y, ...)]: matplotlib raises [ValueError] when an operand
    is [None] and when [x] and [y] differ in length; otherwise the line is
    drawn. *)
Definition plt_plot (xs : list nat) (ys : option (list pyfloat))
    (label : string) : plt unit :=
  match ys with
  | None => lift (Raise ValueError)
  | Some l =>
      if Nat.eqb (length xs) (length l) then call (Plot xs l label)
      else lift (Raise ValueError)
  end.

(** A file name with neither a directory part nor an extension. *)
Definition bare (name : string) : bool :=
  negb (mentions "/"%char name) && negb (mentions "."%char name).

(** What matplotlib and the disk decide at [plt.savefig(fname)]: the file
    that is written, or the exception raised ([ValueError] for an extension
    that names no supported format, [OSError] for a directory that does not
    exist). A name without directory part and without extension is saved in
    the working directory in the default format, as [fname.png]. *)
Class Pyplot := {
  savefig_file : string -> result string;
  savefig_bare : forall name,
    bare name = true -> savefig_file name = Ok (name ++ ".png")%string
}.

(** Lines 4-15: the four lookups, the epoch axis and the best points. *)
Record best_points := BestPoints {
  epochs : list nat;
  best_acc_epoch : nat;
  best_acc : pyfloat;
  best_loss_epoch : nat;
  best_loss : pyfloat
}.

Definition bind_result {A B} (r : result A) (k : A -> result B) : result B :=
  match r with
  | Ok a => k a
  | Raise e => Raise e
  end.

Definition compute_best_points (h : history) : result best_points :=
  let acc := h !! "accuracy"%string in
  let val_acc := h !! "val_accuracy"%string in
  let loss := h !! "loss"%string in
  let val_loss := h !! "val_loss"%string in
  bind_result (py_len acc) (fun n =>
  let epochs := seq 1 n in
  bind_result (py_getattr_index val_acc) (fun index =>
  bind_result (py_max val_acc) (fun m =>
  bind_result (index m) (fun i =>
  let best_acc_epoch := (i + 1)%nat in
  bind_result (py_max val_acc) (fun best_acc =>
  bind_result (py_getattr_index val_loss) (fun index' =>
  bind_result (py_min val_loss) (fun m' =>
  bind_result (index' m') (fun j =>
  let best_loss_epoch := (j + 1)%nat in
  bind_result (py_min val_loss) (fun best_loss =>
  Ok (BestPoints epochs best_acc_epoch best_acc best_loss_epoch best_loss)))))))))).

Definition default_title : string := "Training and Validation Accuracy & Loss".

Section Renderer.
Context `{pp : Pyplot}.

(** [plt.savefig(fname, dpi=dpi)]: the call is recorded with the file it
    wrote; when it raises, nothing is written. *)
Definition plt_savefig (fname : string) (dpi : Z) : plt unit := fun tr =>
  match savefig_file fname with
  | Ok written => (tr ++ [Savefig fname dpi written], Ok tt)
  | Raise e => (tr, Raise e)
  end.

Definition plot_training_history_with_annotations
    (h : history) (title : string) (save_path : option string) : plt unit :=
  let acc := h !! "accuracy"%string in
  let val_acc := h !! "val_accuracy"%string in
  let loss := h !! "loss"%string in
  let val_loss := h !! "val_loss"%string in
  b <- lift (compute_best_points h) ;;
  call (Figure 14 5) ;;
  (* accuracy panel *)
  call (Subplot 1 2 1) ;;
  plt_plot (epochs b) acc "Training Accuracy" ;;
  plt_plot (epochs b) val_acc "Validation Accuracy" ;;
  call (Scatter (best_acc_epoch b) (best_acc b)) ;;
  call (Text (best_acc_epoch b) (fadd (fval (best_acc b)) lit_0_01)
          (Annotation "Best" (fval (best_acc b)) (best_acc_epoch b))) ;;
  call (Title "Accuracy Over Epochs") ;;
  call (Xlabel "Epochs") ;;
  call (Ylabel "Accuracy") ;;
  call Legend ;;
  call Grid ;;
  (* loss panel *)
  call (Subplot 1 2 2) ;;
  plt_plot (epochs b) loss "Training Loss" ;;
  plt_plot (epochs b) val_loss "Validation Loss" ;;
  call (Scatter (best_loss_epoch b) (best_loss b)) ;;
  call (Text (best_loss_epoch b) (fadd (fval (best_loss b)) lit_0_1)
          (Annotation "Lowest" (fval (best_loss b)) (best_loss_epoch b))) ;;
  call (Title "Loss Over Epochs") ;;
  call (Xlabel "Epochs") ;;
  call (Ylabel "Loss") ;;
  call Legend ;;
  call Grid ;;
  call (Suptitle title) ;;
  call TightLayout ;;
  plt_savefig (fstring save_path) 300 ;;
  call Show.

(** One run of the renderer on a fresh figure. *)
Definition render (h : history) (title : string) (save_path : option string)
    : list plt_call * result unit :=
  plot_training_history_with_annotations h title save_path [].

End Renderer.

(** The chart files persisted, under the names they have on disk: one per
    [savefig] call that went through. *)
Definition saved_files (tr : list plt_call) : list string :=
  omap (fun c => match c with Savefig _ _ written => Some written | _ => None end) tr.

End Plotting.

(** A reference environment for the examples: the working directory is the
    only directory, and the formats are matplotlib's raster and vector
    defaults. *)
Module ExamplePyplot.
Import Py Plotting.

Definition formats : list string := ["png"; "pdf"; "svg"; "jpg"; "jpeg"; "eps"]%string.

Definition example_savefig_file (name : string) : result string :=
  if bare name then Ok (name ++ ".png")%string
  else if mentions "/"%char name then Raise OSError
  else match extension name with
       | Some ext =>
           if bool_decide (ext ∈ formats) then Ok name else Raise ValueError
       | None => Ok (name ++ ".png")%string
       end.

Lemma example_savefig_bare name :
  bare name = true -> example_savefig_file name = Ok (name ++ ".png")%string.
Proof. unfold example_savefig_file. now intros ->. Qed.

Definition example_pyplot : Pyplot :=
  {| savefig_file := example_savefig_file; savefig_bare := example_savefig_bare |}.

End ExamplePyplot.

(** ** The marker-crop transform ([src/scripts/preprocess_data.py]) *)

Module Preprocess.
Import Py.

(** *** Images *)

(** A pixel holds three 8-bit channels (B, G, R, or H, S, V after the
    conversion); an image is its rows of pixels, [img[y][x]]; a mask holds
    one 8-bit value per pixel. *)
Definition pixel : Type := Z * Z * Z.
Abbreviation image := (list (list pixel)).
Abbreviation mask := (list (list Z)).

(** [a.shape[0]] (rows) and [a.shape[1]] (columns). *)
Definition shape0 {A} (a : list (list A)) : Z := Z.of_nat (length a).
Definition shape1 {A} (a : list (list A)) : Z := Z.of_nat (length (hd [] a)).

(** A non-empty array all of whose rows have the same length. *)
Definition proper {A} (a : list (list A)) : Prop :=
  0 < shape0 a /\ 0 < shape1 a /\
  Forall (fun row => Z.of_nat (length row) = shape1 a) a.

(** [img[y0:y1, x0:x1]]. *)
Definition crop {A} (img : list (list A)) (y0 y1 x0 x1 : Z) : list (list A) :=
  (fun row => py_slice row x0 x1) <$> py_slice img y0 y1.

(** A contour is a sequence of points [(x, y)]; a rectangle is
    [(x, y, w, h)]. *)
Abbreviation point := (Z * Z)%type.
Abbreviation contour := (list point).
Abbreviation rect := (Z * Z * Z * Z)%type.

(** [cv2.inRange(hsv, lower, upper)]: 255 where every channel lies between
    the bounds (inclusive), 0 elsewhere. *)
Definition in_range (lower upper : pixel) (p : pixel) : bool :=
  let '(l0, l1, l2) := lower in
  let '(u0, u1, u2) := upper in
  let '(c0, c1, c2) := p in
  (l0 <=? c0) && (c0 <=? u0) && (l1 <=? c1) && (c1 <=? u1) &&
  (l2 <=? c2) && (c2 <=? u2).

Definition inRange (hsv : image) (lower upper : pixel) : mask :=
  (fun row : list pixel => (fun p => if in_range lower upper p then 255 else 0) <$> row) <$> hsv.

(** [cv2.boundingRect(points)]: the smallest upright rectangle that
    contains every point; the empty rectangle for no points. *)
Definition boundingRect (c : contour) : rect :=
  match c with
  | [] => (0, 0, 0, 0)
  | (x0, y0) :: rest =>
      let xmin := foldr (fun q acc => Z.min q.1 acc) x0 rest in
      let xmax := foldr (fun q acc => Z.max q.1 acc) x0 rest in
      let ymin := foldr (fun q acc => Z.min q.2 acc) y0 rest in
      let ymax := foldr (fun q acc => Z.max q.2 acc) y0 rest in
      (xmin, ymin, xmax - xmin + 1, ymax - ymin + 1)
  end.

(** The OpenCV entry points whose result is not computed here, with the
    properties of theirs that the transform relies on. *)
Class OpenCV := {
  (** [cv2.cvtColor(img, cv2.COLOR_BGR2HSV)], pixel by pixel. *)
  bgr2hsv : pixel -> pixel;
  (** [cv2.findContours(mask, cv2.RETR_EXTERNAL, cv2.CHAIN_APPROX_SIMPLE)[0]]. *)
  findContours : mask -> list contour;
  (** [cv2.contourArea]. *)
  contourArea : contour -> spec_float;
  (** [cv2.resize(src, dsize)] with [dsize = (width, height)]; raises on an
      empty source. *)
  resize : image -> Z * Z -> result image;
  (** Decoding a file's bytes ([cv2.imread]: [None] when they are not an
      image) and encoding an image for a file name ([cv2.imwrite]). *)
  imdecode : list Byte.byte -> option image;
  imencode : string -> image -> list Byte.byte;
  (** [cv2.haveImageWriter(name)]: whether the extension of the file name
      selects an encoder. *)
  has_encoder : string -> bool;

  (** A mask without a non-zero pixel has no contours. *)
  findContours_blank : forall m,
    Forall (Forall (fun v => v = 0)) m -> findContours m = [];
  (** A contour is a non-empty sequence of pixel positions of the mask. *)
  findContours_inside : forall m c,
    c ∈ findContours m ->
    c <> [] /\
    forall x y, (x, y) ∈ c -> 0 <= x < shape1 m /\ 0 <= y < shape0 m;
  (** Resizing a non-empty image to a positive size gives that size. *)
  resize_shape : forall src w h,
    proper src -> 0 < w -> 0 < h ->
    exists dst, resize src (w, h) = Ok dst /\
      proper dst /\ shape0 dst = h /\ shape1 dst = w;
  (** A decoded image is non-empty and rectangular. *)
  imdecode_proper : forall b img, imdecode b = Some img -> proper img
}.

(** *** The file system *)

(** A path is its sequence of components; [os.path.join(p, name)] adds
    one. *)
Abbreviation path := (list string).
Definition os_path_join (p : path) (name : string) : path := p ++ [name].
Definition path_str (p : path) : string := String.concat "/" p.

Inductive node :=
  | Dir
  | File (content : list Byte.byte).

Abbreviation fs := (gmap path node).

(** What a run acts on: the file system and the standard output. *)
Record world := World { files : fs; stdout : list string }.

Definition io (A : Type) : Type := eff world A.

(** The root is a directory; elsewhere a directory is a [Dir] node. *)
Definition is_dir (f : fs) (p : path) : bool :=
  match p with
  | [] => true
  | _ => match f !! p with Some Dir => true | _ => false end
  end.

(** The name under which [q] is an entry of directory [p], if it is one. *)
Fixpoint child_name (p q : path) : option string :=
  match p, q with
  | [], [n] => Some n
  | a :: p', b :: q' => if decide (a = b) then child_name p' q' else None
  | _, _ => None
  end.

(** The entries of a directory, and the order in which they are listed.
    [os.listdir] promises no order; the one taken here is a function of the
    set of entries. The script sorts the class names; the images of a
    class are processed in listing order. *)
Definition children (f : fs) (p : path) : gset string :=
  set_omap (child_name p) (dom f).
Definition entries (f : fs) (p : path) : list string := elements (children f p).

(** [os.makedirs(p, exist_ok=True)] and
    [Path(p).mkdir(parents=True, exist_ok=True)]: every missing directory
    along [p] is created; a file in the way raises. *)
Fixpoint makedirs_from (base rest : path) (f : fs) : result fs :=
  match rest with
  | [] => Ok f
  | c :: rest' =>
      let q := base ++ [c] in
      match f !! q with
      | Some Dir => makedirs_from q rest' f
      | Some (File _) => Raise OSError
      | None => makedirs_from q rest' (<[q := Dir]> f)
      end
  end.

Definition set_files (f : fs) (w : world) : world :=
  {| files := f; stdout := stdout w |}.

Definition os_makedirs (p : path) : io unit := fun w =>
  match makedirs_from [] p (files w) with
  | Ok f => (set_files f w, Ok tt)
  | Raise e => (w, Raise e)
  end.

Definition path_mkdir (p : path) : io unit := os_makedirs p.

(** [os.listdir(p)]: raises unless [p] is a directory. *)
Definition os_listdir (p : path) : io (list string) := fun w =>
  if is_dir (files w) p then (w, Ok (entries (files w) p)) else (w, Raise OSError).

Definition os_path_isdir (p : path) : io bool := fun w =>
  (w, Ok (is_dir (files w) p)).

(** [print(s)]. *)
Definition print (s : string) : io unit := fun w =>
  ({| files := files w; stdout := stdout w ++ [s] |}, Ok tt).

(** The file name of a path and the directory that holds it. *)
Definition basename (p : path) : string := default ""%string (last p).
Definition dirname (p : path) : path := removelast p.

(** Writing [content] at [p]: the file is created or overwritten when its
    directory exists and [p] is not itself a directory; otherwise nothing
    is written. *)
Definition write_file (p : path) (content : list Byte.byte) (f : fs) : fs :=
  if is_dir f (dirname p) && negb (is_dir f p) then <[p := File content]> f else f.

Section Transform.
Context `{cv : OpenCV}.

Definition cvtColor_BGR2HSV (img : image) : image :=
  (fun row : list pixel => bgr2hsv <$> row) <$> img.

(** [cv2.imread(p)]: [None] when [p] is not a file that decodes. *)
Definition cv2_imread (p : path) : io (option image) := fun w =>
  match files w !! p with
  | Some (File content) => (w, Ok (imdecode content))
  | _ => (w, Ok None)
  end.

(** [cv2.imwrite(p, img)]: the encoder is chosen by the extension of the
    file name, and [cv2.error] is raised, before the disk is touched, when
    there is none for it; the script ignores the value returned
    otherwise. *)
Definition cv2_imwrite (p : path) (img : image) : io unit := fun w =>
  if has_encoder (basename p) then
    (set_files (write_file p (imencode (basename p) img) (files w)) w, Ok tt)
  else (w, Raise CvError).

Definition lower_pink : pixel := (140, 50, 50).
Definition upper_pink : pixel := (170, 255, 255).
Definition pad : Z := 10.

(** Lines 39-43: the bounding rectangle padded by [pad] and clamped to an
    image of [shape = (rows, columns)]. *)
Definition pad_rect (shape : Z * Z) (r : rect) : rect :=
  let '(x, y, w, h) := r in
  let x := Z.max 0 (x - pad) in
  let y := Z.max 0 (y - pad) in
  let w := Z.min (shape.2 - x) (w + 2 * pad) in
  let h := Z.min (shape.1 - y) (h + 2 * pad) in
  (x, y, w, h).

(** Lines 26-51: the body of the loop over the images of a class. *)
Definition process_image (class_path output_class_path : path)
    (target_size : Z * Z) (img_name : string) : io unit :=
  let img_path := os_path_join class_path img_name in
  img <- cv2_imread img_path ;;
  match img with
  | None =>
      print ("[SKIP] Could not read image: " ++ path_str img_path)
  | Some img =>
      let hsv := cvtColor_BGR2HSV img in
      let mask := inRange hsv lower_pink upper_pink in
      let contours := findContours mask in
      match contours with
      | first :: rest =>
          let '(x, y, w, h) :=
            pad_rect (shape0 img, shape1 img)
              (boundingRect (max_by_key contourArea first rest)) in
          let cropped := crop img y (y + h) x (x + w) in
          resized <- lift (resize cropped target_size) ;;
          let save_path := os_path_join output_class_path img_name in
          cv2_imwrite save_path resized
      | [] =>
          print ("[WARNING] No pink box found in " ++ path_str img_path)
      end
  end.

(** Lines 18-51: the body of the loop over the entries of [data_dir]. *)
Definition process_class (data_dir output_dir : path) (target_size : Z * Z)
    (class_name : string) : io unit :=
  let class_path := os_path_join data_dir class_name in
  d <- os_path_isdir class_path ;;
  if negb d then ret tt
  else
    let output_class_path := os_path_join output_dir class_name in
    path_mkdir output_class_path ;;
    img_names <- os_listdir class_path ;;
    for_each img_names (process_image class_path output_class_path target_size).

Definition preprocess_dataset (data_dir output_dir : path)
    (target_size : Z * Z) : io unit :=
  os_makedirs output_dir ;;
  names <- os_listdir data_dir ;;
  let class_names := sorted names in
  for_each class_names (process_class data_dir output_dir target_size) ;;
  print "Preprocessing complete.".

Definition default_target_size : Z * Z := (160, 160).
End Transform.

End Preprocess.

(** ** A small instance of the OpenCV interface

    Enough of OpenCV to run the transform on examples: pixels are kept as
    they are by the colour conversion, the marked pixels of a mask form one
    contour, resizing samples the nearest pixel, and an image file is its
    width followed by its gray levels, row by row. *)

Module ExampleCV.
Import Py Preprocess.

Definition at2 {A} (d : A) (a : list (list A)) (y x : nat) : A :=
  nth x (nth y a []) d.

Definition positions (m : mask) : list point :=
  concat ((fun y => (fun x => (Z.of_nat x, Z.of_nat y)) <$> seq 0 (length (hd [] m)))
            <$> seq 0 (length m)).

Definition marked (m : mask) (q : point) : bool :=
  negb (at2 0 m (Z.to_nat q.2) (Z.to_nat q.1) =? 0).

Definition marked_points (m : mask) : list point :=
  List.filter (marked m) (positions m).

Definition example_findContours (m : mask) : list contour :=
  match marked_points m with
  | [] => []
  | pts => [pts]
  end.

Definition example_contourArea (c : contour) : spec_float :=
  binary_normalize prec emax (Z.of_nat (length c)) 0 false.

(** The [h] by [w] array whose entry in row [j], column [i] is [f j i]. *)
Definition grid {A} (h w : nat) (f : nat -> nat -> A) : list (list A) :=
  (fun j => f j <$> seq 0 w) <$> seq 0 h.

Definition example_resize (src : image) (dsize : Z * Z) : result image :=
  let '(w, h) := dsize in
  if (0 <? shape0 src) && (0 <? shape1 src) && (0 <? w) && (0 <? h) then
    Ok (grid (Z.to_nat h) (Z.to_nat w) (fun j i =>
          at2 (0, 0, 0) src (j * length src / Z.to_nat h)
            (i * length (hd [] src) / Z.to_nat w)))
  else Raise CvError.

Definition gray (b : Byte.byte) : pixel :=
  let v := Z.of_N (Byte.to_N b) in (v, v, v).

Definition example_imdecode (bytes : list Byte.byte) : option image :=
  match bytes with
  | [] => None
  | wb :: data =>
      let w := N.to_nat (Byte.to_N wb) in
      let h := (length data / w)%nat in
      if ((0 <? w) && (0 <? h) && (length data =? w * h))%nat then
        Some (grid h w (fun j i => gray (nth (j * w + i) data x00)))
      else None
  end.

Definition to_byte (v : Z) : Byte.byte :=
  default x00 (Byte.of_N (Z.to_N (v mod 256))).

Definition example_imencode (name : string) (img : image) : list Byte.byte :=
  to_byte (shape1 img) :: ((fun p : pixel => to_byte p.1.1) <$> concat img).

(** The extensions with an encoder. *)
Definition writers : list string := ["png"; "jpg"; "jpeg"; "bmp"]%string.
Definition example_has_encoder (name : string) : bool :=
  match extension name with
  | Some ext => bool_decide (ext ∈ writers)
  | None => false
  end.

Lemma elem_of_positions (m : mask) (x y : Z) :
  (x, y) ∈ positions m -> 0 <= x < shape1 m /\ 0 <= y < shape0 m.
Proof.
  unfold positions, shape0, shape1. intros H.
  apply list_elem_of_In, in_concat in H as (row & Hrow & Hin).
  apply list_elem_of_In, list_elem_of_fmap in Hrow as (j & -> & Hj).
  apply list_elem_of_In, list_elem_of_fmap in Hin as (i & Heq & Hi).
  inversion Heq; subst.
  apply elem_of_seq in Hi, Hj. lia.
Qed.

Lemma at2_blank (m : mask) (y x : nat) :
  Forall (Forall (fun v => v = 0)) m -> at2 0 m y x = 0.
Proof.
  intros H. unfold at2.
  destruct (nth_in_or_default y m []) as [Hin | ->]; [|destruct x; reflexivity].
  rewrite Forall_forall in H. apply list_elem_of_In, H in Hin.
  destruct (nth_in_or_default x (nth y m []) 0) as [Hin' | ->]; [|reflexivity].
  rewrite Forall_forall in Hin. apply Hin, list_elem_of_In, Hin'.
Qed.

Lemma example_findContours_blank (m : mask) :
  Forall (Forall (fun v => v = 0)) m -> example_findContours m = [].
Proof.
  intros H. unfold example_findContours, marked_points.
  replace (List.filter (marked m) (positions m)) with (@nil point); [reflexivity|].
  symmetry. induction (positions m) as [|q l IH]; [reflexivity|].
  simpl. unfold marked at 1. rewrite at2_blank by exact H. exact IH.
Qed.

Lemma example_findContours_inside (m : mask) (c : contour) :
  c ∈ example_findContours m ->
  c <> [] /\ forall x y, (x, y) ∈ c -> 0 <= x < shape1 m /\ 0 <= y < shape0 m.
Proof.
  unfold example_findContours. intros H.
  destruct (marked_points m) as [|q pts] eqn:E; [inversion H|].
  apply list_elem_of_singleton in H as ->. split; [discriminate|].
  intros x y Hin. apply elem_of_positions.
  rewrite <- E in Hin. unfold marked_points in Hin.
  apply list_elem_of_In, filter_In in Hin as [Hin _].
  apply list_elem_of_In. exact Hin.
Qed.

Lemma grid_proper {A} (h w : nat) (f : nat -> nat -> A) :
  (0 < h)%nat -> (0 < w)%nat ->
  proper (grid h w f) /\
  shape0 (grid h w f) = Z.of_nat h /\ shape1 (grid h w f) = Z.of_nat w.
Proof.
  intros Hh Hw.
  assert (S0 : shape0 (grid h w f) = Z.of_nat h).
  { unfold shape0, grid. rewrite length_fmap, length_seq. reflexivity. }
  assert (S1 : shape1 (grid h w f) = Z.of_nat w).
  { unfold shape1, grid. destruct h as [|n]; [lia|].
    simpl. rewrite length_fmap, length_seq. reflexivity. }
  split; [|split; assumption].
  split; [lia|]. split; [lia|]. rewrite S1.
  unfold grid. apply Forall_fmap, Forall_forall. intros j _.
  cbv beta delta [compose]. rewrite length_fmap, length_seq. reflexivity.
Qed.

Lemma example_resize_shape (src : image) (w h : Z) :
  proper src -> 0 < w -> 0 < h ->
  exists dst, example_resize src (w, h) = Ok dst /\
    proper dst /\ shape0 dst = h /\ shape1 dst = w.
Proof.
  intros (H0 & H1 & _) Hw Hh. unfold example_resize.
  destruct (Z.ltb_spec 0 (shape0 src)); [|lia].
  destruct (Z.ltb_spec 0 (shape1 src)); [|lia].
  destruct (Z.ltb_spec 0 w); [|lia].
  destruct (Z.ltb_spec 0 h); [|lia].
  eexists. split; [reflexivity|].
  match goal with
  | |- context [grid ?a ?b ?f] =>
      destruct (grid_proper a b f) as (P & S0 & S1); [lia | lia |]
  end.
  split; [exact P|].
  split; [etransitivity; [exact S0 | lia] | etransitivity; [exact S1 | lia]].
Qed.

Lemma example_imdecode_proper (b : list Byte.byte) (img : image) :
  example_imdecode b = Some img -> proper img.
Proof.
  unfold example_imdecode. destruct b as [|wb data]; [discriminate|].
  set (w := N.to_nat (Byte.to_N wb)). set (h := (length data / w)%nat).
  destruct (Nat.ltb_spec 0 w); [|discriminate].
  destruct (Nat.ltb_spec 0 h); [|discriminate].
  destruct (length data =? w * h)%nat; [|discriminate].
  cbn [andb]. intros [= <-].
  apply grid_proper; assumption.
Qed.

#[export] Instance example_cv : OpenCV := {|
  bgr2hsv := fun p => p;
  findContours := example_findContours;
  contourArea := example_contourArea;
  resize := example_resize;
  imdecode := example_imdecode;
  imencode := example_imencode;
  has_encoder := example_has_encoder;
  findContours_blank := example_findContours_blank;
  findContours_inside := example_findContours_inside;
  resize_shape := example_resize_shape;
  imdecode_proper := example_imdecode_proper
|}.

End ExampleCV.

(** ** An example dataset

    Class [A] holds one image with a marker (two pixels of level 150 in a
    4 by 3 image), class [B] one image without and one file that does not
    decode; [notes.txt] is not a directory. *)

Module Example.
Import Py Preprocess ExampleCV.

Definition marker_bytes : list Byte.byte :=
  [x04; x0a; x0a; x0a; x0a;
        x0a; x96; x96; x0a;
        x0a; x0a; x0a; x0a].

Definition plain_bytes : list Byte.byte :=
  [x02; x0a; x0a;
        x0a; x0a].

Definition marker_image : image :=
  Eval vm_compute in default [] (example_imdecode marker_bytes).
Definition plain_image : image :=
  Eval vm_compute in default [] (example_imdecode plain_bytes).

Definition dataset : fs :=
  <[ ["data"] := Dir ]>
  (<[ ["data"; "A"] := Dir ]>
  (<[ ["data"; "A"; "a.png"] := File marker_bytes ]>
  (<[ ["data"; "B"] := Dir ]>
  (<[ ["data"; "B"; "b.png"] := File plain_bytes ]>
  (<[ ["data"; "B"; "broken.png"] := File [] ]>
  (<[ ["data"; "notes.txt"] := File [] ]> ∅)))))).

(** Before the first run, and once the output directory of class [A]
    exists. *)
Definition fresh : world := World dataset [].
Definition ready : world :=
  World (<[ ["out"; "A"] := Dir ]> (<[ ["out"] := Dir ]> dataset)) [].

(** The same, with the marker image of class [A] also stored under a name
    whose extension has no encoder. *)
Definition ready_dat : world :=
  World (<[ ["data"; "A"; "a.dat"] := File marker_bytes ]> (files ready)) [].

End Example.

(** ** Facts about the Python builtins *)

Module PyFacts.
Import Py.

(** *** The binary64 order *)

Lemma SFcompare_refl (a : spec_float) :
  SFcompare a a = Some Eq \/ SFcompare a a = None.
Proof.
  destruct a as [s|s| |s m e]; simpl; auto; destruct s; auto;
    rewrite Z.compare_refl; change (Pos.compare_cont Eq m m) with (m ?= m)%positive;
    rewrite Pos.compare_refl; auto.
Qed.

Lemma SFltb_irrefl (a : spec_float) : SFltb a a = false.
Proof. unfold SFltb. destruct (SFcompare_refl a) as [-> | ->]; reflexivity. Qed.

(** The comparison of two finite numbers of the same sign, as a relation
    on exponent and mantissa. *)
Lemma lex_compare_Lt (e1 e2 : Z) (m1 m2 : positive) :
  match e1 ?= e2 with
  | Lt => Lt | Gt => Gt | Eq => Pos.compare_cont Eq m1 m2
  end = Lt <-> e1 < e2 \/ (e1 = e2 /\ (m1 < m2)%positive).
Proof.
  change (Pos.compare_cont Eq m1 m2) with (m1 ?= m2)%positive.
  destruct (Z.compare_spec e1 e2) as [He|He|He].
  - rewrite Pos.compare_lt_iff. split; [intros H; right; auto | intros [H|[_ H]]; [lia | auto]].
  - split; [auto | reflexivity].
  - split; [discriminate | intros [H|[H _]]; lia].
Qed.

Lemma lex_compare_opp_Lt (e1 e2 : Z) (m1 m2 : positive) :
  match e1 ?= e2 with
  | Lt => Gt | Gt => Lt | Eq => CompOpp (Pos.compare_cont Eq m1 m2)
  end = Lt <-> e2 < e1 \/ (e1 = e2 /\ (m2 < m1)%positive).
Proof.
  change (Pos.compare_cont Eq m1 m2) with (m1 ?= m2)%positive.
  destruct (Z.compare_spec e1 e2) as [He|He|He].
  - rewrite <- Pos.compare_antisym, Pos.compare_lt_iff.
    split; [intros H; right; auto | intros [H|[_ H]]; [lia | auto]].
  - split; [discriminate | intros [H|[H _]]; lia].
  - split; [intros _; left; lia | reflexivity].
Qed.

(** [<] on binary64 values, spelled out case by case. *)
Definition lt_spec (a b : spec_float) : Prop :=
  match a, b with
  | S754_nan, _ | _, S754_nan => False
  | S754_infinity s1, S754_infinity s2 => s1 = true /\ s2 = false
  | S754_infinity s, _ => s = true
  | _, S754_infinity s => s = false
  | S754_finite s _ _, S754_zero _ => s = true
  | S754_zero _, S754_finite s _ _ => s = false
  | S754_zero _, S754_zero _ => False
  | S754_finite s1 m1 e1, S754_finite s2 m2 e2 =>
      match s1, s2 with
      | true, false => True
      | false, true => False
      | false, false => e1 < e2 \/ (e1 = e2 /\ (m1 < m2)%positive)
      | true, true => e2 < e1 \/ (e1 = e2 /\ (m2 < m1)%positive)
      end
  end.

Lemma SFltb_spec (a b : spec_float) : SFltb a b = true <-> lt_spec a b.
Proof.
  unfold SFltb.
  destruct a as [s1|s1| |s1 m1 e1], b as [s2|s2| |s2 m2 e2]; simpl;
    try destruct s1; try destruct s2; simpl;
    try (intuition congruence).
  - rewrite <- lex_compare_opp_Lt.
    destruct (e1 ?= e2); [destruct (Pos.compare_cont Eq m1 m2) | |]; simpl;
      split; congruence.
  - rewrite <- lex_compare_Lt.
    destruct (e1 ?= e2); [destruct (Pos.compare_cont Eq m1 m2) | |]; simpl;
      split; congruence.
Qed.

Lemma SFltb_trans (a b c : spec_float) :
  SFltb a b = true -> SFltb b c = true -> SFltb a c = true.
Proof.
  rewrite !SFltb_spec.
  destruct a as [s1|s1| |s1 m1 e1], b as [s2|s2| |s2 m2 e2],
    c as [s3|s3| |s3 m3 e3]; simpl;
    try destruct s1; try destruct s2; try destruct s3; simpl;
    try tauto; try (intros; congruence); try (intuition congruence);
    intros [H1|[H1 H1']] [H2|[H2 H2']]; try (left; lia);
    right; split; try lia.
Qed.

Definition not_nan (a : spec_float) : Prop := a <> S754_nan.

(** Away from NaN the order is total: [a < b] fails only if [b <= a]. *)
Lemma SFltb_false_leb (a b : spec_float) :
  not_nan a -> not_nan b -> SFltb a b = false -> SFleb b a = true.
Proof.
  unfold not_nan, SFltb, SFleb.
  destruct a as [s1|s1| |s1 m1 e1], b as [s2|s2| |s2 m2 e2]; simpl;
    try congruence; try destruct s1; try destruct s2; simpl;
    try congruence; intros _ _;
    rewrite (Z.compare_antisym e1 e2);
    change (Pos.compare_cont Eq m2 m1) with (m2 ?= m1)%positive;
    change (Pos.compare_cont Eq m1 m2) with (m1 ?= m2)%positive;
    rewrite (Pos.compare_antisym m1 m2);
    destruct (e1 ?= e2); simpl; try congruence;
    destruct (m1 ?= m2)%positive; simpl; congruence.
Qed.

Lemma py_gt_irrefl a : py_gt a a = false.
Proof. apply SFltb_irrefl. Qed.
Lemma py_lt_irrefl a : py_lt a a = false.
Proof. apply SFltb_irrefl. Qed.
Lemma py_gt_trans a b c : py_gt a b = true -> py_gt b c = true -> py_gt a c = true.
Proof. unfold py_gt. intros H1 H2. exact (SFltb_trans _ _ _ H2 H1). Qed.
Lemma py_lt_trans a b c : py_lt a b = true -> py_lt b c = true -> py_lt a c = true.
Proof. unfold py_lt. apply SFltb_trans. Qed.


(** *** [max], [min]: the scan keeps a best element *)

Section Scan.
Variable better : pyfloat -> pyfloat -> bool.
Hypothesis better_irrefl : forall a, better a a = false.
Hypothesis better_trans :
  forall a b c, better a b = true -> better b c = true -> better a c = true.

Lemma scan_elem best l : scan better best l ∈ best :: l.
Proof.
  revert best. induction l as [|item rest IH]; intros best; simpl.
  - left.
  - specialize (IH (if better item best then item else best)).
    apply elem_of_cons in IH as [-> | IH].
    + destruct (better item best); [right; left | left].
    + right; right; exact IH.
Qed.

Lemma scan_unbeaten_gen l : forall best (seen : list pyfloat),
  (forall x, x ∈ seen -> better x best = false) ->
  forall x, x ∈ best :: seen ++ l -> better x (scan better best l) = false.
Proof.
  induction l as [|item rest IH]; intros best seen Hseen x Hx; simpl.
  - rewrite app_nil_r in Hx. apply elem_of_cons in Hx as [-> | Hx]; auto.
  - destruct (better item best) eqn:Hb.
    + apply (IH item (best :: seen)).
      * intros y Hy. apply elem_of_cons in Hy as [-> | Hy].
        -- destruct (better best item) eqn:Hc; [|reflexivity].
           rewrite <- (better_irrefl best). symmetry. eauto.
        -- destruct (better y item) eqn:Hc; [|reflexivity].
           rewrite <- (Hseen y Hy). symmetry. eauto.
      * apply elem_of_cons in Hx as [-> | Hx]; [right; left|].
        apply elem_of_app in Hx as [Hx | Hx].
        -- right. apply elem_of_app. left. right. exact Hx.
        -- apply elem_of_cons in Hx as [-> | Hx]; [left|].
           right. apply elem_of_app. right. exact Hx.
    + apply (IH best (item :: seen)).
      * intros y Hy. apply elem_of_cons in Hy as [-> | Hy]; auto.
      * apply elem_of_cons in Hx as [-> | Hx]; [left|].
        apply elem_of_app in Hx as [Hx | Hx].
        -- right. apply elem_of_app. left. right. exact Hx.
        -- apply elem_of_cons in Hx as [-> | Hx].
           ++ right. apply elem_of_app. left. left.
           ++ right. apply elem_of_app. right. exact Hx.
Qed.

Lemma scan_unbeaten best l x :
  x ∈ best :: l -> better x (scan better best l) = false.
Proof.
  intros Hx. apply (scan_unbeaten_gen l best []); [|exact Hx].
  intros y Hy. inversion Hy.
Qed.
End Scan.

(** *** [list.index]: the first position that matches *)

Lemma same_refl v : same v v = true.
Proof. unfold same, py_is. rewrite bool_decide_eq_true_2; reflexivity. Qed.

Lemma index_from_first l : forall i v k,
  index_from i l v = Some k ->
  exists n x, k = (i + n)%nat /\ l !! n = Some x /\ same x v = true /\
    forall j y, (j < n)%nat -> l !! j = Some y -> same y v = false.
Proof.
  induction l as [|item rest IH]; intros i v k H; simpl in H; [discriminate|].
  destruct (same item v) eqn:Hs.
  - inversion H; subst. exists 0%nat, item.
    repeat split; [lia | assumption | intros j y Hj; lia].
  - apply IH in H as (n & x & -> & Hn & Hx & Hfirst).
    exists (S n), x. repeat split; [lia | assumption | assumption |].
    intros [|j] y Hj Hy; simpl in Hy.
    + inversion Hy; subst; assumption.
    + apply (Hfirst j); [lia | assumption].
Qed.

Lemma index_from_elem l : forall i v, v ∈ l -> is_Some (index_from i l v).
Proof.
  induction l as [|item rest IH]; intros i v Hv; [inversion Hv|].
  simpl. destruct (same item v) eqn:Hs; [eauto|].
  apply elem_of_cons in Hv as [-> | Hv]; [|apply IH; assumption].
  rewrite same_refl in Hs. discriminate.
Qed.

End PyFacts.

(** ** The renderer: best points, saving, missing metrics *)

Module PlottingSpec.
Import Py PyFacts Plotting.

(** [m] is a maximum of [l] for Python's [>]: an element that no element
    beats. *)
Definition is_maximum (m : pyfloat) (l : list pyfloat) : Prop :=
  m ∈ l /\ forall x, x ∈ l -> py_gt x m = false.

(** [m] is a minimum of [l] for Python's [<]. *)
Definition is_minimum (m : pyfloat) (l : list pyfloat) : Prop :=
  m ∈ l /\ forall x, x ∈ l -> py_lt x m = false.

(** [i] is the first position of [l] that holds [m] (the object itself or
    a value equal to it). *)
Definition first_index_of (i : nat) (m : pyfloat) (l : list pyfloat) : Prop :=
  (exists x, l !! i = Some x /\ same x m = true) /\
  forall j y, (j < i)%nat -> l !! j = Some y -> same y m = false.

Definition no_nan (l : list pyfloat) : Prop :=
  forall x, x ∈ l -> not_nan (fval x).

(** All four metric sequences are present and non-empty. *)
Record complete (h : history) (acc val_acc loss val_loss : list pyfloat) : Prop := {
  has_acc : h !! "accuracy"%string = Some acc;
  has_val_acc : h !! "val_accuracy"%string = Some val_acc;
  has_loss : h !! "loss"%string = Some loss;
  has_val_loss : h !! "val_loss"%string = Some val_loss;
  acc_nonempty : acc <> [];
  val_acc_nonempty : val_acc <> [];
  loss_nonempty : loss <> [];
  val_loss_nonempty : val_loss <> []
}.

Definition floats (ids : list nat) (vs : list spec_float) : list pyfloat :=
  zip_with PyFloat ids vs.

(** A history of three epochs; every value is an object of its own. *)
Definition history3 : history :=
  <[ "accuracy"%string := floats [1; 2; 3]%nat [lit_0_5; lit_0_7; lit_0_9] ]>
  (<[ "val_accuracy"%string := floats [4; 5; 6]%nat [lit_0_5; lit_0_9; lit_0_7] ]>
  (<[ "loss"%string := floats [7; 8; 9]%nat [lit_1_0; lit_0_5; lit_0_2] ]>
  (<[ "val_loss"%string := floats [10; 11; 12]%nat [lit_1_0; lit_0_2; lit_0_5] ]> ∅))).

Lemma extremum_found better l :
  l <> [] ->
  exists m i, py_extremum better (Some l) = Ok m /\ m ∈ l /\
    list_index l m = Ok i /\ first_index_of i m l.
Proof.
  intros Hl. destruct l as [|first rest]; [congruence|].
  set (m := scan better first rest).
  assert (Hm : m ∈ first :: rest) by apply scan_elem.
  destruct (index_from_elem (first :: rest) 0 m Hm) as [k Hk].
  exists m, k. split; [reflexivity|]. split; [exact Hm|].
  unfold list_index. rewrite Hk. split; [reflexivity|].
  apply index_from_first in Hk as (n & x & -> & Hn & Hx & Hfirst).
  split; [exists x; auto | exact Hfirst].
Qed.

Lemma compute_best_points_ok h acc val_acc loss val_loss :
  complete h acc val_acc loss val_loss ->
  exists ba i bl j,
    py_max (Some val_acc) = Ok ba /\ list_index val_acc ba = Ok i /\
    first_index_of i ba val_acc /\ ba ∈ val_acc /\
    py_min (Some val_loss) = Ok bl /\ list_index val_loss bl = Ok j /\
    first_index_of j bl val_loss /\ bl ∈ val_loss /\
    compute_best_points h =
      Ok (BestPoints (seq 1 (length acc)) (i + 1) ba (j + 1) bl).
Proof.
  intros [Ha Hva Hl Hvl _ Hne _ Hne'].
  destruct (extremum_found py_gt val_acc Hne) as (ba & i & Hmax & Hin & Hi & Hfirst).
  destruct (extremum_found py_lt val_loss Hne') as (bl & j & Hmin & Hin' & Hj & Hfirst').
  exists ba, i, bl, j. repeat (split; [assumption|]).
  unfold compute_best_points. rewrite Ha, Hva, Hvl. simpl py_len. simpl py_getattr_index.
  unfold py_max, py_min in *. cbn [bind_result].
  rewrite Hmax. cbn [bind_result]. rewrite Hi. cbn [bind_result].
  rewrite Hmin. cbn [bind_result]. rewrite Hj. reflexivity.
Qed.

Lemma py_max_is_maximum l m : py_max (Some l) = Ok m -> is_maximum m l.
Proof.
  destruct l as [|first rest]; [discriminate|]. intros H; inversion H; subst.
  split; [apply scan_elem|].
  intros x Hx. apply (scan_unbeaten py_gt py_gt_irrefl py_gt_trans); exact Hx.
Qed.

Lemma py_min_is_minimum l m : py_min (Some l) = Ok m -> is_minimum m l.
Proof.
  destruct l as [|first rest]; [discriminate|]. intros H; inversion H; subst.
  split; [apply scan_elem|].
  intros x Hx. apply (scan_unbeaten py_lt py_lt_irrefl py_lt_trans); exact Hx.
Qed.

Lemma maximum_bounds l m :
  is_maximum m l -> no_nan l ->
  forall x, x ∈ l -> SFleb (fval x) (fval m) = true.
Proof.
  intros [Hm Hmax] Hnan x Hx. apply SFltb_false_leb; auto. apply Hmax; exact Hx.
Qed.

Lemma minimum_bounds l m :
  is_minimum m l -> no_nan l ->
  forall x, x ∈ l -> SFleb (fval m) (fval x) = true.
Proof.
  intros [Hm Hmin] Hnan x Hx. apply SFltb_false_leb; auto. apply Hmin; exact Hx.
Qed.

(** The renderer on a complete history whose four sequences have the same
    length: every drawing call is made and the two best points are marked
    ([drawn]); then [savefig] is asked to save under [f'{save_path}'], and
    when it does the figure is shown ([full_trace]). *)
Definition drawn (b : best_points) (acc val_acc loss val_loss : list pyfloat)
    (title : string) : list plt_call :=
  [ Figure 14 5;
    Subplot 1 2 1;
    Plot (epochs b) acc "Training Accuracy";
    Plot (epochs b) val_acc "Validation Accuracy";
    Scatter (best_acc_epoch b) (best_acc b);
    Text (best_acc_epoch b) (fadd (fval (best_acc b)) lit_0_01)
      (Annotation "Best" (fval (best_acc b)) (best_acc_epoch b));
    Title "Accuracy Over Epochs"; Xlabel "Epochs"; Ylabel "Accuracy"; Legend; Grid;
    Subplot 1 2 2;
    Plot (epochs b) loss "Training Loss";
    Plot (epochs b) val_loss "Validation Loss";
    Scatter (best_loss_epoch b) (best_loss b);
    Text (best_loss_epoch b) (fadd (fval (best_loss b)) lit_0_1)
      (Annotation "Lowest" (fval (best_loss b)) (best_loss_epoch b));
    Title "Loss Over Epochs"; Xlabel "Epochs"; Ylabel "Loss"; Legend; Grid;
    Suptitle title;
    TightLayout ].

Definition full_trace (b : best_points) (acc val_acc loss val_loss : list pyfloat)
    (title : string) (save_path : option string) (written : string)
    : list plt_call :=
  drawn b acc val_acc loss val_loss title ++
  [ Savefig (fstring save_path) 300 written; Show ].

Lemma render_complete `{pp : Pyplot} h acc val_acc loss val_loss title save_path :
  complete h acc val_acc loss val_loss ->
  length val_acc = length acc -> length loss = length acc ->
  length val_loss = length acc ->
  exists b, compute_best_points h = Ok b /\
    render h title save_path =
      match savefig_file (fstring save_path) with
      | Ok written =>
          (full_trace b acc val_acc loss val_loss title save_path written, Ok tt)
      | Raise e => (drawn b acc val_acc loss val_loss title, Raise e)
      end.
Proof.
  intros Hc H1 H2 H3.
  destruct (compute_best_points_ok _ _ _ _ _ Hc)
    as (ba & i & bl & j & _ & _ & _ & _ & _ & _ & _ & _ & Hb).
  eexists. split; [exact Hb|].
  destruct Hc as [Ha Hva Hl Hvl _ _ _ _].
  unfold render, plot_training_history_with_annotations, bind, lift, call,
    plt_plot, plt_savefig.
  rewrite Hb, Ha, Hva, Hl, Hvl. cbn [epochs].
  rewrite length_seq, H1, H2, H3, Nat.eqb_refl. cbn [app].
  destruct (savefig_file (fstring save_path)); reflexivity.
Qed.

(** C2: on every history whose four metric sequences are present and
    non-empty the renderer computes [best_acc = max(val_accuracy)], a
    maximum of the sequence, and [best_acc_epoch] = (the first index of
    that maximum) + 1; for the accuracies [0.5, 0.9, 0.7] this gives epoch
    2 and value 0.9. *)
Theorem best_acc_is_max_val_accuracy h acc val_acc loss val_loss :
  complete h acc val_acc loss val_loss ->
  exists b i,
    compute_best_points h = Ok b /\
    py_max (Some val_acc) = Ok (best_acc b) /\
    is_maximum (best_acc b) val_acc /\
    (no_nan val_acc ->
       forall x, x ∈ val_acc -> SFleb (fval x) (fval (best_acc b)) = true) /\
    list_index val_acc (best_acc b) = Ok i /\
    first_index_of i (best_acc b) val_acc /\
    best_acc_epoch b = (i + 1)%nat /\
    (fval <$> val_acc = [lit_0_5; lit_0_9; lit_0_7] ->
       best_acc_epoch b = 2%nat /\ fval (best_acc b) = lit_0_9).
Proof.
  intros Hc.
  destruct (compute_best_points_ok _ _ _ _ _ Hc)
    as (ba & i & bl & j & Hmax & Hi & Hfirst & Hin & _ & _ & _ & _ & Hb).
  eexists; exists i. split; [exact Hb|]. cbn [best_acc best_acc_epoch].
  pose proof (py_max_is_maximum _ _ Hmax) as Hismax.
  split; [exact Hmax|]. split; [exact Hismax|].
  split; [intros Hnan; apply maximum_bounds; assumption|].
  split; [exact Hi|]. split; [exact Hfirst|]. split; [reflexivity|].
  intros Hex.
  destruct val_acc as [|[o0 v0] [|[o1 v1] [|[o2 v2] [|? ?]]]]; try discriminate.
  simpl in Hex. injection Hex as -> -> ->.
  assert (Hm : py_max (Some [PyFloat o0 lit_0_5; PyFloat o1 lit_0_9; PyFloat o2 lit_0_7])
               = Ok (PyFloat o1 lit_0_9)) by reflexivity.
  rewrite Hm in Hmax. injection Hmax as <-.
  assert (Hidx : list_index [PyFloat o0 lit_0_5; PyFloat o1 lit_0_9; PyFloat o2 lit_0_7]
                   (PyFloat o1 lit_0_9) = Ok 1%nat).
  { unfold list_index. cbn [index_from].
    replace (same (PyFloat o0 lit_0_5) (PyFloat o1 lit_0_9)) with false.
    - rewrite same_refl. reflexivity.
    - unfold same, py_is. rewrite bool_decide_eq_false_2; [reflexivity|].
      intros E. injection E as _ E. discriminate E. }
  rewrite Hidx in Hi. injection Hi as <-. split; reflexivity.
Qed.

Lemma best_acc_is_max_val_accuracy_witness :
  exists b i,
    compute_best_points history3 = Ok b /\
    py_max (Some (floats [4; 5; 6]%nat [lit_0_5; lit_0_9; lit_0_7])) = Ok (best_acc b) /\
    is_maximum (best_acc b) (floats [4; 5; 6]%nat [lit_0_5; lit_0_9; lit_0_7]) /\
    list_index (floats [4; 5; 6]%nat [lit_0_5; lit_0_9; lit_0_7]) (best_acc b) = Ok i /\
    best_acc_epoch b = 2%nat /\ fval (best_acc b) = lit_0_9.
Proof.
  destruct (best_acc_is_max_val_accuracy history3
              (floats [1; 2; 3]%nat [lit_0_5; lit_0_7; lit_0_9])
              (floats [4; 5; 6]%nat [lit_0_5; lit_0_9; lit_0_7])
              (floats [7; 8; 9]%nat [lit_1_0; lit_0_5; lit_0_2])
              (floats [10; 11; 12]%nat [lit_1_0; lit_0_2; lit_0_5]))
    as (b & i & Hb & Hmax & Hismax & _ & Hi & _ & _ & Hex).
  - split; try reflexivity; discriminate.
  - exists b, i. destruct (Hex eq_refl) as [He Hv]. repeat split; assumption || apply Hismax.
Defined.


(** C3: on every history whose four metric sequences are present and
    non-empty the renderer computes [best_loss = min(val_loss)], a minimum
    of the sequence, and [best_loss_epoch] = (the first index of that
    minimum) + 1; for the losses [1.0, 0.2, 0.5] this gives epoch 2 and
    value 0.2. *)
Theorem best_loss_is_min_val_loss h acc val_acc loss val_loss :
  complete h acc val_acc loss val_loss ->
  exists b j,
    compute_best_points h = Ok b /\
    py_min (Some val_loss) = Ok (best_loss b) /\
    is_minimum (best_loss b) val_loss /\
    (no_nan val_loss ->
       forall x, x ∈ val_loss -> SFleb (fval (best_loss b)) (fval x) = true) /\
    list_index val_loss (best_loss b) = Ok j /\
    first_index_of j (best_loss b) val_loss /\
    best_loss_epoch b = (j + 1)%nat /\
    (fval <$> val_loss = [lit_1_0; lit_0_2; lit_0_5] ->
       best_loss_epoch b = 2%nat /\ fval (best_loss b) = lit_0_2).
Proof.
  intros Hc.
  destruct (compute_best_points_ok _ _ _ _ _ Hc)
    as (ba & i & bl & j & _ & _ & _ & _ & Hmin & Hj & Hfirst & Hin & Hb).
  eexists; exists j. split; [exact Hb|]. cbn [best_loss best_loss_epoch].
  pose proof (py_min_is_minimum _ _ Hmin) as Hismin.
  split; [exact Hmin|]. split; [exact Hismin|].
  split; [intros Hnan; apply minimum_bounds; assumption|].
  split; [exact Hj|]. split; [exact Hfirst|]. split; [reflexivity|].
  intros Hex.
  destruct val_loss as [|[o0 v0] [|[o1 v1] [|[o2 v2] [|? ?]]]]; try discriminate.
  simpl in Hex. injection Hex as -> -> ->.
  assert (Hm : py_min (Some [PyFloat o0 lit_1_0; PyFloat o1 lit_0_2; PyFloat o2 lit_0_5])
               = Ok (PyFloat o1 lit_0_2)) by reflexivity.
  rewrite Hm in Hmin. injection Hmin as <-.
  assert (Hidx : list_index [PyFloat o0 lit_1_0; PyFloat o1 lit_0_2; PyFloat o2 lit_0_5]
                   (PyFloat o1 lit_0_2) = Ok 1%nat).
  { unfold list_index. cbn [index_from].
    replace (same (PyFloat o0 lit_1_0) (PyFloat o1 lit_0_2)) with false.
    - rewrite same_refl. reflexivity.
    - unfold same, py_is. rewrite bool_decide_eq_false_2; [reflexivity|].
      intros E. injection E as _ E. discriminate E. }
  rewrite Hidx in Hj. injection Hj as <-. split; reflexivity.
Qed.

Lemma best_loss_is_min_val_loss_witness :
  exists b j,
    compute_best_points history3 = Ok b /\
    py_min (Some (floats [10; 11; 12]%nat [lit_1_0; lit_0_2; lit_0_5])) = Ok (best_loss b) /\
    is_minimum (best_loss b) (floats [10; 11; 12]%nat [lit_1_0; lit_0_2; lit_0_5]) /\
    list_index (floats [10; 11; 12]%nat [lit_1_0; lit_0_2; lit_0_5]) (best_loss b) = Ok j /\
    best_loss_epoch b = 2%nat /\ fval (best_loss b) = lit_0_2.
Proof.
  destruct (best_loss_is_min_val_loss history3
              (floats [1; 2; 3]%nat [lit_0_5; lit_0_7; lit_0_9])
              (floats [4; 5; 6]%nat [lit_0_5; lit_0_9; lit_0_7])
              (floats [7; 8; 9]%nat [lit_1_0; lit_0_5; lit_0_2])
              (floats [10; 11; 12]%nat [lit_1_0; lit_0_2; lit_0_5]))
    as (b & j & Hb & Hmin & Hismin & _ & Hj & _ & _ & Hex).
  - split; try reflexivity; discriminate.
  - exists b, j. destruct (Hex eq_refl) as [He Hv]. repeat split; assumption || apply Hismin.
Defined.

(** Position [k] of [l] holds [m]: the object itself or an equal value. *)
Definition attains (l : list pyfloat) (k : nat) (m : pyfloat) : Prop :=
  exists x, l !! k = Some x /\ same x m = true.

(** A history whose validation accuracy peaks twice and whose validation
    loss bottoms out twice. *)
Definition history_ties : history :=
  <[ "accuracy"%string := floats [1; 2; 3]%nat [lit_0_5; lit_0_7; lit_0_9] ]>
  (<[ "val_accuracy"%string := floats [4; 5; 6]%nat [lit_0_5; lit_0_9; lit_0_9] ]>
  (<[ "loss"%string := floats [7; 8; 9]%nat [lit_1_0; lit_0_5; lit_0_2] ]>
  (<[ "val_loss"%string := floats [10; 11; 12]%nat [lit_0_2; lit_0_5; lit_0_2] ]> ∅))).

(** C9: when the maximum of [val_accuracy] (the minimum of [val_loss]) is
    attained at several epochs, the renderer's [best_acc_epoch]
    ([best_loss_epoch]) is the earliest of them: it attains the best value
    and no epoch that attains it comes before. *)
Theorem ties_pick_earliest_epoch h acc val_acc loss val_loss :
  complete h acc val_acc loss val_loss ->
  exists b,
    compute_best_points h = Ok b /\
    (exists i, best_acc_epoch b = (i + 1)%nat /\ attains val_acc i (best_acc b)) /\
    (forall k, attains val_acc k (best_acc b) -> (best_acc_epoch b <= k + 1)%nat) /\
    (exists j, best_loss_epoch b = (j + 1)%nat /\ attains val_loss j (best_loss b)) /\
    (forall k, attains val_loss k (best_loss b) -> (best_loss_epoch b <= k + 1)%nat).
Proof.
  intros Hc.
  destruct (compute_best_points_ok _ _ _ _ _ Hc)
    as (ba & i & bl & j & _ & _ & [Hi Hfi] & _ & _ & _ & [Hj Hfj] & _ & Hb).
  eexists. split; [exact Hb|]. cbn.
  split; [exists i; split; [reflexivity | exact Hi]|].
  split.
  { intros k (x & Hk & Hx). destruct (Nat.lt_ge_cases k i) as [Hlt|Hge]; [|lia].
    rewrite (Hfi k x Hlt Hk) in Hx. discriminate. }
  split; [exists j; split; [reflexivity | exact Hj]|].
  intros k (x & Hk & Hx). destruct (Nat.lt_ge_cases k j) as [Hlt|Hge]; [|lia].
  rewrite (Hfj k x Hlt Hk) in Hx. discriminate.
Qed.

Lemma ties_pick_earliest_epoch_witness :
  exists b,
    compute_best_points history_ties = Ok b /\
    best_acc_epoch b = 2%nat /\ best_loss_epoch b = 1%nat /\
    attains (floats [4; 5; 6]%nat [lit_0_5; lit_0_9; lit_0_9]) 2 (best_acc b) /\
    attains (floats [10; 11; 12]%nat [lit_0_2; lit_0_5; lit_0_2]) 2 (best_loss b).
Proof.
  destruct (ties_pick_earliest_epoch history_ties
              (floats [1; 2; 3]%nat [lit_0_5; lit_0_7; lit_0_9])
              (floats [4; 5; 6]%nat [lit_0_5; lit_0_9; lit_0_9])
              (floats [7; 8; 9]%nat [lit_1_0; lit_0_5; lit_0_2])
              (floats [10; 11; 12]%nat [lit_0_2; lit_0_5; lit_0_2]))
    as (b & Hb & _ & _ & _ & _).
  - split; try reflexivity; discriminate.
  - exists b. split; [exact Hb|].
    assert (Hv : compute_best_points history_ties =
                 Ok (BestPoints [1; 2; 3]%nat 2 (PyFloat 5 lit_0_9) 1 (PyFloat 10 lit_0_2)))
      by reflexivity.
    rewrite Hv in Hb. injection Hb as <-. cbn.
    repeat split; eexists; split; reflexivity.
Defined.


(** Whenever [savefig] accepts the name [f'{save_path}'], the renderer runs
    to its end and has saved the figure, in the file [savefig] wrote. *)
Lemma render_saves `{pp : Pyplot} h acc val_acc loss val_loss title save_path written :
  complete h acc val_acc loss val_loss ->
  length val_acc = length acc -> length loss = length acc ->
  length val_loss = length acc ->
  savefig_file (fstring save_path) = Ok written ->
  snd (render h title save_path) = Ok tt /\
  saved_files (fst (render h title save_path)) = [written].
Proof.
  intros Hc H1 H2 H3 Hs.
  destruct (render_complete h _ _ _ _ title save_path Hc H1 H2 H3) as (b & _ & ->).
  rewrite Hs. split; reflexivity.
Qed.

(** C4: called on the three-epoch history with [save_path] left at its
    default [None], the renderer runs to its end and its [savefig] call,
    asked to save under the text [None], persists a chart file: [None.png]
    in the working directory. *)
Theorem omitted_save_path_saves_file_None `{pp : Pyplot} :
  exists tr,
    render history3 default_title None = (tr, Ok tt) /\
    saved_files tr = ["None.png"%string] /\
    Savefig "None" 300 "None.png" ∈ tr /\
    last tr = Some Show.
Proof.
  unfold render, plot_training_history_with_annotations, plt_savefig.
  cbn [fstring]. rewrite (savefig_bare "None") by reflexivity.
  eexists. split; [reflexivity|]. split; [reflexivity|].
  split; [|reflexivity].
  apply list_elem_of_lookup. exists 23%nat. reflexivity.
Qed.

(** A history without the [loss] key. *)
Definition history_no_loss : history := delete "loss"%string history3.

Ltac step_result :=
  match goal with
  | |- context [bind_result ?r _] =>
      let E := fresh "E" in destruct r eqn:E; cbn [bind_result]
  end.

(** The best points need [accuracy], [val_accuracy] and [val_loss]. *)
Lemma compute_best_points_needs h b :
  compute_best_points h = Ok b ->
  is_Some (h !! "accuracy"%string) /\ is_Some (h !! "val_accuracy"%string) /\
  is_Some (h !! "val_loss"%string).
Proof.
  unfold compute_best_points.
  destruct (h !! "accuracy"%string); [|discriminate].
  destruct (h !! "val_accuracy"%string); [|discriminate].
  destruct (h !! "val_loss"%string); [eauto|].
  cbn [py_len py_getattr_index bind_result].
  repeat (step_result; try discriminate).
Qed.

Lemma bind_unfold {A B} (m : plt A) (k : A -> plt B) (tr : list plt_call) :
  bind m k tr =
  match m tr with
  | (tr', Ok a) => k a tr'
  | (tr', Raise e) => (tr', Raise e)
  end.
Proof. reflexivity. Qed.

Lemma plt_plot_cases xs ys label tr :
  plt_plot xs ys label tr = (tr, Raise ValueError) \/
  exists l, ys = Some l /\ plt_plot xs ys label tr = (tr ++ [Plot xs l label], Ok tt).
Proof.
  unfold plt_plot, lift, call. destruct ys as [l|]; [|left; reflexivity].
  destruct (length xs =? length l)%nat; [right; eauto | left; reflexivity].
Qed.

(** C5: when any of the four metric keys is absent from the history, the
    renderer raises and stops before [savefig]: no chart file is saved,
    whatever [save_path] is. *)
Theorem missing_metric_aborts `{pp : Pyplot} h title save_path :
  h !! "accuracy"%string = None \/ h !! "val_accuracy"%string = None \/
  h !! "loss"%string = None \/ h !! "val_loss"%string = None ->
  exists tr e,
    render h title save_path = (tr, Raise e) /\ saved_files tr = [].
Proof.
  intros Habs.
  unfold render, plot_training_history_with_annotations.
  destruct (compute_best_points h) as [b|e] eqn:Hb;
    [|exists [], e; split; reflexivity].
  destruct (compute_best_points_needs h b Hb) as ([acc Ha] & [val_acc Hva] & [val_loss Hvl]).
  assert (Hl : h !! "loss"%string = None).
  { destruct Habs as [H|[H|[H|H]]]; congruence. }
  rewrite Ha, Hva, Hl. clear Habs Ha Hva Hl Hvl Hb.
  cbn [bind lift call app]. rewrite bind_unfold.
  destruct (plt_plot_cases (epochs b) (Some acc) "Training Accuracy"
              [Figure 14 5; Subplot 1 2 1]) as [-> | (l & _ & ->)];
    [eexists _, _; split; reflexivity|].
  rewrite bind_unfold.
  destruct (plt_plot_cases (epochs b) (Some val_acc) "Validation Accuracy"
              ([Figure 14 5; Subplot 1 2 1] ++ [Plot (epochs b) l "Training Accuracy"]))
    as [-> | (l' & _ & ->)];
    eexists _, _; split; reflexivity.
Qed.

Lemma missing_metric_aborts_witness :
  exists tr e,
    render (pp := ExamplePyplot.example_pyplot)
      history_no_loss default_title (Some "history.png"%string) = (tr, Raise e) /\
    saved_files tr = [].
Proof.
  apply (missing_metric_aborts (pp := ExamplePyplot.example_pyplot)
           history_no_loss default_title (Some "history.png"%string)).
  right; right; left. reflexivity.
Defined.


End PlottingSpec.

(** ** The transform: cropping *)

Module CropSpec.
Import Py Preprocess.

Lemma slice_bound_inside (n i : Z) : 0 <= i <= n -> slice_bound n i = i.
Proof.
  intros H. unfold slice_bound.
  destruct (Z.ltb_spec i 0); lia.
Qed.

(** A slice whose bounds lie inside the sequence has every requested
    element. *)
Lemma py_slice_length {A} (l : list A) (a b : Z) :
  0 <= a <= b -> b <= Z.of_nat (length l) ->
  Z.of_nat (length (py_slice l a b)) = b - a.
Proof.
  intros Hab Hb. unfold py_slice.
  rewrite !slice_bound_inside by lia.
  rewrite length_take, length_drop. lia.
Qed.

Lemma py_slice_subseq {A} (l : list A) (a b : Z) (x : A) :
  x ∈ py_slice l a b -> x ∈ l.
Proof.
  unfold py_slice. intros H.
  apply elem_of_take in H as (i & H & _).
  apply list_elem_of_lookup_2 in H.
  rewrite <- (take_drop (Z.to_nat (slice_bound (Z.of_nat (length l)) a)) l).
  apply elem_of_app. right. exact H.
Qed.

(** Cropping a rectangular image to a window inside it gives exactly the
    window. *)
Lemma crop_proper {A} (img : list (list A)) (y0 y1 x0 x1 : Z) :
  proper img ->
  0 <= y0 -> y0 < y1 -> y1 <= shape0 img ->
  0 <= x0 -> x0 < x1 -> x1 <= shape1 img ->
  proper (crop img y0 y1 x0 x1) /\
  shape0 (crop img y0 y1 x0 x1) = y1 - y0 /\
  shape1 (crop img y0 y1 x0 x1) = x1 - x0.
Proof.
  intros (H0 & H1 & Hrect) Hy0 Hy Hy1 Hx0 Hx Hx1.
  assert (Hrows : Z.of_nat (length (py_slice img y0 y1)) = y1 - y0).
  { apply py_slice_length; unfold shape0 in *; lia. }
  assert (Hrow : forall row, row ∈ py_slice img y0 y1 ->
            Z.of_nat (length (py_slice row x0 x1)) = x1 - x0).
  { intros row Hin. apply py_slice_subseq in Hin.
    rewrite Forall_forall in Hrect. apply py_slice_length; [lia|].
    rewrite (Hrect row Hin). exact Hx1. }
  assert (Hs0 : shape0 (crop img y0 y1 x0 x1) = y1 - y0).
  { unfold shape0, crop. rewrite length_fmap. exact Hrows. }
  assert (Hs1 : shape1 (crop img y0 y1 x0 x1) = x1 - x0).
  { unfold shape1, crop.
    destruct (py_slice img y0 y1) as [|row rows] eqn:E; [simpl in Hrows; lia|].
    simpl. apply Hrow. left. }
  split; [|split; assumption].
  split; [lia|]. split; [lia|].
  rewrite Hs1. unfold crop. apply Forall_fmap, Forall_forall.
  intros row Hin. simpl. apply Hrow. exact Hin.
Qed.

(** The padded rectangle of a rectangle inside the image. *)
Lemma pad_rect_inside (W H x y w h : Z) :
  0 <= x -> 0 <= y -> x + w <= W -> y + h <= H -> 0 < w -> 0 < h ->
  exists x' y' w' h',
    pad_rect (H, W) (x, y, w, h) = (x', y', w', h') /\
    0 <= x' /\ 0 <= y' /\ 0 < w' /\ 0 < h' /\ x' + w' <= W /\ y' + h' <= H.
Proof.
  intros Hx Hy Hxw Hyh Hw Hh.
  unfold pad_rect, pad. cbn [fst snd].
  do 4 eexists. split; [reflexivity|]. lia.
Qed.

(** C1: for an image of width [W] and height [H] and a bounding rectangle
    [(x, y, w, h)] inside it ([0 <= x], [0 <= y], [x + w <= W],
    [y + h <= H], [w, h > 0]), the rectangle padded by 10 has a
    non-negative origin and strictly positive dimensions and stays inside
    the image; the crop of such an image to it is therefore not clamped:
    it has exactly [h'] rows of [w'] pixels. *)
Theorem padded_crop_inside_image (W H x y w h : Z) :
  0 <= x -> 0 <= y -> x + w <= W -> y + h <= H -> 0 < w -> 0 < h ->
  exists x' y' w' h',
    pad_rect (H, W) (x, y, w, h) = (x', y', w', h') /\
    0 <= x' /\ 0 <= y' /\ 0 < w' /\ 0 < h' /\ x' + w' <= W /\ y' + h' <= H /\
    forall img : image,
      proper img -> shape0 img = H -> shape1 img = W ->
      proper (crop img y' (y' + h') x' (x' + w')) /\
      shape0 (crop img y' (y' + h') x' (x' + w')) = h' /\
      shape1 (crop img y' (y' + h') x' (x' + w')) = w'.
Proof.
  intros Hx Hy Hxw Hyh Hw Hh.
  destruct (pad_rect_inside W H x y w h Hx Hy Hxw Hyh Hw Hh)
    as (x' & y' & w' & h' & E & B1 & B2 & B3 & B4 & B5 & B6).
  exists x', y', w', h'. repeat (split; [assumption|]).
  intros img Himg H0 H1.
  destruct (crop_proper img y' (y' + h') x' (x' + w')) as (P & S0 & S1);
    try assumption; try lia.
  split; [exact P|]. split; lia.
Qed.

Lemma padded_crop_inside_image_witness :
  exists x' y' w' h',
    pad_rect (480, 640) (3, 100, 630, 50) = (x', y', w', h') /\
    0 <= x' /\ 0 <= y' /\ 0 < w' /\ 0 < h' /\ x' + w' <= 640 /\ y' + h' <= 480.
Proof.
  destruct (padded_crop_inside_image 640 480 3 100 630 50)
    as (x' & y' & w' & h' & E & B1 & B2 & B3 & B4 & B5 & B6 & _); try lia.
  exists x', y', w', h'. repeat split; assumption.
Defined.

End CropSpec.

(** ** The file system: directories and writes *)

Module FsFacts.
Import Py Preprocess.

Lemma child_name_Some (p q : path) (n : string) :
  child_name p q = Some n <-> q = p ++ [n].
Proof.
  revert q. induction p as [|a p IH]; intros q; simpl.
  - destruct q as [|b [|b' q]]; split; intros H; try discriminate; try congruence.
  - destruct q as [|b q]; [split; intros H; discriminate|].
    destruct (decide (a = b)) as [->|Hne].
    + rewrite IH. split; intros H; congruence.
    + split; intros H; [discriminate | congruence].
Qed.

Lemma elem_of_children (f : fs) (p : path) (n : string) :
  n ∈ children f p <-> is_Some (f !! (p ++ [n])).
Proof.
  unfold children. rewrite elem_of_set_omap. split.
  - intros (q & Hq & Hn). apply child_name_Some in Hn as ->.
    apply elem_of_dom. exact Hq.
  - intros H. exists (p ++ [n]). split; [apply elem_of_dom; exact H|].
    apply child_name_Some. reflexivity.
Qed.

(** The listing of a directory depends on which entries exist only. *)
Lemma entries_ext (f f' : fs) (p : path) :
  (forall n, is_Some (f !! (p ++ [n])) <-> is_Some (f' !! (p ++ [n]))) ->
  entries f p = entries f' p.
Proof.
  intros H. unfold entries. f_equal. apply set_eq. intros n.
  rewrite !elem_of_children. apply H.
Qed.

Lemma is_dir_true (f : fs) (p : path) :
  is_dir f p = true <-> p = [] \/ f !! p = Some Dir.
Proof.
  unfold is_dir. destruct p as [|a p]; [split; auto|].
  destruct (f !! (a :: p)) as [[|c]|]; split; intros H; auto;
    try discriminate; destruct H as [H|H]; discriminate.
Qed.

(** The directories that [makedirs_from base rest] makes sure of. *)
Definition created (base rest q : path) : Prop :=
  exists k, (0 < k <= length rest)%nat /\ q = base ++ take k rest.

Lemma created_cons base c rest q :
  created base (c :: rest) q <-> q = base ++ [c] \/ created (base ++ [c]) rest q.
Proof.
  unfold created. split.
  - intros (k & Hk & ->). destruct k as [|[|k]]; [lia| left; reflexivity |].
    right. exists (S k). simpl in *. split; [lia|].
    rewrite <- app_assoc. reflexivity.
  - intros [-> | (k & Hk & ->)].
    + exists 1%nat. simpl. split; [lia | reflexivity].
    + exists (S k). simpl. split; [lia|]. rewrite <- app_assoc. reflexivity.
Qed.

Lemma created_nil base q : ~ created base [] q.
Proof. intros (k & Hk & _). simpl in Hk. lia. Qed.

Lemma created_prefix (p q : path) :
  created [] p q <-> q <> [] /\ q `prefix_of` p.
Proof.
  unfold created. simpl. split.
  - intros (k & Hk & ->). split; [|apply prefix_take].
    destruct p; simpl in *; [lia|]. destruct k; [lia | discriminate].
  - intros (Hne & r & ->). exists (length q). split.
    + rewrite length_app. destruct q; [congruence | simpl; lia].
    + rewrite take_app_length. reflexivity.
Qed.

(** [makedirs] keeps every node that exists. *)
Lemma makedirs_keeps rest : forall base f f' q v,
  makedirs_from base rest f = Ok f' -> f !! q = Some v -> f' !! q = Some v.
Proof.
  induction rest as [|c rest IH]; intros base f f' q v H Hq; simpl in H.
  - congruence.
  - destruct (f !! (base ++ [c])) as [[|content]|] eqn:E; [eauto | discriminate |].
    apply (IH _ _ _ q v H). rewrite lookup_insert_ne; [exact Hq | congruence].
Qed.

(** After [makedirs] every directory along the path exists. *)
Lemma makedirs_makes rest : forall base f f' q,
  makedirs_from base rest f = Ok f' -> created base rest q -> f' !! q = Some Dir.
Proof.
  induction rest as [|c rest IH]; intros base f f' q H Hq.
  - destruct (created_nil _ _ Hq).
  - simpl in H. apply created_cons in Hq as [-> | Hq].
    + destruct (f !! (base ++ [c])) as [[|content]|] eqn:E; [| discriminate |].
      * eapply makedirs_keeps; eauto.
      * eapply makedirs_keeps; [exact H|]. apply lookup_insert_eq.
    + destruct (f !! (base ++ [c])) as [[|content]|] eqn:E; [| discriminate |]; eauto.
Qed.

(** Every node after [makedirs] was there before or is a directory it
    made. *)
Lemma makedirs_origin rest : forall base f f' q v,
  makedirs_from base rest f = Ok f' -> f' !! q = Some v ->
  f !! q = Some v \/ (v = Dir /\ f !! q = None /\ created base rest q).
Proof.
  induction rest as [|c rest IH]; intros base f f' q v H Hq; simpl in H.
  - left. congruence.
  - destruct (f !! (base ++ [c])) as [[|content]|] eqn:E; [| discriminate |].
    + destruct (IH _ _ _ _ _ H Hq) as [?|(-> & ? & ?)]; [left; assumption|].
      right. repeat split; try assumption. apply created_cons. right. assumption.
    + destruct (IH _ _ _ _ _ H Hq) as [Hi|(-> & Hi & Hc)].
      * destruct (decide (base ++ [c] = q)) as [<-|Hne].
        -- rewrite lookup_insert_eq in Hi. inversion Hi; subst.
           right. repeat split; [exact E|]. apply created_cons. left. reflexivity.
        -- rewrite lookup_insert_ne in Hi by exact Hne. left. exact Hi.
      * right. destruct (decide (base ++ [c] = q)) as [<-|Hne].
        -- rewrite lookup_insert_eq in Hi. discriminate.
        -- rewrite lookup_insert_ne in Hi by exact Hne.
           repeat split; [exact Hi|]. apply created_cons. right. exact Hc.
Qed.

(** When every directory along the path exists, [makedirs] changes
    nothing. *)
Lemma makedirs_noop rest : forall base f,
  (forall q, created base rest q -> f !! q = Some Dir) ->
  makedirs_from base rest f = Ok f.
Proof.
  induction rest as [|c rest IH]; intros base f H; simpl; [reflexivity|].
  rewrite (H (base ++ [c])) by (apply created_cons; left; reflexivity).
  apply IH. intros q Hq. apply H. apply created_cons. right. exact Hq.
Qed.

(** [makedirs] succeeds when no file is in the way. *)
Lemma makedirs_succeeds rest : forall base f,
  (forall q content, created base rest q -> f !! q <> Some (File content)) ->
  exists f', makedirs_from base rest f = Ok f'.
Proof.
  induction rest as [|c rest IH]; intros base f H; simpl; [eauto|].
  destruct (f !! (base ++ [c])) as [[|content]|] eqn:E.
  - apply IH. intros q content Hq. apply H. apply created_cons. right. exact Hq.
  - exfalso. apply (H (base ++ [c]) content); [|exact E].
    apply created_cons. left. reflexivity.
  - apply IH. intros q content Hq.
    destruct (decide (base ++ [c] = q)) as [<-|Hne].
    + rewrite lookup_insert_eq. discriminate.
    + rewrite lookup_insert_ne by exact Hne. apply H. apply created_cons. right. exact Hq.
Qed.

(** A write changes the node at its path only, and never a directory. *)
Lemma write_file_other p content f q :
  q <> p -> write_file p content f !! q = f !! q.
Proof.
  intros Hne. unfold write_file.
  destruct (is_dir f (dirname p) && negb (is_dir f p)); [|reflexivity].
  apply lookup_insert_ne. congruence.
Qed.

Lemma write_file_keeps_dir p content f q :
  f !! q = Some Dir -> write_file p content f !! q = Some Dir.
Proof.
  intros Hq. destruct (decide (q = p)) as [->|Hne].
  - unfold write_file. assert (Hd : is_dir f p = true) by (apply is_dir_true; auto).
    rewrite Hd, andb_false_r. exact Hq.
  - rewrite write_file_other by exact Hne. exact Hq.
Qed.

Lemma write_file_is_dir p content f q :
  is_dir (write_file p content f) q = is_dir f q.
Proof.
  destruct (decide (q = p)) as [->|Hne].
  - unfold write_file. destruct (is_dir f p) eqn:Hd.
    + rewrite andb_false_r. exact Hd.
    + destruct (is_dir f (dirname p)); simpl; [|exact Hd].
      unfold is_dir in *. destruct p; [discriminate|].
      rewrite lookup_insert_eq. reflexivity.
  - unfold is_dir. destruct q; [reflexivity|].
    rewrite write_file_other by exact Hne. reflexivity.
Qed.

(** A write that goes through leaves the file with the content written. *)
Lemma write_file_done p content f :
  is_dir f (dirname p) = true -> is_dir f p = false ->
  write_file p content f = <[p := File content]> f.
Proof. intros H1 H2. unfold write_file. rewrite H1, H2. reflexivity. Qed.

Lemma dirname_join (p : path) (n : string) : dirname (os_path_join p n) = p.
Proof. apply removelast_last. Qed.

Lemma basename_join (p : path) (n : string) : basename (os_path_join p n) = n.
Proof. unfold basename, os_path_join. rewrite last_snoc. reflexivity. Qed.

End FsFacts.

(** ** The transform: one image *)

Module ImageSpec.
Import Py Preprocess CropSpec FsFacts.

Lemma scan_key_elem {A} (key : A -> spec_float) (l : list A) : forall best kbest,
  scan_key key best kbest l ∈ best :: l.
Proof.
  induction l as [|item rest IH]; intros best kbest; simpl; [left|].
  destruct (SFltb kbest (key item)).
  - right. apply IH.
  - specialize (IH best kbest). apply elem_of_cons in IH as [-> | IH];
      [left | right; right; exact IH].
Qed.

Lemma max_by_key_elem {A} (key : A -> spec_float) (first : A) (rest : list A) :
  max_by_key key first rest ∈ first :: rest.
Proof. apply scan_key_elem. Qed.

Lemma foldr_min_bounds (lo : Z) (x0 : Z) (l : list point) (proj : point -> Z) :
  lo <= x0 -> (forall q, q ∈ l -> lo <= proj q) ->
  lo <= foldr (fun q acc => Z.min (proj q) acc) x0 l <= x0.
Proof.
  intros H0 Hl. induction l as [|q l IH]; simpl; [lia|].
  assert (lo <= proj q) by (apply Hl; left).
  assert (lo <= foldr (fun q acc => Z.min (proj q) acc) x0 l <= x0).
  { apply IH. intros q' Hq'. apply Hl. right. exact Hq'. }
  lia.
Qed.

Lemma foldr_max_bounds (hi : Z) (x0 : Z) (l : list point) (proj : point -> Z) :
  x0 < hi -> (forall q, q ∈ l -> proj q < hi) ->
  x0 <= foldr (fun q acc => Z.max (proj q) acc) x0 l < hi.
Proof.
  intros H0 Hl. induction l as [|q l IH]; simpl; [lia|].
  assert (proj q < hi) by (apply Hl; left).
  assert (x0 <= foldr (fun q acc => Z.max (proj q) acc) x0 l < hi).
  { apply IH. intros q' Hq'. apply Hl. right. exact Hq'. }
  lia.
Qed.

(** The bounding rectangle of pixel positions of a [W] by [H] array lies
    inside the array and is not empty. *)
Lemma boundingRect_inside (c : contour) (W H : Z) :
  c <> [] ->
  (forall x y, (x, y) ∈ c -> 0 <= x < W /\ 0 <= y < H) ->
  exists x y w h, boundingRect c = (x, y, w, h) /\
    0 <= x /\ 0 <= y /\ x + w <= W /\ y + h <= H /\ 0 < w /\ 0 < h.
Proof.
  intros Hne Hin. destruct c as [|[x0 y0] rest]; [congruence|].
  unfold boundingRect. do 4 eexists. split; [reflexivity|].
  destruct (Hin x0 y0) as [Hx0 Hy0]; [left|].
  assert (Hr : forall q, q ∈ rest -> 0 <= q.1 < W /\ 0 <= q.2 < H).
  { intros [x y] Hq. apply Hin. right. exact Hq. }
  pose proof (foldr_min_bounds 0 x0 rest fst) as Hxmin.
  pose proof (foldr_max_bounds W x0 rest fst) as Hxmax.
  pose proof (foldr_min_bounds 0 y0 rest snd) as Hymin.
  pose proof (foldr_max_bounds H y0 rest snd) as Hymax.
  specialize (Hxmin ltac:(lia) (fun q Hq => proj1 (proj1 (Hr q Hq)))).
  specialize (Hxmax ltac:(lia) (fun q Hq => proj2 (proj1 (Hr q Hq)))).
  specialize (Hymin ltac:(lia) (fun q Hq => proj1 (proj2 (Hr q Hq)))).
  specialize (Hymax ltac:(lia) (fun q Hq => proj2 (proj2 (Hr q Hq)))).
  cbn beta in *. lia.
Qed.

Section WithOpenCV.
Context `{cv : OpenCV}.

Lemma mask_shape (img : image) :
  shape0 (inRange (cvtColor_BGR2HSV img) lower_pink upper_pink) = shape0 img /\
  shape1 (inRange (cvtColor_BGR2HSV img) lower_pink upper_pink) = shape1 img.
Proof.
  unfold shape0, shape1, inRange, cvtColor_BGR2HSV.
  rewrite !length_fmap. split; [reflexivity|].
  destruct img as [|row img]; simpl; [reflexivity|].
  rewrite !length_fmap. reflexivity.
Qed.

(** No pixel of the converted image lies in the pink range. *)
Definition no_pink (img : image) : Prop :=
  forall row p, row ∈ cvtColor_BGR2HSV img -> p ∈ row ->
    in_range lower_pink upper_pink p = false.

Lemma no_pink_blank (img : image) :
  no_pink img ->
  Forall (Forall (fun v => v = 0)) (inRange (cvtColor_BGR2HSV img) lower_pink upper_pink).
Proof.
  intros H. unfold inRange. apply Forall_fmap, Forall_forall. intros row Hrow.
  cbv beta delta [compose]. apply Forall_fmap, Forall_forall. intros p Hp.
  cbv beta delta [compose]. rewrite (H row p Hrow Hp). reflexivity.
Qed.

(** The marker's padded window and the crop it selects. *)
Lemma marker_crop_proper (img : image) (first : contour) (rest : list contour) :
  proper img ->
  findContours (inRange (cvtColor_BGR2HSV img) lower_pink upper_pink) = first :: rest ->
  exists x y w h,
    pad_rect (shape0 img, shape1 img)
      (boundingRect (max_by_key contourArea first rest)) = (x, y, w, h) /\
    proper (crop img y (y + h) x (x + w)).
Proof.
  intros Himg Hc.
  pose proof (max_by_key_elem contourArea first rest) as Hin.
  rewrite <- Hc in Hin. apply findContours_inside in Hin as [Hne Hpts].
  destruct (mask_shape img) as [-> ->] in Hpts.
  destruct (boundingRect_inside _ (shape1 img) (shape0 img) Hne Hpts)
    as (x & y & w & h & -> & Hx & Hy & Hxw & Hyh & Hw & Hh).
  destruct (pad_rect_inside (shape1 img) (shape0 img) x y w h Hx Hy Hxw Hyh Hw Hh)
    as (x' & y' & w' & h' & E & B1 & B2 & B3 & B4 & B5 & B6).
  exists x', y', w', h'. split; [exact E|].
  apply crop_proper; try assumption; lia.
Qed.

(** What the run prints for an image without a marker. *)
Definition no_marker_warning (img_path : path) : string :=
  "[WARNING] No pink box found in " ++ path_str img_path.

(** C6: a readable image none of whose pixels has an HSV value in
    [140,50,50]-[170,255,255] has an empty mask and no contours; the
    transform writes nothing for it (the file system is unchanged), prints
    the warning, and goes on with the next file of the class. *)
Theorem markerless_image_is_skipped
    (data_dir output_dir : path) (target_size : Z * Z)
    (class_name img_name : string) (rest : list string)
    (w : world) (content : list Byte.byte) (img : image) :
  files w !! os_path_join (os_path_join data_dir class_name) img_name
    = Some (File content) ->
  imdecode content = Some img ->
  no_pink img ->
  findContours (inRange (cvtColor_BGR2HSV img) lower_pink upper_pink) = [] /\
  process_image (os_path_join data_dir class_name)
      (os_path_join output_dir class_name) target_size img_name w
    = ({| files := files w;
          stdout := stdout w ++
            [no_marker_warning
               (os_path_join (os_path_join data_dir class_name) img_name)] |},
       Ok tt) /\
  for_each (img_name :: rest)
      (process_image (os_path_join data_dir class_name)
         (os_path_join output_dir class_name) target_size) w
    = for_each rest
        (process_image (os_path_join data_dir class_name)
           (os_path_join output_dir class_name) target_size)
        {| files := files w;
           stdout := stdout w ++
             [no_marker_warning
                (os_path_join (os_path_join data_dir class_name) img_name)] |}.
Proof.
  intros Hfile Hdec Hno.
  assert (Hc : findContours (inRange (cvtColor_BGR2HSV img) lower_pink upper_pink) = []).
  { apply findContours_blank, no_pink_blank, Hno. }
  assert (Hp : process_image (os_path_join data_dir class_name)
                 (os_path_join output_dir class_name) target_size img_name w
               = ({| files := files w;
                     stdout := stdout w ++
                       [no_marker_warning
                          (os_path_join (os_path_join data_dir class_name) img_name)] |},
                  Ok tt)).
  { unfold process_image, bind, cv2_imread. rewrite Hfile, Hdec, Hc. reflexivity. }
  split; [exact Hc|]. split; [exact Hp|].
  cbn [for_each]. unfold bind at 1. rewrite Hp. reflexivity.
Qed.

(** A readable image in which a contour is found is cropped and resized
    to the target resolution, and the result handed to [cv2.imwrite]. *)
Lemma marker_image_is_resized
    (data_dir output_dir : path) (target_size : Z * Z)
    (class_name img_name : string)
    (w : world) (content : list Byte.byte) (img : image)
    (first : contour) (others : list contour) :
  files w !! os_path_join (os_path_join data_dir class_name) img_name
    = Some (File content) ->
  imdecode content = Some img ->
  findContours (inRange (cvtColor_BGR2HSV img) lower_pink upper_pink)
    = first :: others ->
  0 < target_size.1 -> 0 < target_size.2 ->
  exists resized : image,
    process_image (os_path_join data_dir class_name)
        (os_path_join output_dir class_name) target_size img_name w
      = cv2_imwrite (os_path_join (os_path_join output_dir class_name) img_name)
          resized w /\
    shape1 resized = target_size.1 /\ shape0 resized = target_size.2 /\
    proper resized.
Proof.
  intros Hfile Hdec Hc Hw Hh.
  pose proof (imdecode_proper _ _ Hdec) as Himg.
  destruct (marker_crop_proper img first others Himg Hc)
    as (x & y & cw & ch & Hpad & Hcrop).
  destruct target_size as [tw th]. cbn [fst snd] in *.
  destruct (resize_shape _ tw th Hcrop Hw Hh) as (resized & Hres & Hprop & H0 & H1).
  exists resized. split; [|auto].
  unfold process_image, bind, cv2_imread. rewrite Hfile, Hdec, Hc, Hpad.
  unfold lift. rewrite Hres. reflexivity.
Qed.

(** C7, with the condition it needs: for a readable image in which a
    contour is found and whose file name has an extension OpenCV can
    encode, the transform writes exactly one file, at
    [<output_dir>/<class_name>/<img_name>] (the class directory exists and
    no directory is in the file's place), and the image written has
    exactly the target resolution. *)
Theorem encodable_marker_image_is_written
    (data_dir output_dir : path) (target_size : Z * Z)
    (class_name img_name : string)
    (w : world) (content : list Byte.byte) (img : image)
    (first : contour) (others : list contour) :
  files w !! os_path_join (os_path_join data_dir class_name) img_name
    = Some (File content) ->
  imdecode content = Some img ->
  findContours (inRange (cvtColor_BGR2HSV img) lower_pink upper_pink)
    = first :: others ->
  has_encoder img_name = true ->
  0 < target_size.1 -> 0 < target_size.2 ->
  is_dir (files w) (os_path_join output_dir class_name) = true ->
  is_dir (files w) (os_path_join (os_path_join output_dir class_name) img_name)
    = false ->
  exists resized : image,
    process_image (os_path_join data_dir class_name)
        (os_path_join output_dir class_name) target_size img_name w
      = ({| files :=
              <[ os_path_join (os_path_join output_dir class_name) img_name
                   := File (imencode img_name resized) ]> (files w);
            stdout := stdout w |},
         Ok tt) /\
    shape1 resized = target_size.1 /\ shape0 resized = target_size.2 /\
    proper resized.
Proof.
  intros Hfile Hdec Hc Henc Hw Hh Hdir Hnodir.
  destruct (marker_image_is_resized data_dir output_dir target_size class_name
              img_name w content img first others Hfile Hdec Hc Hw Hh)
    as (resized & Hp & Hshape).
  exists resized. split; [|exact Hshape].
  rewrite Hp. unfold cv2_imwrite, set_files.
  rewrite basename_join, Henc, write_file_done; [reflexivity | | exact Hnodir].
  rewrite dirname_join. exact Hdir.
Qed.

End WithOpenCV.
(** [no_pink], decided pixel by pixel. *)
Definition no_pink_check `{cv : OpenCV} (img : image) : bool :=
  forallb (forallb (fun p => negb (in_range lower_pink upper_pink p)))
    (cvtColor_BGR2HSV img).

Lemma no_pink_by_check `{cv : OpenCV} (img : image) :
  no_pink_check img = true -> no_pink img.
Proof.
  unfold no_pink_check, no_pink. intros H row p Hrow Hp.
  rewrite forallb_forall in H. apply list_elem_of_In, H in Hrow.
  rewrite forallb_forall in Hrow. apply list_elem_of_In, Hrow in Hp.
  apply negb_true_iff in Hp. exact Hp.
Qed.

Lemma markerless_image_is_skipped_witness :
  process_image (cv := ExampleCV.example_cv) ["data"; "B"] ["out"; "B"]
      default_target_size "b.png" Example.fresh
    = ({| files := Example.dataset;
          stdout := ["[WARNING] No pink box found in data/B/b.png"] |}, Ok tt).
Proof.
  destruct (markerless_image_is_skipped (cv := ExampleCV.example_cv)
              ["data"] ["out"] default_target_size "B" "b.png" ["broken.png"]
              Example.fresh Example.plain_bytes Example.plain_image)
    as (_ & H & _).
  - reflexivity.
  - reflexivity.
  - apply no_pink_by_check. reflexivity.
  - exact H.
Defined.

Lemma encodable_marker_image_is_written_witness :
  exists resized : image,
    process_image (cv := ExampleCV.example_cv) ["data"; "A"] ["out"; "A"]
        default_target_size "a.png" Example.ready
      = ({| files :=
              <[ ["out"; "A"; "a.png"]
                   := File (ExampleCV.example_imencode "a.png" resized) ]>
                (files Example.ready);
            stdout := [] |}, Ok tt) /\
    shape1 resized = 160 /\ shape0 resized = 160.
Proof.
  destruct (encodable_marker_image_is_written (cv := ExampleCV.example_cv)
              ["data"] ["out"] default_target_size "A" "a.png"
              Example.ready Example.marker_bytes Example.marker_image
              [(1, 1); (2, 1)] [])
    as (resized & H & S1 & S0 & _).
  - reflexivity.
  - reflexivity.
  - reflexivity.
  - reflexivity.
  - reflexivity.
  - reflexivity.
  - reflexivity.
  - reflexivity.
  - exists resized. split; [exact H|]. split; assumption.
Defined.

(** Without an encoder for the extension, C7 fails: the image
    [data/A/a.dat] is readable and a contour is found in it, the class
    directory [out/A] exists, yet the transform writes no file for it:
    [cv2.imwrite] raises and nothing is changed. *)
Lemma marker_image_with_unencodable_name_is_not_written :
  files Example.ready_dat !! ["data"; "A"; "a.dat"]
    = Some (File Example.marker_bytes) /\
  imdecode (OpenCV := ExampleCV.example_cv) Example.marker_bytes
    = Some Example.marker_image /\
  findContours (OpenCV := ExampleCV.example_cv)
    (inRange (cvtColor_BGR2HSV (cv := ExampleCV.example_cv) Example.marker_image)
       lower_pink upper_pink) = [[(1, 1); (2, 1)]] /\
  is_dir (files Example.ready_dat) ["out"; "A"] = true /\
  process_image (cv := ExampleCV.example_cv) ["data"; "A"] ["out"; "A"]
      default_target_size "a.dat" Example.ready_dat
    = (Example.ready_dat, Raise CvError) /\
  files Example.ready_dat !! ["out"; "A"; "a.dat"] = None.
Proof. repeat split; vm_compute; reflexivity. Qed.

End ImageSpec.

(** ** The transform: one class *)

Module ClassSpec.
Import Py Preprocess CropSpec FsFacts ImageSpec.

Section WithOpenCV.
Context `{cv : OpenCV}.

(** The file at [p] cannot be used: it does not decode, or no contour is
    found in it. *)
Definition unusable (f : fs) (p : path) : Prop :=
  match f !! p with
  | Some (File content) =>
      match imdecode content with
      | Some img =>
          findContours (inRange (cvtColor_BGR2HSV img) lower_pink upper_pink) = []
      | None => True
      end
  | _ => True
  end.

(** One image either leaves the files alone or writes its output file. *)
Lemma process_image_files class_path output_class_path target_size img_name w :
  files (process_image class_path output_class_path target_size img_name w).1
    = files w \/
  exists content,
    files (process_image class_path output_class_path target_size img_name w).1
      = write_file (os_path_join output_class_path img_name) content (files w).
Proof.
  unfold process_image, bind, cv2_imread, lift.
  destruct (files w !! os_path_join class_path img_name) as [[|content]|];
    [left; reflexivity | | left; reflexivity].
  destruct (imdecode content) as [img|]; [|left; reflexivity].
  destruct (findContours _) as [|first rest]; [left; reflexivity|].
  destruct (pad_rect _ _) as [[[x y] cw] ch].
  destruct (resize _ _) as [resized|e]; [|left; reflexivity].
  unfold cv2_imwrite. destruct (has_encoder _); [|left; reflexivity].
  right. eexists. reflexivity.
Qed.

Lemma process_image_keeps_dir class_path output_class_path target_size img_name w q :
  is_dir (files (process_image class_path output_class_path target_size img_name w).1) q
    = is_dir (files w) q.
Proof.
  destruct (process_image_files class_path output_class_path target_size img_name w)
    as [-> | [content ->]]; [reflexivity | apply write_file_is_dir].
Qed.

Lemma for_each_keeps_dir class_path output_class_path target_size q names : forall w,
  is_dir (files (for_each names
                   (process_image class_path output_class_path target_size) w).1) q
    = is_dir (files w) q.
Proof.
  induction names as [|n names IH]; intros w; [reflexivity|].
  cbn [for_each]. unfold bind.
  pose proof (process_image_keeps_dir class_path output_class_path target_size n w q) as H.
  destruct (process_image class_path output_class_path target_size n w) as [w' [[]|e]];
    cbn [fst] in *; [rewrite IH|]; exact H.
Qed.

(** An image that cannot be used changes no file and does not raise. *)
Lemma process_image_unusable class_path output_class_path target_size img_name w :
  unusable (files w) (os_path_join class_path img_name) ->
  exists line,
    process_image class_path output_class_path target_size img_name w
      = ({| files := files w; stdout := stdout w ++ [line] |}, Ok tt).
Proof.
  unfold unusable, process_image, bind, cv2_imread.
  destruct (files w !! os_path_join class_path img_name) as [[|content]|];
    [eexists; reflexivity | | eexists; reflexivity].
  destruct (imdecode content) as [img|]; [|eexists; reflexivity].
  intros ->. eexists; reflexivity.
Qed.

Lemma for_each_unusable class_path output_class_path target_size names : forall w,
  (forall n, n ∈ names -> unusable (files w) (os_path_join class_path n)) ->
  exists lines,
    for_each names (process_image class_path output_class_path target_size) w
      = ({| files := files w; stdout := stdout w ++ lines |}, Ok tt).
Proof.
  induction names as [|n names IH]; intros w H.
  - exists []. rewrite app_nil_r. destruct w; reflexivity.
  - destruct (process_image_unusable class_path output_class_path target_size n w)
      as [line Hn]; [apply H; left|].
    cbn [for_each]. unfold bind. rewrite Hn.
    destruct (IH {| files := files w; stdout := stdout w ++ [line] |}) as [lines ->].
    + intros m Hm. apply H. right. exact Hm.
    + exists (line :: lines). cbn [files stdout]. rewrite <- app_assoc. reflexivity.
Qed.

(** [makedirs] of a directory adds no entry to that directory. *)
Lemma makedirs_children p f f' :
  makedirs_from [] p f = Ok f' -> children f' p = children f p.
Proof.
  intros H. apply set_eq. intros n. rewrite !elem_of_children. split.
  - intros [v Hv]. destruct (makedirs_origin _ _ _ _ _ _ H Hv) as [Hf|(_ & _ & Hc)];
      [eauto|].
    apply created_prefix in Hc as [_ Hpre]. apply prefix_snoc_not in Hpre. destruct Hpre.
  - intros [v Hv]. exists v. eapply makedirs_keeps; eauto.
Qed.

(** C10: for a class subdirectory of [data_dir], [preprocess_dataset]
    creates the output class subdirectory and only then processes the
    images of the class, from a state in which the directory exists; the
    directory is still there when the class is done. When no image of the
    class can be used (each is unreadable or has no marker) the class ends
    normally with the directory creation as its only effect: no file is
    written, and a directory that had no entries is left empty. *)
Theorem class_directory_is_created
    (data_dir output_dir : path) (target_size : Z * Z) (class_name : string)
    (w : world) (f1 : fs) :
  is_dir (files w) (os_path_join data_dir class_name) = true ->
  makedirs_from [] (os_path_join output_dir class_name) (files w) = Ok f1 ->
  is_dir f1 (os_path_join output_dir class_name) = true /\
  process_class data_dir output_dir target_size class_name w
    = for_each (entries f1 (os_path_join data_dir class_name))
        (process_image (os_path_join data_dir class_name)
           (os_path_join output_dir class_name) target_size)
        (set_files f1 w) /\
  is_dir (files (process_class data_dir output_dir target_size class_name w).1)
    (os_path_join output_dir class_name) = true /\
  (forall p content, f1 !! p = Some (File content) ->
     files w !! p = Some (File content)) /\
  ((forall n, n ∈ entries f1 (os_path_join data_dir class_name) ->
      unusable f1 (os_path_join (os_path_join data_dir class_name) n)) ->
   exists lines,
     process_class data_dir output_dir target_size class_name w
       = ({| files := f1; stdout := stdout w ++ lines |}, Ok tt) /\
     (children (files w) (os_path_join output_dir class_name) = ∅ ->
      entries f1 (os_path_join output_dir class_name) = [])).
Proof.
  intros Hdir Hmk.
  assert (Hout : is_dir f1 (os_path_join output_dir class_name) = true).
  { apply is_dir_true. right. eapply makedirs_makes; [exact Hmk|].
    apply created_prefix. split; [|reflexivity].
    unfold os_path_join. destruct output_dir; discriminate. }
  assert (Hdir1 : is_dir f1 (os_path_join data_dir class_name) = true).
  { apply is_dir_true in Hdir as [Hnil|Hd].
    - unfold os_path_join in Hnil. destruct data_dir; discriminate.
    - apply is_dir_true. right. eapply makedirs_keeps; eauto. }
  assert (Hrun : process_class data_dir output_dir target_size class_name w
            = for_each (entries f1 (os_path_join data_dir class_name))
                (process_image (os_path_join data_dir class_name)
                   (os_path_join output_dir class_name) target_size)
                (set_files f1 w)).
  { unfold process_class, bind at 1, os_path_isdir. rewrite Hdir. cbn [negb].
    unfold bind at 1, path_mkdir, os_makedirs. rewrite Hmk.
    unfold bind at 1, os_listdir. cbn [set_files files]. rewrite Hdir1. reflexivity. }
  split; [exact Hout|]. split; [exact Hrun|]. split.
  { rewrite Hrun, for_each_keeps_dir. exact Hout. }
  split.
  { intros p content Hp.
    destruct (makedirs_origin _ _ _ _ _ _ Hmk Hp) as [H|(H & _)]; [exact H | discriminate]. }
  intros Hun.
  destruct (for_each_unusable (os_path_join data_dir class_name)
              (os_path_join output_dir class_name) target_size
              (entries f1 (os_path_join data_dir class_name)) (set_files f1 w) Hun)
    as [lines Hlines].
  exists lines. split; [rewrite Hrun; exact Hlines|].
  intros Hempty. unfold entries.
  rewrite (makedirs_children _ _ _ Hmk), Hempty. apply elements_empty.
Qed.

End WithOpenCV.
Lemma class_directory_is_created_witness :
  exists lines,
    process_class (cv := ExampleCV.example_cv) ["data"] ["out"] default_target_size "B"
        Example.fresh
      = ({| files := <[ ["out"; "B"] := Dir ]> (<[ ["out"] := Dir ]> Example.dataset);
            stdout := lines |}, Ok tt) /\
    entries (<[ ["out"; "B"] := Dir ]> (<[ ["out"] := Dir ]> Example.dataset))
      ["out"; "B"] = [].
Proof.
  destruct (class_directory_is_created (cv := ExampleCV.example_cv)
              ["data"] ["out"] default_target_size "B" Example.fresh
              (<[ ["out"; "B"] := Dir ]> (<[ ["out"] := Dir ]> Example.dataset)))
    as (_ & _ & _ & _ & H).
  - reflexivity.
  - reflexivity.
  - destruct H as (lines & Hrun & Hempty).
    + intros n Hn.
      assert (E : entries (<[ ["out"; "B"] := Dir ]> (<[ ["out"] := Dir ]> Example.dataset))
                    (os_path_join ["data"] "B") = ["b.png"; "broken.png"]) by reflexivity.
      rewrite E in Hn.
      apply elem_of_cons in Hn as [-> | Hn]; [reflexivity|].
      apply list_elem_of_singleton in Hn as ->. exact I.
    + exists lines. split; [exact Hrun | apply Hempty; reflexivity].
Defined.

End ClassSpec.

(** ** The transform: the whole batch, and running it again *)

Module BatchSpec.
Import Py Preprocess CropSpec FsFacts ImageSpec ClassSpec.

(** The effects of a run, one by one. *)
Inductive op :=
  | Mkdirs (p : path)
  | Write (p : path) (content : list Byte.byte)
  | Say (line : string)
  | Abort (e : exn).

Definition exec_op (o : op) : io unit :=
  match o with
  | Mkdirs p => os_makedirs p
  | Write p content => fun w => (set_files (write_file p content (files w)) w, Ok tt)
  | Say line => print line
  | Abort e => lift (Raise e)
  end.

Definition exec (ops : list op) : io unit := for_each ops exec_op.

(** The effect [o] is in place in [f]: carrying it out changes no file. *)
Definition done (f : fs) (o : op) : Prop :=
  match o with
  | Mkdirs p => forall q, created [] p q -> f !! q = Some Dir
  | Write p content =>
      is_dir f (dirname p) = true /\
      (is_dir f p = true \/ f !! p = Some (File content))
  | Say _ => True
  | Abort _ => False
  end.

(** Two writes to the same path write the same content. *)
Definition agree_on_writes (o o' : op) : Prop :=
  match o, o' with
  | Write p c, Write p' c' => p = p' -> c = c'
  | _, _ => True
  end.

Definition functional (ops : list op) : Prop :=
  forall o o', o ∈ ops -> o' ∈ ops -> agree_on_writes o o'.

(** Every write goes to a directory made earlier in the sequence (or
    listed in [made]). *)
Fixpoint ordered (made : list path) (ops : list op) : Prop :=
  match ops with
  | [] => True
  | Mkdirs p :: rest => ordered (p :: made) rest
  | Write p _ :: rest => dirname p ∈ made /\ ordered made rest
  | _ :: rest => ordered made rest
  end.

Lemma bind_ret_tt {S} (m : eff S unit) (s : S) : (m ;; ret tt) s = m s.
Proof. unfold bind, ret. destruct (m s) as [s' [[]|e]]; reflexivity. Qed.

Lemma for_each_app {S A} (body : A -> eff S unit) (l1 l2 : list A) (s : S) :
  for_each (l1 ++ l2) body s = (for_each l1 body ;; for_each l2 body) s.
Proof.
  revert s. induction l1 as [|x l1 IH]; intros s; [reflexivity|].
  cbn [app for_each]. unfold bind.
  destruct (body x s) as [s' [[]|e]]; [|reflexivity].
  rewrite IH. reflexivity.
Qed.

Lemma exec_cons o ops w :
  exec (o :: ops) w =
  match exec_op o w with
  | (w', Ok _) => exec ops w'
  | (w', Raise e) => (w', Raise e)
  end.
Proof. reflexivity. Qed.

Lemma exec_single o w : exec [o] w = exec_op o w.
Proof. unfold exec. cbn [for_each]. apply bind_ret_tt. Qed.

Lemma exec_app ops1 ops2 w :
  exec (ops1 ++ ops2) w =
  match exec ops1 w with
  | (w', Ok _) => exec ops2 w'
  | (w', Raise e) => (w', Raise e)
  end.
Proof. unfold exec. rewrite for_each_app. reflexivity. Qed.

(** What one effect does to the files. *)
Lemma exec_op_files o w w' :
  exec_op o w = (w', Ok tt) ->
  match o with
  | Mkdirs p => makedirs_from [] p (files w) = Ok (files w')
  | Write p content => files w' = write_file p content (files w)
  | Say _ => files w' = files w
  | Abort _ => False
  end.
Proof.
  destruct o as [p|p content|line|e]; simpl.
  - unfold os_makedirs. destruct (makedirs_from [] p (files w)) as [f|e];
      intros [= <-]. reflexivity.
  - intros [= <-]. reflexivity.
  - unfold print. intros [= <-]. reflexivity.
  - unfold lift. discriminate.
Qed.

Lemma exec_op_keeps_dir o w w' r q :
  exec_op o w = (w', r) -> is_dir (files w) q = true -> is_dir (files w') q = true.
Proof.
  destruct o as [p|p content|line|e]; simpl.
  - unfold os_makedirs.
    destruct (makedirs_from [] p (files w)) as [f|e] eqn:E; intros [= <- <-]; [|auto].
    intros H. apply is_dir_true in H as [->|H]; [reflexivity|].
    apply is_dir_true. right. eapply makedirs_keeps; eauto.
  - intros [= <- <-]. cbn [set_files files]. rewrite write_file_is_dir. auto.
  - unfold print. intros [= <- <-]. auto.
  - unfold lift. intros [= <- <-]. auto.
Qed.

(** An effect that is in place changes no file. *)
Lemma exec_op_noop o w :
  done (files w) o ->
  exists out, exec_op o w = ({| files := files w; stdout := out |}, Ok tt).
Proof.
  destruct o as [p|p content|line|e]; simpl; intros H.
  - unfold os_makedirs. rewrite (makedirs_noop _ _ _ H). eexists; reflexivity.
  - exists (stdout w). unfold set_files. do 2 f_equal.
    destruct H as [Hd [Hp|Hp]]; unfold write_file.
    + rewrite Hp, andb_false_r. reflexivity.
    + destruct (is_dir (files w) (dirname p) && negb (is_dir (files w) p));
        [apply insert_id; exact Hp | reflexivity].
  - eexists; reflexivity.
  - destruct H.
Qed.

Lemma exec_noop ops : forall w,
  (forall o, o ∈ ops -> done (files w) o) ->
  exists out, exec ops w = ({| files := files w; stdout := out |}, Ok tt).
Proof.
  induction ops as [|o ops IH]; intros w H.
  - exists (stdout w). destruct w; reflexivity.
  - destruct (exec_op_noop o w) as [out Ho]; [apply H; left|].
    rewrite exec_cons, Ho.
    destruct (IH {| files := files w; stdout := out |}) as [out' ->]; [|eauto].
    intros o' Ho'. apply H. right. exact Ho'.
Qed.

Lemma exec_op_keeps_dir_node o w w' q :
  exec_op o w = (w', Ok tt) -> files w !! q = Some Dir -> files w' !! q = Some Dir.
Proof.
  intros H Hq. apply exec_op_files in H. destruct o as [p|p content|line|e].
  - eapply makedirs_keeps; eauto.
  - rewrite H. apply write_file_keeps_dir. exact Hq.
  - rewrite H. exact Hq.
  - destruct H.
Qed.

(** An effect that is in place stays in place through later effects that
    do not write something else at the same path. *)
Lemma exec_op_keeps_done o o' w w' :
  exec_op o w = (w', Ok tt) -> agree_on_writes o o' ->
  done (files w) o' -> done (files w') o'.
Proof.
  intros H Hag Hdone.
  destruct o' as [p'|p' c'|line'|e']; simpl in *; [| |exact I|exact Hdone].
  - intros q Hq. eapply exec_op_keeps_dir_node; eauto.
  - destruct Hdone as [Hd Hp]. split; [eapply exec_op_keeps_dir; eauto|].
    destruct Hp as [Hp|Hp]; [left; eapply exec_op_keeps_dir; eauto|].
    pose proof (exec_op_files _ _ _ H) as Hf.
    destruct o as [p|p c|line|e].
    + right. eapply makedirs_keeps; eauto.
    + rewrite Hf. destruct (decide (p' = p)) as [->|Hne].
      * specialize (Hag eq_refl). subst c'. right. unfold write_file.
        destruct (is_dir (files w) (dirname p) && negb (is_dir (files w) p));
          [apply lookup_insert_eq | exact Hp].
      * right. rewrite write_file_other by exact Hne. exact Hp.
    + right. rewrite Hf. exact Hp.
    + destruct Hf.
Qed.

(** Carrying out an effect puts it in place, a write provided its
    directory exists. *)
Lemma exec_op_done o w w' :
  exec_op o w = (w', Ok tt) ->
  match o with
  | Write p _ => is_dir (files w) (dirname p) = true
  | _ => True
  end ->
  done (files w') o.
Proof.
  intros H Hdir. pose proof (exec_op_files _ _ _ H) as Hf.
  destruct o as [p|p content|line|e]; simpl.
  - intros q Hq. eapply makedirs_makes; eauto.
  - rewrite Hf, !write_file_is_dir. split; [exact Hdir|].
    destruct (is_dir (files w) p) eqn:Hp; [left; reflexivity|].
    right. rewrite write_file_done by assumption. apply lookup_insert_eq.
  - exact I.
  - destruct Hf.
Qed.

Lemma exec_keeps_done ops : forall w w' o,
  exec ops w = (w', Ok tt) ->
  (forall o1, o1 ∈ ops -> agree_on_writes o1 o) ->
  done (files w) o -> done (files w') o.
Proof.
  induction ops as [|o1 ops IH]; intros w w' o H Hag Hdone.
  - inversion H; subst. exact Hdone.
  - rewrite exec_cons in H.
    destruct (exec_op o1 w) as [w1 [[]|e]] eqn:E; [|discriminate].
    apply (IH w1 w' o H).
    + intros o2 Ho2. apply Hag. right. exact Ho2.
    + eapply exec_op_keeps_done; [exact E | apply Hag; left | exact Hdone].
Qed.

Lemma agree_on_writes_sym o o' : agree_on_writes o o' -> agree_on_writes o' o.
Proof.
  destruct o, o'; simpl; auto. intros H E. symmetry. apply H. symmetry. exact E.
Qed.

(** After a run that ended normally, each of its effects is in place. *)
Lemma exec_closed ops : forall made w w',
  ordered made ops -> functional ops ->
  (forall d, d ∈ made -> is_dir (files w) d = true) ->
  exec ops w = (w', Ok tt) ->
  forall o, o ∈ ops -> done (files w') o.
Proof.
  induction ops as [|o1 ops IH]; intros made w w' Hord Hfun Hmade H o Ho;
    [inversion Ho|].
  rewrite exec_cons in H.
  destruct (exec_op o1 w) as [w1 [[]|e]] eqn:E; [|discriminate].
  assert (Hfun' : functional ops).
  { intros a b Ha Hb. apply Hfun; right; assumption. }
  assert (Hfirst : done (files w') o1).
  { apply (exec_keeps_done ops w1 w' o1 H).
    - intros o2 Ho2. apply Hfun; [right; exact Ho2 | left].
    - apply (exec_op_done _ _ _ E).
      destruct o1 as [p|p content|line|e]; try exact I.
      apply Hmade. apply Hord. }
  apply elem_of_cons in Ho as [-> | Ho]; [exact Hfirst|].
  destruct o1 as [p|p content|line|e0]; cbn [ordered] in Hord.
  - apply (IH (p :: made) w1 w'); try assumption.
    intros d Hd. apply elem_of_cons in Hd as [-> | Hd].
    + destruct p as [|a p]; [reflexivity|]. apply is_dir_true. right.
      apply exec_op_files in E. eapply makedirs_makes; [exact E|].
      apply created_prefix. split; [discriminate | reflexivity].
    + eapply exec_op_keeps_dir; [exact E | auto].
  - destruct Hord as [_ Hord]. apply (IH made w1 w'); try assumption.
    intros d Hd. eapply exec_op_keeps_dir; [exact E | auto].
  - apply (IH made w1 w'); try assumption.
    intros d Hd. eapply exec_op_keeps_dir; [exact E | auto].
  - apply (IH made w1 w'); try assumption.
    intros d Hd. eapply exec_op_keeps_dir; [exact E | auto].
Qed.

(** Running a sequence of effects again, from the state it reached,
    changes no file. *)
Lemma exec_again ops w w' :
  ordered [] ops -> functional ops ->
  exec ops w = (w', Ok tt) ->
  exists out, exec ops w' = ({| files := files w'; stdout := out |}, Ok tt).
Proof.
  intros Hord Hfun H. apply exec_noop.
  apply (exec_closed ops [] w w' Hord Hfun); [|exact H].
  intros d Hd. inversion Hd.
Qed.

(** The input tree and the output tree do not overlap: neither directory
    lies inside (or is) the other. *)
Definition separate (data_dir output_dir : path) : Prop :=
  ~ data_dir `prefix_of` output_dir /\ ~ output_dir `prefix_of` data_dir.

Section Plan.
Context `{cv : OpenCV}.
Variables (data_dir output_dir : path) (target_size : Z * Z).
Hypothesis Hsep : separate data_dir output_dir.

(** Two file systems hold the same input tree. *)
Definition same_input (f f' : fs) : Prop :=
  forall q, data_dir `prefix_of` q -> f !! q = f' !! q.

(** The effect touches the output tree only. *)
Definition out_side (o : op) : Prop :=
  match o with
  | Mkdirs p | Write p _ => output_dir `prefix_of` p
  | _ => True
  end.

(** What the run does for one image, one class, and the whole dataset, as
    a sequence of effects read off the input tree of [f]. *)
Definition plan_image (f : fs) (class_name img_name : string) : list op :=
  let class_path := os_path_join data_dir class_name in
  let output_class_path := os_path_join output_dir class_name in
  let img_path := os_path_join class_path img_name in
  match f !! img_path with
  | Some (File content) =>
      match imdecode content with
      | None => [Say ("[SKIP] Could not read image: " ++ path_str img_path)]
      | Some img =>
          match findContours (inRange (cvtColor_BGR2HSV img) lower_pink upper_pink) with
          | first :: rest =>
              let '(x, y, w, h) :=
                pad_rect (shape0 img, shape1 img)
                  (boundingRect (max_by_key contourArea first rest)) in
              match resize (crop img y (y + h) x (x + w)) target_size with
              | Ok resized =>
                  if has_encoder img_name then
                    [Write (os_path_join output_class_path img_name)
                       (imencode img_name resized)]
                  else [Abort CvError]
              | Raise e => [Abort e]
              end
          | [] => [Say ("[WARNING] No pink box found in " ++ path_str img_path)]
          end
      end
  | _ => [Say ("[SKIP] Could not read image: " ++ path_str img_path)]
  end.

Definition plan_class (f : fs) (class_name : string) : list op :=
  let class_path := os_path_join data_dir class_name in
  if is_dir f class_path then
    Mkdirs (os_path_join output_dir class_name)
      :: concat (plan_image f class_name <$> entries f class_path)
  else [].

Definition plan (f : fs) : list op :=
  Mkdirs output_dir ::
  (if is_dir f data_dir then
     concat (plan_class f <$> sorted (entries f data_dir))
       ++ [Say "Preprocessing complete."]
   else [Abort OSError]).

Lemma same_input_refl f : same_input f f.
Proof. intros q _. reflexivity. Qed.

Lemma same_input_is_dir f f' p :
  same_input f f' -> data_dir `prefix_of` p -> is_dir f p = is_dir f' p.
Proof.
  intros H Hp. unfold is_dir. destruct p; [reflexivity|]. rewrite (H _ Hp). reflexivity.
Qed.

Lemma same_input_entries f f' p :
  same_input f f' -> data_dir `prefix_of` p -> entries f p = entries f' p.
Proof.
  intros H Hp. apply entries_ext. intros n.
  rewrite (H (p ++ [n])); [reflexivity|]. apply prefix_app_r. exact Hp.
Qed.

(** A path of the input tree is not a path of the output tree, nor a
    directory that leads to it. *)
Lemma input_not_output q p :
  data_dir `prefix_of` q -> output_dir `prefix_of` p -> ~ q `prefix_of` p.
Proof.
  intros Hq Hp Hqp.
  assert (Hd : data_dir `prefix_of` p) by (etransitivity; eassumption).
  destruct (prefix_weak_total _ _ _ Hd Hp); destruct Hsep; contradiction.
Qed.

Lemma exec_op_same_input f o w :
  out_side o -> same_input f (files w) -> same_input f (files (exec_op o w).1).
Proof.
  intros Hout H q Hq. rewrite (H q Hq).
  destruct o as [p|p content|line|e]; simpl in *; try reflexivity.
  - unfold os_makedirs.
    destruct (makedirs_from [] p (files w)) as [f'|e] eqn:E; [|reflexivity].
    cbn [fst set_files files].
    destruct (files w !! q) as [v|] eqn:Hv.
    + symmetry. eapply makedirs_keeps; eauto.
    + destruct (f' !! q) as [v|] eqn:Hv'; [|reflexivity].
      destruct (makedirs_origin _ _ _ _ _ _ E Hv') as [Hw|(_ & _ & Hc)]; [congruence|].
      apply created_prefix in Hc as [_ Hpre].
      destruct (input_not_output q p Hq Hout Hpre).
  - symmetry. apply write_file_other. intros ->.
    apply (input_not_output p p Hq Hout). reflexivity.
Qed.

Lemma exec_same_input f ops : forall w,
  Forall out_side ops -> same_input f (files w) -> same_input f (files (exec ops w).1).
Proof.
  induction ops as [|o ops IH]; intros w Hout H; [exact H|].
  inversion Hout as [|? ? Ho Hops]; subst.
  rewrite exec_cons.
  pose proof (exec_op_same_input f o w Ho H) as H1.
  destruct (exec_op o w) as [w1 [[]|e]]; cbn [fst] in *; [|exact H1].
  apply IH; assumption.
Qed.

(** *** The run carries out its plan *)

Lemma process_image_exec f class_name img_name w :
  same_input f (files w) ->
  process_image (os_path_join data_dir class_name)
    (os_path_join output_dir class_name) target_size img_name w
  = exec (plan_image f class_name img_name) w.
Proof.
  intros H. unfold process_image, plan_image, bind, cv2_imread.
  rewrite <- (H (os_path_join (os_path_join data_dir class_name) img_name))
    by (unfold os_path_join; rewrite <- app_assoc; apply prefix_app_r; reflexivity).
  destruct (f !! _) as [[|content]|]; try (rewrite exec_single; reflexivity).
  destruct (imdecode content) as [img|]; [|rewrite exec_single; reflexivity].
  destruct (findContours _) as [|first rest]; [rewrite exec_single; reflexivity|].
  destruct (pad_rect _ _) as [[[x y] cw] ch].
  unfold lift. destruct (resize _ _) as [resized|e];
    [|rewrite exec_single; reflexivity].
  unfold cv2_imwrite. rewrite basename_join.
  destruct (has_encoder img_name); rewrite exec_single; reflexivity.
Qed.

Lemma for_each_exec {A} (body : A -> io unit) (pl : A -> list op) f (l : list A) :
  (forall x w, same_input f (files w) -> body x w = exec (pl x) w) ->
  (forall x, Forall out_side (pl x)) ->
  forall w, same_input f (files w) ->
    for_each l body w = exec (concat (pl <$> l)) w.
Proof.
  intros Hbody Hout. induction l as [|x l IH]; intros w H; [reflexivity|].
  cbn [for_each fmap list_fmap concat]. rewrite exec_app. unfold bind.
  rewrite (Hbody x w H).
  pose proof (exec_same_input f (pl x) w (Hout x) H) as H1.
  destruct (exec (pl x) w) as [w1 [[]|e]]; [|reflexivity].
  apply IH. exact H1.
Qed.

Lemma plan_image_out_side f class_name img_name :
  Forall out_side (plan_image f class_name img_name).
Proof.
  unfold plan_image.
  destruct (f !! _) as [[|content]|]; try (repeat constructor).
  destruct (imdecode content) as [img|]; [|repeat constructor].
  destruct (findContours _) as [|first rest]; [repeat constructor|].
  destruct (pad_rect _ _) as [[[x y] cw] ch].
  destruct (resize _ _) as [resized|e]; [|repeat constructor].
  destruct (has_encoder img_name); repeat constructor.
  simpl. unfold os_path_join. rewrite <- app_assoc. apply prefix_app_r. reflexivity.
Qed.

Lemma Forall_concat_fmap {A B} (P : B -> Prop) (g : A -> list B) (l : list A) :
  (forall x, Forall P (g x)) -> Forall P (concat (g <$> l)).
Proof.
  intros H. induction l as [|x l IH]; [constructor|].
  cbn [fmap list_fmap concat]. apply Forall_app. split; [apply H | exact IH].
Qed.

Lemma plan_class_out_side f class_name : Forall out_side (plan_class f class_name).
Proof.
  unfold plan_class. destruct (is_dir f _); [|constructor].
  constructor; [simpl; apply prefix_app_r; reflexivity|].
  apply Forall_concat_fmap. intros i. apply plan_image_out_side.
Qed.

Lemma process_class_exec f class_name w :
  same_input f (files w) ->
  process_class data_dir output_dir target_size class_name w
  = exec (plan_class f class_name) w.
Proof.
  intros H. unfold process_class, plan_class, bind at 1, os_path_isdir.
  assert (Hcp : data_dir `prefix_of` os_path_join data_dir class_name)
    by (apply prefix_app_r; reflexivity).
  rewrite <- (same_input_is_dir f (files w) _ H Hcp).
  destruct (is_dir f (os_path_join data_dir class_name)) eqn:Hd; [|reflexivity].
  cbn [negb]. rewrite exec_cons. unfold bind at 1. cbn [exec_op]. unfold path_mkdir.
  pose proof (exec_op_same_input f (Mkdirs (os_path_join output_dir class_name)) w) as H1.
  cbn [exec_op] in H1. specialize (H1 ltac:(simpl; apply prefix_app_r; reflexivity) H).
  destruct (os_makedirs (os_path_join output_dir class_name) w) as [w1 [[]|e]];
    [|reflexivity].
  cbn [fst] in H1. unfold bind, os_listdir.
  rewrite <- (same_input_is_dir f (files w1) _ H1 Hcp), Hd.
  rewrite <- (same_input_entries f (files w1) _ H1 Hcp).
  apply (for_each_exec _ (plan_image f class_name) f).
  - intros i w2 H2. apply process_image_exec. exact H2.
  - intros i. apply plan_image_out_side.
  - exact H1.
Qed.

Lemma preprocess_dataset_exec f w :
  same_input f (files w) ->
  preprocess_dataset data_dir output_dir target_size w = exec (plan f) w.
Proof.
  intros H. unfold preprocess_dataset, plan. rewrite exec_cons.
  unfold bind at 1. cbn [exec_op].
  pose proof (exec_op_same_input f (Mkdirs output_dir) w) as H1.
  cbn [exec_op] in H1. specialize (H1 ltac:(simpl; reflexivity) H).
  destruct (os_makedirs output_dir w) as [w1 [[]|e]]; [|reflexivity].
  cbn [fst] in H1. unfold bind at 1, os_listdir.
  rewrite <- (same_input_is_dir f (files w1) _ H1 ltac:(reflexivity)).
  destruct (is_dir f data_dir) eqn:Hd; [|reflexivity].
  rewrite <- (same_input_entries f (files w1) _ H1 ltac:(reflexivity)).
  rewrite exec_app. unfold bind.
  rewrite (for_each_exec _ (plan_class f) f _
             (fun c w2 H2 => process_class_exec f c w2 H2)
             (plan_class_out_side f) w1 H1).
  destruct (exec _ w1) as [w2 [[]|e]]; [|reflexivity].
  rewrite exec_single. reflexivity.
Qed.

(** *** The shape of the plan *)

Lemma ordered_weaken ops : forall made made',
  (forall d, d ∈ made -> d ∈ made') -> ordered made ops -> ordered made' ops.
Proof.
  induction ops as [|o ops IH]; intros made made' Hsub H; [exact I|].
  destruct o as [p|p content|line|e]; cbn [ordered] in *.
  - apply (IH (p :: made)); [|exact H].
    intros d Hd. apply elem_of_cons in Hd as [-> | Hd]; [left | right; auto].
  - destruct H as [Hd H]. split; [auto | eapply IH; eauto].
  - eapply IH; eauto.
  - eapply IH; eauto.
Qed.

Lemma ordered_app ops1 : forall made ops2,
  ordered made ops1 -> ordered made ops2 -> ordered made (ops1 ++ ops2).
Proof.
  induction ops1 as [|o ops1 IH]; intros made ops2 H1 H2; [exact H2|].
  destruct o as [p|p content|line|e]; cbn [app ordered] in *.
  - apply IH; [exact H1|]. apply (ordered_weaken ops2 made); [|exact H2].
    intros d Hd. right. exact Hd.
  - destruct H1 as [Hd H1]. split; [exact Hd | apply IH; assumption].
  - apply IH; assumption.
  - apply IH; assumption.
Qed.

Lemma ordered_concat_fmap {A} (g : A -> list op) (l : list A) made :
  (forall x, ordered made (g x)) -> ordered made (concat (g <$> l)).
Proof.
  intros H. induction l as [|x l IH]; [exact I|].
  cbn [fmap list_fmap concat]. apply ordered_app; [apply H | exact IH].
Qed.

Lemma plan_image_ordered f class_name img_name made :
  os_path_join output_dir class_name ∈ made ->
  ordered made (plan_image f class_name img_name).
Proof.
  intros Hin. unfold plan_image.
  destruct (f !! _) as [[|content]|]; try exact I.
  destruct (imdecode content) as [img|]; [|exact I].
  destruct (findContours _) as [|first rest]; [exact I|].
  destruct (pad_rect _ _) as [[[x y] cw] ch].
  destruct (resize _ _) as [resized|e]; [|exact I].
  destruct (has_encoder img_name); [|exact I].
  cbn [ordered]. rewrite dirname_join. auto.
Qed.

Lemma plan_class_ordered f class_name made : ordered made (plan_class f class_name).
Proof.
  unfold plan_class. destruct (is_dir f _); [|exact I]. cbn [ordered].
  apply ordered_concat_fmap. intros i. apply plan_image_ordered. left.
Qed.

Lemma plan_ordered f : ordered [] (plan f).
Proof.
  unfold plan. cbn [ordered]. destruct (is_dir f data_dir); [|exact I].
  apply ordered_app; [|exact I].
  apply ordered_concat_fmap. intros c. apply plan_class_ordered.
Qed.

(** A write of the plan is the single effect planned for some image. *)
Lemma plan_image_write f class_name img_name p content :
  Write p content ∈ plan_image f class_name img_name ->
  p = os_path_join (os_path_join output_dir class_name) img_name /\
  plan_image f class_name img_name = [Write p content].
Proof.
  unfold plan_image.
  destruct (f !! _) as [[|c]|];
    try (intros H; apply list_elem_of_singleton in H; discriminate).
  destruct (imdecode c) as [img|];
    [|intros H; apply list_elem_of_singleton in H; discriminate].
  destruct (findContours _) as [|first rest];
    [intros H; apply list_elem_of_singleton in H; discriminate|].
  destruct (pad_rect _ _) as [[[x y] cw] ch].
  destruct (resize _ _) as [resized|e];
    [|intros H; apply list_elem_of_singleton in H; discriminate].
  destruct (has_encoder img_name);
    intros H; apply list_elem_of_singleton in H; [|discriminate].
  injection H as -> ->. split; reflexivity.
Qed.

Lemma elem_of_concat_fmap {A B} (g : A -> list B) (l : list A) (y : B) :
  y ∈ concat (g <$> l) -> exists x, x ∈ l /\ y ∈ g x.
Proof.
  induction l as [|x l IH]; cbn [fmap list_fmap concat]; intros H; [inversion H|].
  apply elem_of_app in H as [H|H].
  - exists x. split; [left | exact H].
  - destruct (IH H) as (x' & Hx' & Hy). exists x'. split; [right; exact Hx' | exact Hy].
Qed.

Lemma plan_write f p content :
  Write p content ∈ plan f ->
  exists class_name img_name, Write p content ∈ plan_image f class_name img_name.
Proof.
  unfold plan. intros H. apply elem_of_cons in H as [H|H]; [discriminate|].
  destruct (is_dir f data_dir);
    [|apply list_elem_of_singleton in H; discriminate].
  apply elem_of_app in H as [H|H];
    [|apply list_elem_of_singleton in H; discriminate].
  apply elem_of_concat_fmap in H as (c & _ & H).
  unfold plan_class in H. destruct (is_dir f _); [|inversion H].
  apply elem_of_cons in H as [H|H]; [discriminate|].
  apply elem_of_concat_fmap in H as (i & _ & H). eauto.
Qed.

Lemma plan_functional f : functional (plan f).
Proof.
  intros o o' Ho Ho'.
  destruct o as [p|p c|line|e], o' as [p'|p' c'|line'|e']; try exact I.
  simpl. intros <-.
  apply plan_write in Ho as (cls & i & Ho), Ho' as (cls' & i' & Ho').
  apply plan_image_write in Ho as [Hp Ho], Ho' as [Hp' Ho'].
  rewrite Hp in Hp'. unfold os_path_join in Hp'.
  apply app_inj_tail in Hp' as [Hp' <-]. apply app_inj_tail in Hp' as [_ <-].
  rewrite Ho in Ho'. congruence.
Qed.

End Plan.

(** C8: the transform is a function of the file system it starts from, and
    running it a second time with the same [data_dir] and [output_dir]
    (the two trees apart from each other, so that the first run leaves the
    input dataset as it was) ends normally again and leaves every file
    byte for byte as the first run left it: each output image is
    overwritten with identical content. *)
Theorem rerun_leaves_identical_outputs `{cv : OpenCV}
    (data_dir output_dir : path) (target_size : Z * Z) (w0 w1 : world) :
  separate data_dir output_dir ->
  preprocess_dataset data_dir output_dir target_size w0 = (w1, Ok tt) ->
  (forall q, data_dir `prefix_of` q -> files w1 !! q = files w0 !! q) /\
  exists w2,
    preprocess_dataset data_dir output_dir target_size w1 = (w2, Ok tt) /\
    files w2 = files w1.
Proof.
  intros Hsep Hrun.
  pose proof (preprocess_dataset_exec data_dir output_dir target_size Hsep
                (files w0) w0 (same_input_refl data_dir (files w0))) as H0.
  rewrite Hrun in H0. symmetry in H0.
  assert (Hout : Forall (out_side output_dir)
                   (plan data_dir output_dir target_size (files w0))).
  { unfold plan. constructor; [simpl; reflexivity|].
    destruct (is_dir (files w0) data_dir); [|repeat constructor].
    apply Forall_app. split; [|repeat constructor].
    apply Forall_concat_fmap. intros c. apply plan_class_out_side. }
  pose proof (exec_same_input data_dir output_dir Hsep (files w0) _ w0 Hout
                (same_input_refl data_dir (files w0))) as H1.
  rewrite H0 in H1. cbn [fst] in H1.
  split; [intros q Hq; symmetry; apply H1; exact Hq|].
  destruct (exec_again _ w0 w1
              (plan_ordered data_dir output_dir target_size (files w0))
              (plan_functional data_dir output_dir target_size (files w0)) H0)
    as [out Hagain].
  exists {| files := files w1; stdout := out |}. split; [|reflexivity].
  rewrite (preprocess_dataset_exec data_dir output_dir target_size Hsep
             (files w0) w1 H1).
  exact Hagain.
Qed.

Lemma rerun_leaves_identical_outputs_witness :
  exists w2,
    preprocess_dataset (cv := ExampleCV.example_cv) ["data"] ["out"] (4, 4)
        (preprocess_dataset (cv := ExampleCV.example_cv) ["data"] ["out"] (4, 4)
           Example.fresh).1
      = (w2, Ok tt) /\
    files w2
      = files (preprocess_dataset (cv := ExampleCV.example_cv) ["data"] ["out"]
                 (4, 4) Example.fresh).1.
Proof.
  destruct (rerun_leaves_identical_outputs (cv := ExampleCV.example_cv)
              ["data"] ["out"] (4, 4) Example.fresh
              (preprocess_dataset (cv := ExampleCV.example_cv) ["data"] ["out"]
                 (4, 4) Example.fresh).1)
    as (_ & w2 & H).
  - split; intros [k Hk]; discriminate Hk.
  - vm_compute. reflexivity.
  - exists w2. exact H.
Defined.

(** *** Consequences for a whole run *)

Lemma elem_of_insert_sorted x s l : x ∈ insert_sorted s l <-> x = s \/ x ∈ l.
Proof.
  induction l as [|y l IH]; simpl.
  - rewrite list_elem_of_singleton. split; [auto | intros [H|H]; [auto | inversion H]].
  - destruct (String.leb s y); rewrite !elem_of_cons; [tauto|].
    rewrite IH. tauto.
Qed.

Lemma elem_of_sorted x l : x ∈ sorted l <-> x ∈ l.
Proof.
  induction l as [|y l IH]; simpl; [reflexivity|].
  rewrite elem_of_insert_sorted, IH, elem_of_cons. reflexivity.
Qed.

Lemma elem_of_concat_fmap_2 {A B} (g : A -> list B) (l : list A) (x : A) (y : B) :
  x ∈ l -> y ∈ g x -> y ∈ concat (g <$> l).
Proof.
  intros Hx Hy. induction l as [|x' l IH]; [inversion Hx|].
  cbn [fmap list_fmap concat]. apply elem_of_app.
  apply elem_of_cons in Hx as [<- | Hx]; [left; exact Hy | right; auto].
Qed.

(** After a run that ended normally every class subdirectory of
    [data_dir] has its output directory. *)
Lemma output_directories_exist `{cv : OpenCV}
    (data_dir output_dir : path) (target_size : Z * Z) (w0 w1 : world)
    (class_name : string) :
  separate data_dir output_dir ->
  preprocess_dataset data_dir output_dir target_size w0 = (w1, Ok tt) ->
  class_name ∈ entries (files w0) data_dir ->
  is_dir (files w0) (os_path_join data_dir class_name) = true ->
  is_dir (files w1) (os_path_join output_dir class_name) = true.
Proof.
  intros Hsep Hrun Hc Hd.
  pose proof (preprocess_dataset_exec data_dir output_dir target_size Hsep
                (files w0) w0 (same_input_refl data_dir (files w0))) as H0.
  rewrite Hrun in H0. symmetry in H0.
  pose proof (exec_closed _ [] w0 w1
                (plan_ordered data_dir output_dir target_size (files w0))
                (plan_functional data_dir output_dir target_size (files w0))
                ltac:(intros d Hin; inversion Hin) H0) as Hclosed.
  assert (Hin : Mkdirs (os_path_join output_dir class_name)
                  ∈ plan data_dir output_dir target_size (files w0)).
  { unfold plan. right. destruct (is_dir (files w0) data_dir) eqn:E.
    - apply elem_of_app. left.
      apply (elem_of_concat_fmap_2 _ _ class_name); [apply elem_of_sorted; exact Hc|].
      unfold plan_class. rewrite Hd. left.
    - exfalso. apply (Hclosed (Abort OSError)). unfold plan. rewrite E. right. left. }
  apply is_dir_true. right. apply (Hclosed _ Hin).
  apply created_prefix. split; [|reflexivity].
  unfold os_path_join. destruct output_dir; discriminate.
Qed.

(** The example dataset: one output file under [A], none under [B]. *)
Example batch_on_example :
  let w1 := (preprocess_dataset (cv := ExampleCV.example_cv) ["data"] ["out"]
               (4, 4) Example.fresh).1 in
  entries (files w1) ["out"] = ["A"; "B"] /\
  entries (files w1) ["out"; "A"] = ["a.png"] /\
  entries (files w1) ["out"; "B"] = [] /\
  stdout w1 = ["[WARNING] No pink box found in data/B/b.png";
               "[SKIP] Could not read image: data/B/broken.png";
               "Preprocessing complete."].
Proof. vm_compute. repeat split. Qed.

End BatchSpec.

(** ** The renderer: when it succeeds, how it fails, NaN *)

Module RendererExtra.
Import Py PyFacts Plotting PlottingSpec.

(** The four metric sequences are present, non-empty and of one length. *)
Definition plottable (h : history) : Prop :=
  exists acc val_acc loss val_loss,
    complete h acc val_acc loss val_loss /\
    length val_acc = length acc /\ length loss = length acc /\
    length val_loss = length acc.

(** A history whose first validation accuracy and loss are NaN. *)
Definition history_nan : history :=
  <[ "val_accuracy"%string := floats [4; 5; 6]%nat [S754_nan; lit_0_9; lit_0_7] ]>
  (<[ "val_loss"%string := floats [10; 11; 12]%nat [S754_nan; lit_0_2; lit_0_5] ]>
   history3).

Lemma py_extremum_ok better x m :
  py_extremum better x = Ok m -> exists l, x = Some l /\ l <> [].
Proof.
  destruct x as [[|first rest]|]; try discriminate. intros _.
  eexists. split; [reflexivity | discriminate].
Qed.

(** The best points exist only if [accuracy] is present and
    [val_accuracy], [val_loss] are present and non-empty. *)
Lemma compute_best_points_inv h b :
  compute_best_points h = Ok b ->
  exists acc val_acc val_loss,
    h !! "accuracy"%string = Some acc /\
    h !! "val_accuracy"%string = Some val_acc /\ val_acc <> [] /\
    h !! "val_loss"%string = Some val_loss /\ val_loss <> [] /\
    epochs b = seq 1 (length acc).
Proof.
  unfold compute_best_points.
  destruct (h !! "accuracy"%string) as [acc|]; [|discriminate].
  cbn [py_len bind_result].
  destruct (py_getattr_index (h !! "val_accuracy"%string)) as [ix|] eqn:E1;
    [|discriminate]. cbn [bind_result].
  destruct (py_max (h !! "val_accuracy"%string)) as [m|] eqn:E2; [|discriminate].
  cbn [bind_result].
  destruct (ix m) as [i|]; [|discriminate]. cbn [bind_result].
  destruct (py_getattr_index (h !! "val_loss"%string)) as [ix'|] eqn:E3;
    [|discriminate]. cbn [bind_result].
  destruct (py_min (h !! "val_loss"%string)) as [m'|] eqn:E4; [|discriminate].
  cbn [bind_result].
  destruct (ix' m') as [j|]; [|discriminate]. cbn [bind_result].
  intros [= <-].
  apply py_extremum_ok in E2 as (va & Hva & Hne).
  apply py_extremum_ok in E4 as (vl & Hvl & Hne').
  exists acc, va, vl. repeat split; assumption.
Qed.

Lemma plt_plot_ok xs ys label (tr tr' : list plt_call) :
  plt_plot xs ys label tr = (tr', Ok tt) ->
  exists l, ys = Some l /\ length xs = length l.
Proof.
  unfold plt_plot, lift, call. destruct ys as [l|]; [|discriminate].
  destruct (Nat.eqb_spec (length xs) (length l)); [eauto | discriminate].
Qed.

Lemma bind_call {A} (c : plt_call) (k : plt A) (tr : list plt_call) :
  (call c ;; k) tr = k (tr ++ [c]).
Proof. reflexivity. Qed.

(** A run that gets past the four [plot] calls had four sequences as long
    as the epoch axis. *)
Lemma render_ok_plots `{pp : Pyplot} h title save_path tr b :
  compute_best_points h = Ok b ->
  render h title save_path = (tr, Ok tt) ->
  exists acc val_acc loss val_loss,
    h !! "accuracy"%string = Some acc /\
    h !! "val_accuracy"%string = Some val_acc /\
    h !! "loss"%string = Some loss /\
    h !! "val_loss"%string = Some val_loss /\
    length (epochs b) = length acc /\ length (epochs b) = length val_acc /\
    length (epochs b) = length loss /\ length (epochs b) = length val_loss.
Proof.
  intros Hb. unfold render, plot_training_history_with_annotations.
  rewrite Hb. cbn [bind lift call app]. rewrite bind_unfold.
  destruct (plt_plot (epochs b) (h !! "accuracy"%string) _ _) as [t1 [[]|e]] eqn:P1;
    [|discriminate].
  rewrite bind_unfold.
  destruct (plt_plot (epochs b) (h !! "val_accuracy"%string) _ _) as [t2 [[]|e]] eqn:P2;
    [|discriminate].
  rewrite !bind_call, bind_unfold.
  destruct (plt_plot (epochs b) (h !! "loss"%string) _ _) as [t3 [[]|e]] eqn:P3;
    [|discriminate].
  rewrite bind_unfold.
  destruct (plt_plot (epochs b) (h !! "val_loss"%string) _ _) as [t4 [[]|e]] eqn:P4;
    [|discriminate].
  intros _.
  apply plt_plot_ok in P1 as (acc & -> & L1), P2 as (va & -> & L2),
    P3 as (lo & -> & L3), P4 as (vl & -> & L4).
  exists acc, va, lo, vl. repeat split; assumption.
Qed.

(** The histories on which every drawing call goes through. *)
Lemma render_ok_plottable `{pp : Pyplot} h title save_path tr :
  render h title save_path = (tr, Ok tt) -> plottable h.
Proof.
  intros Hr.
  destruct (compute_best_points h) as [b|e] eqn:Hb.
  - destruct (compute_best_points_inv h b Hb)
      as (acc0 & va0 & vl0 & Ha0 & Hva0 & Hne & Hvl0 & Hne' & He).
    destruct (render_ok_plots h title save_path tr b Hb Hr)
      as (acc & va & lo & vl & Ha & Hva & Hl & Hvl & L1 & L2 & L3 & L4).
    rewrite Ha in Ha0. rewrite Hva in Hva0. rewrite Hvl in Hvl0.
    injection Ha0 as <-. injection Hva0 as <-. injection Hvl0 as <-.
    rewrite He, length_seq in L2, L3, L4.
    exists acc, va, lo, vl. split; [|repeat split; congruence].
    split; try assumption.
    + intros ->. destruct va; [congruence | discriminate].
    + intros ->. destruct acc; [|discriminate]. destruct va; [congruence | discriminate].
  - unfold render, plot_training_history_with_annotations, bind, lift in Hr.
    rewrite Hb in Hr. discriminate.
Qed.

(** X1: The renderer returns normally exactly when the four sequences of
    the history are present, non-empty and of the same length and
    [savefig] accepts the name [f'{save_path}']; in every other case it
    raises. *)
Theorem render_ok_iff_plottable_and_savable `{pp : Pyplot} h title save_path :
  snd (render h title save_path) = Ok tt <->
  plottable h /\ exists written, savefig_file (fstring save_path) = Ok written.
Proof.
  split.
  - destruct (render h title save_path) as [tr r] eqn:Hr. cbn [snd]. intros ->.
    pose proof (render_ok_plottable h title save_path tr Hr) as Hp.
    split; [exact Hp|].
    destruct Hp as (acc & va & lo & vl & Hc & H1 & H2 & H3).
    destruct (render_complete h acc va lo vl title save_path Hc H1 H2 H3)
      as (b & _ & Hr').
    rewrite Hr in Hr'.
    destruct (savefig_file (fstring save_path)) as [written|e];
      [eauto | discriminate].
  - intros [(acc & va & lo & vl & Hc & H1 & H2 & H3) [written Hs]].
    destruct (render_complete h acc va lo vl title save_path Hc H1 H2 H3)
      as (b & _ & ->).
    rewrite Hs. reflexivity.
Qed.

(** X3: On a plottable history, with a path that [savefig] accepts, the
    renderer makes every pyplot call: both best points are marked, the
    figure is saved once, under the path and at 300 dpi, in the file
    [savefig] writes, and shown last. *)
Theorem render_saves_once_then_shows `{pp : Pyplot} h title (file written : string) :
  plottable h ->
  savefig_file file = Ok written ->
  exists tr b,
    render h title (Some file) = (tr, Ok tt) /\
    compute_best_points h = Ok b /\
    List.filter (fun c => match c with Savefig _ _ _ => true | _ => false end) tr
      = [Savefig file 300 written] /\
    saved_files tr = [written] /\
    last tr = Some Show /\
    Scatter (best_acc_epoch b) (best_acc b) ∈ tr /\
    Scatter (best_loss_epoch b) (best_loss b) ∈ tr.
Proof.
  intros (acc & va & lo & vl & Hc & H1 & H2 & H3) Hs.
  destruct (render_complete h acc va lo vl title (Some file) Hc H1 H2 H3)
    as (b & Hb & Hr).
  cbn [fstring] in Hr. rewrite Hs in Hr.
  exists (full_trace b acc va lo vl title (Some file) written), b.
  split; [exact Hr|]. split; [exact Hb|].
  unfold full_trace, drawn.
  split; [reflexivity|]. split; [reflexivity|]. split; [reflexivity|].
  split; apply list_elem_of_In; simpl; tauto.
Qed.

Lemma render_saves_once_then_shows_witness :
  exists tr,
    render (pp := ExamplePyplot.example_pyplot)
      history3 default_title (Some "history.png"%string) = (tr, Ok tt) /\
    saved_files tr = ["history.png"%string] /\
    last tr = Some Show.
Proof.
  destruct (render_saves_once_then_shows (pp := ExamplePyplot.example_pyplot)
              history3 default_title "history.png" "history.png")
    as (tr & b & Hr & _ & _ & Hs & Hl & _).
  - exists (floats [1; 2; 3]%nat [lit_0_5; lit_0_7; lit_0_9]),
      (floats [4; 5; 6]%nat [lit_0_5; lit_0_9; lit_0_7]),
      (floats [7; 8; 9]%nat [lit_1_0; lit_0_5; lit_0_2]),
      (floats [10; 11; 12]%nat [lit_1_0; lit_0_2; lit_0_5]).
    split; [split; try reflexivity; discriminate | repeat split].
  - reflexivity.
  - exists tr. split; [exact Hr|]. split; assumption.
Defined.

(** X21: On a plottable history, when [savefig] raises (an extension that
    names no format, a directory that does not exist), the renderer raises
    the same exception after the last drawing call: no file is saved and
    the figure is never shown. *)
Theorem failed_savefig_is_not_shown `{pp : Pyplot} h title save_path e :
  plottable h ->
  savefig_file (fstring save_path) = Raise e ->
  exists tr,
    render h title save_path = (tr, Raise e) /\
    saved_files tr = [] /\
    last tr = Some TightLayout /\
    Show ∉ tr.
Proof.
  intros (acc & va & lo & vl & Hc & H1 & H2 & H3) Hs.
  destruct (render_complete h acc va lo vl title save_path Hc H1 H2 H3)
    as (b & Hb & Hr).
  rewrite Hs in Hr. eexists. split; [exact Hr|].
  unfold drawn. split; [reflexivity|]. split; [reflexivity|].
  intros Hin. apply list_elem_of_In in Hin. simpl in Hin.
  repeat (destruct Hin as [Hin|Hin]; [discriminate|]). exact Hin.
Qed.

Lemma failed_savefig_is_not_shown_witness :
  (exists tr,
     render (pp := ExamplePyplot.example_pyplot)
       history3 default_title (Some "history.xyz"%string) = (tr, Raise ValueError) /\
     saved_files tr = [] /\ Show ∉ tr) /\
  (exists tr,
     render (pp := ExamplePyplot.example_pyplot)
       history3 default_title (Some "nodir/history.png"%string) = (tr, Raise OSError) /\
     saved_files tr = [] /\ Show ∉ tr).
Proof.
  assert (Hp : plottable history3).
  { exists (floats [1; 2; 3]%nat [lit_0_5; lit_0_7; lit_0_9]),
      (floats [4; 5; 6]%nat [lit_0_5; lit_0_9; lit_0_7]),
      (floats [7; 8; 9]%nat [lit_1_0; lit_0_5; lit_0_2]),
      (floats [10; 11; 12]%nat [lit_1_0; lit_0_2; lit_0_5]).
    split; [split; try reflexivity; discriminate | repeat split]. }
  split.
  - destruct (failed_savefig_is_not_shown (pp := ExamplePyplot.example_pyplot)
                history3 default_title (Some "history.xyz"%string) ValueError Hp eq_refl)
      as (tr & Hr & Hs & _ & Hn).
    exists tr. split; [exact Hr|]. split; assumption.
  - destruct (failed_savefig_is_not_shown (pp := ExamplePyplot.example_pyplot)
                history3 default_title (Some "nodir/history.png"%string) OSError Hp eq_refl)
      as (tr & Hr & Hs & _ & Hn).
    exists tr. split; [exact Hr|]. split; assumption.
Defined.

(** X4: Which exception a missing key gives, none of them after a pyplot
    call: [TypeError] for [accuracy] ([len(None)]), [AttributeError] for
    [val_accuracy] and [val_loss] ([None.index]). *)
Theorem missing_key_exception `{pp : Pyplot} h title save_path :
  (h !! "accuracy"%string = None ->
   render h title save_path = ([], Raise TypeError)) /\
  (is_Some (h !! "accuracy"%string) -> h !! "val_accuracy"%string = None ->
   render h title save_path = ([], Raise AttributeError)) /\
  (forall val_acc,
     is_Some (h !! "accuracy"%string) ->
     h !! "val_accuracy"%string = Some val_acc -> val_acc <> [] ->
     h !! "val_loss"%string = None ->
     render h title save_path = ([], Raise AttributeError)).
Proof.
  unfold render, plot_training_history_with_annotations, bind, lift,
    compute_best_points.
  split; [intros ->; reflexivity|]. split.
  - intros [acc ->] ->. reflexivity.
  - intros va [acc ->] Hva Hne ->. rewrite Hva.
    destruct (extremum_found py_gt va Hne) as (m & i & Hm & _ & Hi & _).
    cbn [py_len py_getattr_index bind_result]. unfold py_max. rewrite Hm.
    cbn [bind_result]. rewrite Hi. reflexivity.
Qed.

Lemma missing_key_exception_witness :
  render (pp := ExamplePyplot.example_pyplot)
    (delete "accuracy"%string history3) default_title None = ([], Raise TypeError) /\
  render (pp := ExamplePyplot.example_pyplot)
    (delete "val_accuracy"%string history3) default_title None
    = ([], Raise AttributeError) /\
  render (pp := ExamplePyplot.example_pyplot)
    (delete "val_loss"%string history3) default_title None
    = ([], Raise AttributeError).
Proof.
  split; [|split].
  - apply (missing_key_exception (pp := ExamplePyplot.example_pyplot)
             (delete "accuracy"%string history3)). reflexivity.
  - apply (missing_key_exception (pp := ExamplePyplot.example_pyplot)
             (delete "val_accuracy"%string history3));
      [eexists|]; reflexivity.
  - apply (missing_key_exception (pp := ExamplePyplot.example_pyplot)
             (delete "val_loss"%string history3) default_title None)
      with (val_acc := floats [4; 5; 6]%nat [lit_0_5; lit_0_9; lit_0_7]);
      [eexists; reflexivity | reflexivity | discriminate | reflexivity].
Defined.

(** X5: An empty [val_accuracy] or [val_loss] makes [max] or [min] raise
    [ValueError] before any pyplot call. *)
Theorem empty_validation_sequence_raises `{pp : Pyplot} h title save_path :
  is_Some (h !! "accuracy"%string) ->
  h !! "val_accuracy"%string = Some [] \/
  (exists val_acc, h !! "val_accuracy"%string = Some val_acc /\ val_acc <> [] /\
     h !! "val_loss"%string = Some []) ->
  render h title save_path = ([], Raise ValueError).
Proof.
  unfold render, plot_training_history_with_annotations, bind, lift,
    compute_best_points.
  intros [acc ->] [-> | (va & Hva & Hne & ->)]; [reflexivity|]. rewrite Hva.
  destruct (extremum_found py_gt va Hne) as (m & i & Hm & _ & Hi & _).
  cbn [py_len py_getattr_index bind_result]. unfold py_max. rewrite Hm.
  cbn [bind_result]. rewrite Hi. reflexivity.
Qed.

Lemma empty_validation_sequence_raises_witness :
  render (pp := ExamplePyplot.example_pyplot)
    (<[ "val_loss"%string := [] ]> history3) default_title None
    = ([], Raise ValueError).
Proof.
  apply (empty_validation_sequence_raises (pp := ExamplePyplot.example_pyplot));
    [eexists; reflexivity|].
  right. exists (floats [4; 5; 6]%nat [lit_0_5; lit_0_9; lit_0_7]).
  split; [reflexivity|]. split; [discriminate | reflexivity].
Defined.

(** X6: Both best epochs are epochs of their sequence: between 1 and its
    length. *)
Theorem best_epochs_in_range h acc val_acc loss val_loss :
  complete h acc val_acc loss val_loss ->
  exists b,
    compute_best_points h = Ok b /\
    epochs b = seq 1 (length acc) /\
    (1 <= best_acc_epoch b <= length val_acc)%nat /\
    (1 <= best_loss_epoch b <= length val_loss)%nat.
Proof.
  intros Hc.
  destruct (compute_best_points_ok _ _ _ _ _ Hc)
    as (ba & i & bl & j & _ & _ & [(x & Hx & _) _] & _ & _ & _ & [(y & Hy & _) _] & _ & Hb).
  eexists. split; [exact Hb|]. cbn. split; [reflexivity|].
  apply lookup_lt_Some in Hx, Hy. lia.
Qed.

Lemma best_epochs_in_range_witness :
  exists b,
    compute_best_points history3 = Ok b /\
    (1 <= best_acc_epoch b <= 3)%nat /\ (1 <= best_loss_epoch b <= 3)%nat.
Proof.
  destruct (best_epochs_in_range history3
              (floats [1; 2; 3]%nat [lit_0_5; lit_0_7; lit_0_9])
              (floats [4; 5; 6]%nat [lit_0_5; lit_0_9; lit_0_7])
              (floats [7; 8; 9]%nat [lit_1_0; lit_0_5; lit_0_2])
              (floats [10; 11; 12]%nat [lit_1_0; lit_0_2; lit_0_5]))
    as (b & Hb & _ & Ha & Hl).
  - split; try reflexivity; discriminate.
  - exists b. split; [exact Hb|]. split; assumption.
Defined.

(** *** NaN *)

Lemma SFltb_nan (a b : spec_float) :
  SFltb a b = true -> a <> S754_nan /\ b <> S754_nan.
Proof.
  intros H. apply SFltb_spec in H.
  destruct a, b; simpl in H; try destruct H; split; discriminate.
Qed.

Section ScanNan.
Variable better : pyfloat -> pyfloat -> bool.
Hypothesis better_nan :
  forall a b, better a b = true -> fval a <> S754_nan /\ fval b <> S754_nan.

(** A NaN that comes first is never replaced. *)
Lemma scan_nan_first (l : list pyfloat) (best : pyfloat) :
  fval best = S754_nan -> scan better best l = best.
Proof.
  intros Hn. induction l as [|item rest IH]; [reflexivity|]. simpl.
  destruct (better item best) eqn:E; [|exact IH].
  apply better_nan in E as [_ E]. contradiction.
Qed.

(** A NaN that comes later is never picked. *)
Lemma scan_not_nan (l : list pyfloat) : forall best,
  fval best <> S754_nan -> fval (scan better best l) <> S754_nan.
Proof.
  induction l as [|item rest IH]; intros best Hn; [exact Hn|]. simpl.
  destruct (better item best) eqn:E; [|apply IH; exact Hn].
  apply IH. apply better_nan in E as [E _]. exact E.
Qed.

Lemma extremum_nan (l : list pyfloat) (m : pyfloat) :
  py_extremum better (Some l) = Ok m ->
  (fval m = S754_nan <-> exists first, head l = Some first /\ fval first = S754_nan) /\
  (forall first, head l = Some first -> fval first = S754_nan ->
     m = first /\ list_index l m = Ok 0%nat).
Proof.
  destruct l as [|first rest]; [discriminate|]. intros [= <-]. split.
  - split.
    + intros Hm. exists first. split; [reflexivity|].
      destruct (decide (fval first = S754_nan)) as [E|E]; [exact E|].
      destruct (scan_not_nan rest first E Hm).
    + intros (f & [= <-] & Hf). rewrite scan_nan_first; assumption.
  - intros f [= <-] Hf. rewrite scan_nan_first by exact Hf.
    split; [reflexivity|]. unfold list_index. cbn [index_from].
    rewrite same_refl. reflexivity.
Qed.
End ScanNan.

Lemma py_gt_nan a b : py_gt a b = true -> fval a <> S754_nan /\ fval b <> S754_nan.
Proof. unfold py_gt. intros H. apply SFltb_nan in H. tauto. Qed.

Lemma py_lt_nan a b : py_lt a b = true -> fval a <> S754_nan /\ fval b <> S754_nan.
Proof. unfold py_lt. apply SFltb_nan. Qed.

(** X7: [max] and [min] compare with [>] and [<], which are false on NaN: the
    best accuracy (loss) is NaN exactly when the first validation accuracy
    (loss) is, and it is then that first value, reported for epoch 1
    whatever follows. *)
Theorem nan_masks_later_epochs h acc val_acc loss val_loss :
  complete h acc val_acc loss val_loss ->
  exists b,
    compute_best_points h = Ok b /\
    (fval (best_acc b) = S754_nan <->
       exists first, head val_acc = Some first /\ fval first = S754_nan) /\
    (forall first, head val_acc = Some first -> fval first = S754_nan ->
       best_acc b = first /\ best_acc_epoch b = 1%nat) /\
    (fval (best_loss b) = S754_nan <->
       exists first, head val_loss = Some first /\ fval first = S754_nan) /\
    (forall first, head val_loss = Some first -> fval first = S754_nan ->
       best_loss b = first /\ best_loss_epoch b = 1%nat).
Proof.
  intros Hc.
  destruct (compute_best_points_ok _ _ _ _ _ Hc)
    as (ba & i & bl & j & Hmax & Hi & _ & _ & Hmin & Hj & _ & _ & Hb).
  eexists. split; [exact Hb|]. cbn.
  destruct (extremum_nan py_gt py_gt_nan val_acc ba Hmax) as [Ha1 Ha2].
  destruct (extremum_nan py_lt py_lt_nan val_loss bl Hmin) as [Hl1 Hl2].
  split; [exact Ha1|]. split.
  { intros f Hf Hn. destruct (Ha2 f Hf Hn) as [E Hidx]. split; [exact E|].
    rewrite Hi in Hidx. injection Hidx as ->. reflexivity. }
  split; [exact Hl1|].
  intros f Hf Hn. destruct (Hl2 f Hf Hn) as [E Hidx]. split; [exact E|].
  rewrite Hj in Hidx. injection Hidx as ->. reflexivity.
Qed.

Lemma nan_masks_later_epochs_witness :
  exists b,
    compute_best_points history_nan = Ok b /\
    best_acc b = PyFloat 4 S754_nan /\ best_acc_epoch b = 1%nat /\
    best_loss b = PyFloat 10 S754_nan /\ best_loss_epoch b = 1%nat.
Proof.
  destruct (nan_masks_later_epochs history_nan
              (floats [1; 2; 3]%nat [lit_0_5; lit_0_7; lit_0_9])
              (floats [4; 5; 6]%nat [S754_nan; lit_0_9; lit_0_7])
              (floats [7; 8; 9]%nat [lit_1_0; lit_0_5; lit_0_2])
              (floats [10; 11; 12]%nat [S754_nan; lit_0_2; lit_0_5]))
    as (b & Hb & _ & Ha & _ & Hl).
  - split; try reflexivity; discriminate.
  - exists b. split; [exact Hb|].
    destruct (Ha (PyFloat 4 S754_nan) eq_refl eq_refl) as [-> ->].
    destruct (Hl (PyFloat 10 S754_nan) eq_refl eq_refl) as [-> ->].
    repeat split.
Defined.

Ltac step_plot :=
  rewrite ?bind_call, bind_unfold;
  match goal with
  | |- context [plt_plot ?xs ?ys ?label ?t] =>
      destruct (plt_plot_cases xs ys label t) as [-> | (? & _ & ->)];
      [intros [= <- _]; reflexivity|]
  end.

(** X2: However the renderer fails (a missing key, an empty sequence,
    sequences of different lengths, which all fail before [savefig], or a
    [savefig] that raises), a run that raises has saved no file. *)
Theorem failure_saves_nothing `{pp : Pyplot} h title save_path tr e :
  render h title save_path = (tr, Raise e) -> saved_files tr = [].
Proof.
  unfold render, plot_training_history_with_annotations.
  destruct (compute_best_points h) as [b|e'] eqn:Hb.
  - cbn [bind lift call app].
    step_plot. step_plot. step_plot. step_plot.
    rewrite !bind_call, bind_unfold. unfold plt_savefig, call.
    destruct (savefig_file (fstring save_path)); [discriminate|].
    intros [= <- _]. reflexivity.
  - unfold bind, lift. intros [= <- _]. reflexivity.
Qed.

Lemma failure_saves_nothing_witness :
  saved_files (render (pp := ExamplePyplot.example_pyplot)
                 (<[ "loss"%string := floats [7; 8]%nat [lit_1_0; lit_0_5] ]> history3)
                 default_title (Some "history.png"%string)).1 = [].
Proof.
  apply (failure_saves_nothing (pp := ExamplePyplot.example_pyplot)
           (<[ "loss"%string := floats [7; 8]%nat [lit_1_0; lit_0_5] ]> history3)
           default_title (Some "history.png"%string) _ ValueError).
  reflexivity.
Defined.

End RendererExtra.

(** ** The transform: which contour, which window *)

Module CropExtra.
Import Py Preprocess CropSpec FsFacts ImageSpec PyFacts.

(** X8: Where the padded rectangle lies around the bounding rectangle: the
    left and top margins are 10, or what is left up to the border; the
    window then extends [w + 20] from its left side ([h + 20] from its
    top), so the right margin is 20 minus the left one, again cut at the
    border. The window contains the bounding rectangle, and a rectangle
    near the left or top border gets more than 10 on the opposite side. *)
Theorem pad_rect_margins (W H x y w h : Z) :
  0 <= x -> 0 <= y -> x + w <= W -> y + h <= H -> 0 < w -> 0 < h ->
  exists x' y' w' h',
    pad_rect (H, W) (x, y, w, h) = (x', y', w', h') /\
    x - x' = Z.min x 10 /\ y - y' = Z.min y 10 /\
    (x' + w') - (x + w) = Z.min (W - (x + w)) (20 - Z.min x 10) /\
    (y' + h') - (y + h) = Z.min (H - (y + h)) (20 - Z.min y 10).
Proof.
  intros Hx Hy Hxw Hyh Hw Hh. unfold pad_rect, pad. cbn [fst snd].
  do 4 eexists. split; [reflexivity|]. lia.
Qed.

Lemma pad_rect_margins_witness :
  pad_rect (480, 640) (3, 100, 50, 50) = (0, 90, 70, 70) /\
  3 - 0 = Z.min 3 10 /\ (0 + 70) - (3 + 50) = 17.
Proof.
  destruct (pad_rect_margins 640 480 3 100 50 50)
    as (x' & y' & w' & h' & E & M1 & M2 & M3 & M4); try lia.
  vm_compute in E. injection E as <- <- <- <-. repeat split.
Defined.

Lemma foldr_min_le (x0 : Z) (l : list point) (proj : point -> Z) :
  foldr (fun q acc => Z.min (proj q) acc) x0 l <= x0 /\
  forall q, q ∈ l -> foldr (fun q acc => Z.min (proj q) acc) x0 l <= proj q.
Proof.
  induction l as [|q l [IH1 IH2]]; simpl; [split; [lia | intros q Hq; inversion Hq]|].
  split; [lia|]. intros q' Hq'. apply elem_of_cons in Hq' as [-> | Hq'];
    [lia | specialize (IH2 q' Hq'); lia].
Qed.

Lemma foldr_max_ge (x0 : Z) (l : list point) (proj : point -> Z) :
  x0 <= foldr (fun q acc => Z.max (proj q) acc) x0 l /\
  forall q, q ∈ l -> proj q <= foldr (fun q acc => Z.max (proj q) acc) x0 l.
Proof.
  induction l as [|q l [IH1 IH2]]; simpl; [split; [lia | intros q Hq; inversion Hq]|].
  split; [lia|]. intros q' Hq'. apply elem_of_cons in Hq' as [-> | Hq'];
    [lia | specialize (IH2 q' Hq'); lia].
Qed.

(** Every point of a contour lies in its bounding rectangle. *)
Lemma boundingRect_contains (c : contour) (px py : Z) :
  (px, py) ∈ c ->
  exists x y w h, boundingRect c = (x, y, w, h) /\
    x <= px < x + w /\ y <= py < y + h.
Proof.
  intros Hin. destruct c as [|[x0 y0] rest]; [inversion Hin|].
  unfold boundingRect. do 4 eexists. split; [reflexivity|].
  destruct (foldr_min_le x0 rest fst) as [A1 A2].
  destruct (foldr_max_ge x0 rest fst) as [B1 B2].
  destruct (foldr_min_le y0 rest snd) as [C1 C2].
  destruct (foldr_max_ge y0 rest snd) as [D1 D2].
  apply elem_of_cons in Hin as [[= -> ->] | Hin]; [cbn beta in *; lia|].
  specialize (A2 _ Hin). specialize (B2 _ Hin).
  specialize (C2 _ Hin). specialize (D2 _ Hin). cbn in *. lia.
Qed.

(** The scan of [max(..., key=...)] ends on an item whose key no item
    beats. *)
Lemma scan_key_unbeaten {A} (key : A -> spec_float) (l : list A) :
  forall best (seen : list A),
    (forall x, x ∈ seen -> SFltb (key best) (key x) = false) ->
    forall x, x ∈ best :: seen ++ l ->
      SFltb (key (scan_key key best (key best) l)) (key x) = false.
Proof.
  induction l as [|item rest IH]; intros best seen Hseen x Hx; simpl.
  - rewrite app_nil_r in Hx. apply elem_of_cons in Hx as [-> | Hx];
      [apply SFltb_irrefl | auto].
  - destruct (SFltb (key best) (key item)) eqn:Hb.
    + apply (IH item (best :: seen)).
      * intros y Hy. apply elem_of_cons in Hy as [-> | Hy].
        -- destruct (SFltb (key item) (key best)) eqn:Hc; [|reflexivity].
           rewrite <- (SFltb_irrefl (key best)). symmetry.
           eapply SFltb_trans; eauto.
        -- destruct (SFltb (key item) (key y)) eqn:Hc; [|reflexivity].
           rewrite <- (Hseen y Hy). symmetry. eapply SFltb_trans; eauto.
      * apply elem_of_cons in Hx as [-> | Hx]; [right; left|].
        apply elem_of_app in Hx as [Hx | Hx].
        -- right. apply elem_of_app. left. right. exact Hx.
        -- apply elem_of_cons in Hx as [-> | Hx]; [left|].
           right. apply elem_of_app. right. exact Hx.
    + apply (IH best (item :: seen)).
      * intros y Hy. apply elem_of_cons in Hy as [-> | Hy]; auto.
      * apply elem_of_cons in Hx as [-> | Hx]; [left|].
        apply elem_of_app in Hx as [Hx | Hx].
        -- right. apply elem_of_app. left. right. exact Hx.
        -- apply elem_of_cons in Hx as [-> | Hx].
           ++ right. apply elem_of_app. left. left.
           ++ right. apply elem_of_app. right. exact Hx.
Qed.

Section WithOpenCV.
Context `{cv : OpenCV}.

(** X10: Line 38: the contour the crop is taken around is one of the contours
    found, and none of them has a greater area. *)
Theorem largest_contour_is_selected (first : contour) (rest : list contour) :
  max_by_key contourArea first rest ∈ first :: rest /\
  forall c, c ∈ first :: rest ->
    SFltb (contourArea (max_by_key contourArea first rest)) (contourArea c) = false.
Proof.
  split; [apply max_by_key_elem|].
  intros c Hc. unfold max_by_key.
  apply (scan_key_unbeaten contourArea rest first []); [|exact Hc].
  intros x Hx. inversion Hx.
Qed.

(** X9: Lines 38-45: the window that is cropped contains every point of the
    selected contour. *)
Theorem crop_window_contains_marker (img : image) (first : contour)
    (rest : list contour) (px py : Z) :
  findContours (inRange (cvtColor_BGR2HSV img) lower_pink upper_pink) = first :: rest ->
  (px, py) ∈ max_by_key contourArea first rest ->
  exists x y w h,
    pad_rect (shape0 img, shape1 img)
      (boundingRect (max_by_key contourArea first rest)) = (x, y, w, h) /\
    x <= px < x + w /\ y <= py < y + h /\
    0 <= x /\ 0 <= y /\ x + w <= shape1 img /\ y + h <= shape0 img.
Proof.
  intros Hc Hp.
  pose proof (max_by_key_elem contourArea first rest) as Hin.
  rewrite <- Hc in Hin. apply findContours_inside in Hin as [Hne Hpts].
  destruct (mask_shape img) as [-> ->] in Hpts.
  destruct (boundingRect_inside _ (shape1 img) (shape0 img) Hne Hpts)
    as (x & y & w & h & E & Hx & Hy & Hxw & Hyh & Hw & Hh).
  destruct (boundingRect_contains _ px py Hp) as (x0 & y0 & w0 & h0 & E0 & Bx & By).
  rewrite E in E0. injection E0 as <- <- <- <-. rewrite E.
  unfold pad_rect, pad. cbn [fst snd]. do 4 eexists. split; [reflexivity|]. lia.
Qed.

End WithOpenCV.

Lemma crop_window_contains_marker_witness :
  exists x y w h,
    pad_rect (shape0 Example.marker_image, shape1 Example.marker_image)
      (boundingRect [(1, 1); (2, 1)]) = (x, y, w, h) /\
    x <= 2 < x + w /\ y <= 1 < y + h.
Proof.
  destruct (crop_window_contains_marker (cv := ExampleCV.example_cv)
              Example.marker_image [(1, 1); (2, 1)] [] 2 1)
    as (x & y & w & h & E & Bx & By & _).
  - reflexivity.
  - right. left.
  - exists x, y, w, h. repeat split; try assumption; lia.
Defined.

End CropExtra.

(** ** The transform: what a whole run does and does not do *)

Module BatchExtra.
Import Py Preprocess CropSpec FsFacts ImageSpec ClassSpec BatchSpec.

(** A file found after a sequence of effects was there before, with the
    same content, or was written by one of them. *)
Lemma exec_file_origin ops : forall w w' r q content,
  exec ops w = (w', r) ->
  files w' !! q = Some (File content) ->
  files w !! q = Some (File content) \/ Write q content ∈ ops.
Proof.
  induction ops as [|o ops IH]; intros w w' r q content H Hq.
  - inversion H; subst. left. exact Hq.
  - rewrite exec_cons in H.
    destruct (exec_op o w) as [w1 [[]|e]] eqn:E.
    + destruct (IH _ _ _ _ _ H Hq) as [H1|H1]; [|right; right; exact H1].
      apply exec_op_files in E. destruct o as [p|p c|line|e0].
      * destruct (makedirs_origin _ _ _ _ _ _ E H1) as [?|(? & _)];
          [left; assumption | discriminate].
      * rewrite E in H1. unfold write_file in H1.
        destruct (is_dir (files w) (dirname p) && negb (is_dir (files w) p));
          [|left; exact H1].
        destruct (decide (p = q)) as [->|Hne].
        -- rewrite lookup_insert_eq in H1. injection H1 as ->. right. left.
        -- rewrite lookup_insert_ne in H1 by exact Hne. left. exact H1.
      * rewrite E in H1. left. exact H1.
      * destruct E.
    + injection H as <- <-. left.
      destruct o as [p|p c|line|e0]; simpl in E.
      * unfold os_makedirs in E.
        destruct (makedirs_from [] p (files w)); [discriminate|].
        injection E as <- _. exact Hq.
      * discriminate.
      * discriminate.
      * injection E as <- _. exact Hq.
Qed.

(** A directory found after a sequence of effects was there before or
    lies along a path that one of them made. *)
Lemma exec_dir_origin ops : forall w w' r q,
  exec ops w = (w', r) ->
  files w' !! q = Some Dir ->
  files w !! q = Some Dir \/ exists p, Mkdirs p ∈ ops /\ created [] p q.
Proof.
  induction ops as [|o ops IH]; intros w w' r q H Hq.
  - inversion H; subst. left. exact Hq.
  - rewrite exec_cons in H.
    destruct (exec_op o w) as [w1 [[]|e]] eqn:E.
    + destruct (IH _ _ _ _ H Hq) as [H1|(p & Hp & Hc)];
        [|right; exists p; split; [right; exact Hp | exact Hc]].
      apply exec_op_files in E. destruct o as [p|p c|line|e0].
      * destruct (makedirs_origin _ _ _ _ _ _ E H1) as [?|(_ & _ & Hc)];
          [left; assumption|].
        right. exists p. split; [left | exact Hc].
      * rewrite E in H1. unfold write_file in H1.
        destruct (is_dir (files w) (dirname p) && negb (is_dir (files w) p));
          [|left; exact H1].
        destruct (decide (p = q)) as [->|Hne].
        -- rewrite lookup_insert_eq in H1. discriminate.
        -- rewrite lookup_insert_ne in H1 by exact Hne. left. exact H1.
      * rewrite E in H1. left. exact H1.
      * destruct E.
    + injection H as <- <-. left.
      destruct o as [p|p c|line|e0]; simpl in E.
      * unfold os_makedirs in E.
        destruct (makedirs_from [] p (files w)); [discriminate|].
        injection E as <- _. exact Hq.
      * discriminate.
      * discriminate.
      * injection E as <- _. exact Hq.
Qed.

(** Effects only add lines to the standard output. *)
Lemma exec_op_stdout o w :
  exists lines, stdout (exec_op o w).1 = stdout w ++ lines.
Proof.
  destruct o as [p|p c|line|e]; simpl.
  - unfold os_makedirs. destruct (makedirs_from [] p (files w));
      exists []; rewrite app_nil_r; reflexivity.
  - exists []. rewrite app_nil_r. reflexivity.
  - exists [line]. reflexivity.
  - exists []. rewrite app_nil_r. reflexivity.
Qed.

(** A sequence of effects without [Abort] runs to its end when no file
    is in the way of a directory it makes, neither at the start nor
    written by the sequence itself. *)
Lemma exec_total ops : forall w,
  (forall e, ~ Abort e ∈ ops) ->
  (forall p q, Mkdirs p ∈ ops -> created [] p q ->
     (forall c, files w !! q <> Some (File c)) /\ (forall c, ~ Write q c ∈ ops)) ->
  exists w', exec ops w = (w', Ok tt).
Proof.
  induction ops as [|o ops IH]; intros w Hab Hsafe; [exists w; reflexivity|].
  assert (Hab' : forall e, ~ Abort e ∈ ops).
  { intros e He. apply (Hab e). right. exact He. }
  rewrite exec_cons. destruct o as [p|p c|line|e]; cbn [exec_op].
  - destruct (makedirs_succeeds p [] (files w)) as [f' Hf'].
    { intros q content Hq. apply (Hsafe p q); [left | exact Hq]. }
    unfold os_makedirs. rewrite Hf'. apply IH; [exact Hab'|].
    intros p' q Hp' Hq. cbn [set_files files].
    destruct (Hsafe p' q (ltac:(right; exact Hp')) Hq) as [H1 H2]. split.
    + intros c Hc. destruct (makedirs_origin _ _ _ _ _ _ Hf' Hc) as [H|(H & _)];
        [exact (H1 c H) | discriminate].
    + intros c Hc. apply (H2 c). right. exact Hc.
  - apply IH; [exact Hab'|].
    intros p' q Hp' Hq. cbn [set_files files].
    destruct (Hsafe p' q (ltac:(right; exact Hp')) Hq) as [H1 H2]. split.
    + intros c' Hc'. destruct (decide (q = p)) as [->|Hne].
      * apply (H2 c). left.
      * rewrite write_file_other in Hc' by exact Hne. exact (H1 c' Hc').
    + intros c' Hc'. apply (H2 c'). right. exact Hc'.
  - unfold print. apply IH; [exact Hab'|].
    intros p' q Hp' Hq. cbn [files].
    destruct (Hsafe p' q (ltac:(right; exact Hp')) Hq) as [H1 H2]. split; [exact H1|].
    intros c' Hc'. apply (H2 c'). right. exact Hc'.
  - destruct (Hab e). left.
Qed.

Section WithOpenCV.
Context `{cv : OpenCV}.
Variables (data_dir output_dir : path) (target_size : Z * Z).

(** [content] is what the transform produces for image [img_name] of
    class [class_name] as found in [f]: the image decodes, a contour is
    found, the name has an encoder, and [content] encodes the resized
    crop. *)
Definition output_of (f : fs) (class_name img_name : string)
    (content : list Byte.byte) : Prop :=
  exists (src : list Byte.byte) (img : image) (first : contour)
         (rest : list contour) (x y w h : Z) (resized : image),
    f !! os_path_join (os_path_join data_dir class_name) img_name
      = Some (File src) /\
    imdecode src = Some img /\
    findContours (inRange (cvtColor_BGR2HSV img) lower_pink upper_pink)
      = first :: rest /\
    pad_rect (shape0 img, shape1 img)
      (boundingRect (max_by_key contourArea first rest)) = (x, y, w, h) /\
    resize (crop img y (y + h) x (x + w)) target_size = Ok resized /\
    has_encoder img_name = true /\
    content = imencode img_name resized.

Lemma plan_image_write_inv f class_name img_name p content :
  Write p content ∈ plan_image data_dir output_dir target_size f class_name img_name ->
  p = os_path_join (os_path_join output_dir class_name) img_name /\
  output_of f class_name img_name content.
Proof.
  unfold plan_image, output_of.
  destruct (f !! _) as [[|src]|] eqn:Hf;
    try (intros H; apply list_elem_of_singleton in H; discriminate).
  destruct (imdecode src) as [img|] eqn:Hd;
    [|intros H; apply list_elem_of_singleton in H; discriminate].
  destruct (findContours _) as [|first rest] eqn:Hc;
    [intros H; apply list_elem_of_singleton in H; discriminate|].
  destruct (pad_rect _ _) as [[[x y] cw] ch] eqn:Hp.
  destruct (resize _ _) as [resized|e] eqn:Hr;
    [|intros H; apply list_elem_of_singleton in H; discriminate].
  destruct (has_encoder img_name) eqn:He;
    intros H; apply list_elem_of_singleton in H; [|discriminate].
  injection H as -> ->. split; [reflexivity|].
  exists src, img, first, rest, x, y, cw, ch, resized. repeat split; assumption.
Qed.

Lemma plan_image_write_intro f class_name img_name content :
  output_of f class_name img_name content ->
  plan_image data_dir output_dir target_size f class_name img_name
    = [Write (os_path_join (os_path_join output_dir class_name) img_name) content].
Proof.
  intros (src & img & first & rest & x & y & w & h & resized
          & Hf & Hd & Hc & Hp & Hr & He & ->).
  unfold plan_image. rewrite Hf, Hd, Hc, Hp, Hr, He. reflexivity.
Qed.

Lemma plan_image_no_mkdirs f class_name img_name p :
  ~ Mkdirs p ∈ plan_image data_dir output_dir target_size f class_name img_name.
Proof.
  unfold plan_image.
  destruct (f !! _) as [[|src]|];
    try (intros H; apply list_elem_of_singleton in H; discriminate).
  destruct (imdecode src) as [img|];
    [|intros H; apply list_elem_of_singleton in H; discriminate].
  destruct (findContours _) as [|first rest];
    [intros H; apply list_elem_of_singleton in H; discriminate|].
  destruct (pad_rect _ _) as [[[x y] cw] ch].
  destruct (resize _ _) as [resized|e];
    [destruct (has_encoder img_name)|];
    intros H; apply list_elem_of_singleton in H; discriminate.
Qed.

(** An entry that exists is listed. *)
Lemma elem_of_entries (f : fs) (p : path) (n : string) :
  n ∈ entries f p <-> is_Some (f !! (p ++ [n])).
Proof. unfold entries. rewrite elem_of_elements. apply elem_of_children. Qed.

Lemma plan_class_in_plan f class_name o :
  is_dir f data_dir = true ->
  is_dir f (os_path_join data_dir class_name) = true ->
  o ∈ plan_class data_dir output_dir target_size f class_name ->
  o ∈ plan data_dir output_dir target_size f.
Proof.
  intros HD Hc Ho. unfold plan. right. rewrite HD. apply elem_of_app. left.
  apply (elem_of_concat_fmap_2 _ _ class_name); [|exact Ho].
  apply elem_of_sorted, elem_of_entries.
  apply is_dir_true in Hc as [Hc|Hc]; [|eauto].
  unfold os_path_join in Hc. destruct data_dir; discriminate.
Qed.

Lemma plan_image_in_plan f class_name img_name o :
  is_dir f data_dir = true ->
  is_dir f (os_path_join data_dir class_name) = true ->
  is_Some (f !! os_path_join (os_path_join data_dir class_name) img_name) ->
  o ∈ plan_image data_dir output_dir target_size f class_name img_name ->
  o ∈ plan data_dir output_dir target_size f.
Proof.
  intros HD Hc Hi Ho. apply (plan_class_in_plan f class_name); try assumption.
  unfold plan_class. rewrite Hc. right.
  apply (elem_of_concat_fmap_2 _ _ img_name); [|exact Ho].
  apply elem_of_entries. exact Hi.
Qed.

(** The directories the plan makes: the output directory and one per
    class. *)
Lemma plan_mkdirs f p :
  Mkdirs p ∈ plan data_dir output_dir target_size f ->
  p = output_dir \/
  exists class_name,
    p = os_path_join output_dir class_name /\
    is_dir f (os_path_join data_dir class_name) = true.
Proof.
  unfold plan. intros H. apply elem_of_cons in H as [[= ->]|H]; [left; reflexivity|].
  destruct (is_dir f data_dir);
    [|apply list_elem_of_singleton in H; discriminate].
  apply elem_of_app in H as [H|H];
    [|apply list_elem_of_singleton in H; discriminate].
  apply elem_of_concat_fmap in H as (c & _ & H).
  unfold plan_class in H. destruct (is_dir f _) eqn:E; [|inversion H].
  apply elem_of_cons in H as [[= ->]|H]; [right; eauto|].
  apply elem_of_concat_fmap in H as (i & _ & H).
  destruct (plan_image_no_mkdirs _ _ _ _ H).
Qed.

(** What the run prints for a file it cannot read. *)
Definition skip_message (img_path : path) : string :=
  "[SKIP] Could not read image: " ++ path_str img_path.

(** X11: Lines 27-31: a name whose file does not decode (or that is no file at
    all: a subdirectory, a dangling name) is skipped: one [[SKIP]] line is
    printed, no file is touched, and the loop goes on with the next
    name. *)
Theorem unreadable_file_is_skipped
    (class_name img_name : string) (rest : list string) (w : world) :
  (forall content,
     files w !! os_path_join (os_path_join data_dir class_name) img_name
       = Some (File content) ->
     imdecode content = None) ->
  process_image (os_path_join data_dir class_name)
      (os_path_join output_dir class_name) target_size img_name w
    = ({| files := files w;
          stdout := stdout w ++
            [skip_message (os_path_join (os_path_join data_dir class_name) img_name)] |},
       Ok tt) /\
  for_each (img_name :: rest)
      (process_image (os_path_join data_dir class_name)
         (os_path_join output_dir class_name) target_size) w
    = for_each rest
        (process_image (os_path_join data_dir class_name)
           (os_path_join output_dir class_name) target_size)
        {| files := files w;
           stdout := stdout w ++
             [skip_message (os_path_join (os_path_join data_dir class_name) img_name)] |}.
Proof.
  intros Hun.
  assert (Hp : process_image (os_path_join data_dir class_name)
                 (os_path_join output_dir class_name) target_size img_name w
               = ({| files := files w;
                     stdout := stdout w ++
                       [skip_message (os_path_join (os_path_join data_dir class_name) img_name)] |},
                  Ok tt)).
  { unfold process_image, bind, cv2_imread.
    destruct (files w !! os_path_join (os_path_join data_dir class_name) img_name)
      as [[|content]|]; try reflexivity.
    rewrite (Hun content eq_refl). reflexivity. }
  split; [exact Hp|]. cbn [for_each]. unfold bind at 1. rewrite Hp. reflexivity.
Qed.

(** X12: Lines 14-16: the output directory is made before the input is looked
    at. When [data_dir] is not a directory the run raises at [os.listdir]
    with the output directory already created, and prints nothing. *)
Theorem missing_data_dir_raises_after_makedirs (w : world) (f1 : fs) :
  ~ data_dir `prefix_of` output_dir ->
  is_dir (files w) data_dir = false ->
  makedirs_from [] output_dir (files w) = Ok f1 ->
  preprocess_dataset data_dir output_dir target_size w
    = ({| files := f1; stdout := stdout w |}, Raise OSError) /\
  is_dir f1 output_dir = true.
Proof.
  intros Hpre Hd Hmk.
  assert (Hd1 : is_dir f1 data_dir = false).
  { destruct (is_dir f1 data_dir) eqn:E; [|reflexivity].
    apply is_dir_true in E as [E|E]; [rewrite E in Hd; discriminate|].
    destruct (makedirs_origin _ _ _ _ _ _ Hmk E) as [H|(_ & _ & Hc)].
    - assert (is_dir (files w) data_dir = true) by (apply is_dir_true; auto).
      congruence.
    - apply created_prefix in Hc as [_ Hc]. contradiction. }
  split.
  - unfold preprocess_dataset, bind at 1, os_makedirs. rewrite Hmk.
    unfold bind at 1, os_listdir. cbn [set_files files]. rewrite Hd1. reflexivity.
  - destruct output_dir as [|a o] eqn:Eo; [reflexivity|]. apply is_dir_true. right.
    eapply makedirs_makes; [exact Hmk|]. apply created_prefix.
    split; [discriminate | reflexivity].
Qed.

(** X13: The run never changes anything at or below [data_dir], whether it
    ends normally or raises, when the two trees are apart. *)
Theorem input_tree_is_never_modified (w : world) (q : path) :
  separate data_dir output_dir ->
  data_dir `prefix_of` q ->
  files (preprocess_dataset data_dir output_dir target_size w).1 !! q
    = files w !! q.
Proof.
  intros Hsep Hq.
  rewrite (preprocess_dataset_exec data_dir output_dir target_size Hsep
             (files w) w (same_input_refl data_dir (files w))).
  symmetry.
  apply (exec_same_input data_dir output_dir Hsep (files w) _ w);
    [|apply same_input_refl | exact Hq].
  unfold plan. constructor; [simpl; reflexivity|].
  destruct (is_dir (files w) data_dir); [|repeat constructor].
  apply Forall_app. split; [|repeat constructor].
  apply Forall_concat_fmap. intros c. apply plan_class_out_side.
Qed.

(** A run that ended normally found [data_dir] to be a directory. *)
Lemma run_ok_data_dir (w0 w1 : world) :
  separate data_dir output_dir ->
  preprocess_dataset data_dir output_dir target_size w0 = (w1, Ok tt) ->
  exec (plan data_dir output_dir target_size (files w0)) w0 = (w1, Ok tt) /\
  is_dir (files w0) data_dir = true /\
  forall o, o ∈ plan data_dir output_dir target_size (files w0) -> done (files w1) o.
Proof.
  intros Hsep Hrun.
  pose proof (preprocess_dataset_exec data_dir output_dir target_size Hsep
                (files w0) w0 (same_input_refl data_dir (files w0))) as H0.
  rewrite Hrun in H0. symmetry in H0.
  pose proof (exec_closed _ [] w0 w1
                (plan_ordered data_dir output_dir target_size (files w0))
                (plan_functional data_dir output_dir target_size (files w0))
                ltac:(intros d Hin; inversion Hin) H0) as Hclosed.
  split; [exact H0|]. split; [|exact Hclosed].
  destruct (is_dir (files w0) data_dir) eqn:E; [reflexivity|].
  exfalso. apply (Hclosed (Abort OSError)). unfold plan. rewrite E. right. left.
Qed.

(** No directory of the plan sits where an output file goes. *)
Lemma output_file_not_made (f : fs) (class_name img_name : string) (p : path) :
  Mkdirs p ∈ plan data_dir output_dir target_size f ->
  ~ created [] p (os_path_join (os_path_join output_dir class_name) img_name).
Proof.
  intros Hp Hc. apply created_prefix in Hc as [_ Hc]. apply prefix_length in Hc.
  unfold os_path_join in Hc. rewrite !length_app in Hc. simpl in Hc.
  apply plan_mkdirs in Hp as [-> | (c & -> & _)];
    [|unfold os_path_join in Hc; rewrite length_app in Hc; simpl in Hc]; lia.
Qed.

(** X14: After a run that ended normally, every image of a class directory
    that decodes and shows a contour has its output file at
    [<output_dir>/<class>/<name>], holding an image of exactly the target
    size (provided no directory was in the file's place). *)
Theorem marker_images_have_outputs
    (w0 w1 : world) (class_name img_name : string)
    (src : list Byte.byte) (img : image) (first : contour) (rest : list contour) :
  separate data_dir output_dir ->
  0 < target_size.1 -> 0 < target_size.2 ->
  preprocess_dataset data_dir output_dir target_size w0 = (w1, Ok tt) ->
  is_dir (files w0) (os_path_join data_dir class_name) = true ->
  files w0 !! os_path_join (os_path_join data_dir class_name) img_name
    = Some (File src) ->
  imdecode src = Some img ->
  findContours (inRange (cvtColor_BGR2HSV img) lower_pink upper_pink)
    = first :: rest ->
  files w0 !! os_path_join (os_path_join output_dir class_name) img_name
    <> Some Dir ->
  exists resized : image,
    files w1 !! os_path_join (os_path_join output_dir class_name) img_name
      = Some (File (imencode img_name resized)) /\
    output_of (files w0) class_name img_name (imencode img_name resized) /\
    shape1 resized = target_size.1 /\ shape0 resized = target_size.2.
Proof.
  intros Hsep Hw Hh Hrun Hcls Hsrc Hdec Hcont Hnodir.
  destruct (run_ok_data_dir w0 w1 Hsep Hrun) as (Hexec & HD & Hclosed).
  destruct (marker_crop_proper img first rest (imdecode_proper _ _ Hdec) Hcont)
    as (x & y & cw & ch & Hpad & Hcrop).
  destruct target_size as [tw th] eqn:Ets. cbn [fst snd] in Hw, Hh.
  destruct (resize_shape _ tw th Hcrop Hw Hh) as (resized & Hres & _ & S0 & S1).
  exists resized.
  assert (Henc : has_encoder img_name = true).
  { destruct (has_encoder img_name) eqn:He; [reflexivity|]. exfalso.
    assert (Hab : Abort CvError ∈ plan data_dir output_dir target_size (files w0)).
    { apply (plan_image_in_plan (files w0) class_name img_name); try assumption;
        [eauto|].
      unfold plan_image. rewrite Hsrc, Hdec, Hcont, Hpad, Ets, Hres, He. left. }
    rewrite Ets in Hab. exact (Hclosed _ Hab). }
  assert (Hout : output_of (files w0) class_name img_name (imencode img_name resized)).
  { exists src, img, first, rest, x, y, cw, ch, resized. rewrite Ets.
    repeat split; assumption. }
  pose proof (plan_image_write_intro _ _ _ _ Hout) as Hpi.
  assert (Hin : Write (os_path_join (os_path_join output_dir class_name) img_name)
                  (imencode img_name resized)
                  ∈ plan data_dir output_dir target_size (files w0)).
  { apply (plan_image_in_plan (files w0) class_name img_name); try assumption;
      [eauto|]. rewrite Hpi. left. }
  split; [|split; [exact Hout | split; assumption]].
  rewrite <- Ets in *.
  destruct (Hclosed _ Hin) as [_ [Hd|Hf]]; [|exact Hf].
  exfalso. apply is_dir_true in Hd as [Hd|Hd];
    [unfold os_path_join in Hd; destruct ((output_dir ++ [class_name])); discriminate|].
  destruct (exec_dir_origin _ _ _ _ _ Hexec Hd) as [H|(p & Hp & Hc)];
    [contradiction|].
  exact (output_file_not_made _ _ _ _ Hp Hc).
Qed.

(** X15: Whatever the outcome of a run, every file found afterwards was there
    before, with the same content, or is the output of an image that
    decodes and shows a contour, at [<output_dir>/<class>/<name>]: nothing
    is written for other entries, nor anywhere else. *)
Theorem only_marker_outputs_are_written
    (w0 w1 : world) (r : result unit) (q : path) (content : list Byte.byte) :
  separate data_dir output_dir ->
  preprocess_dataset data_dir output_dir target_size w0 = (w1, r) ->
  files w1 !! q = Some (File content) ->
  files w0 !! q = Some (File content) \/
  exists class_name img_name,
    q = os_path_join (os_path_join output_dir class_name) img_name /\
    output_of (files w0) class_name img_name content.
Proof.
  intros Hsep Hrun Hq.
  rewrite (preprocess_dataset_exec data_dir output_dir target_size Hsep
             (files w0) w0 (same_input_refl data_dir (files w0))) in Hrun.
  destruct (exec_file_origin _ _ _ _ _ _ Hrun Hq) as [H|H]; [left; exact H|].
  right. apply plan_write in H as (c & i & H).
  apply plan_image_write_inv in H as [-> Hout]. eauto.
Qed.

(** Every image of [f] in which a contour is found has a name with an
    encoder. *)
Definition encodable (f : fs) : Prop :=
  forall (class_name img_name : string) (src : list Byte.byte) (img : image),
    f !! os_path_join (os_path_join data_dir class_name) img_name
      = Some (File src) ->
    imdecode src = Some img ->
    findContours (inRange (cvtColor_BGR2HSV img) lower_pink upper_pink) <> [] ->
    has_encoder img_name = true.

Lemma plan_image_no_abort f class_name img_name e :
  0 < target_size.1 -> 0 < target_size.2 -> encodable f ->
  ~ Abort e ∈ plan_image data_dir output_dir target_size f class_name img_name.
Proof.
  intros Hw Hh Henc. unfold plan_image.
  destruct (f !! _) as [[|src]|] eqn:Hf;
    try (intros H; apply list_elem_of_singleton in H; discriminate).
  destruct (imdecode src) as [img|] eqn:Hd;
    [|intros H; apply list_elem_of_singleton in H; discriminate].
  destruct (findContours _) as [|first rest] eqn:Hc;
    [intros H; apply list_elem_of_singleton in H; discriminate|].
  destruct (marker_crop_proper img first rest (imdecode_proper _ _ Hd) Hc)
    as (x & y & cw & ch & -> & Hcrop).
  rewrite (Henc class_name img_name src img Hf Hd) by (rewrite Hc; discriminate).
  destruct target_size as [tw th]. cbn [fst snd] in Hw, Hh.
  destruct (resize_shape _ tw th Hcrop Hw Hh) as (resized & -> & _).
  intros H; apply list_elem_of_singleton in H; discriminate.
Qed.

Lemma plan_no_abort f e :
  is_dir f data_dir = true -> 0 < target_size.1 -> 0 < target_size.2 ->
  encodable f ->
  ~ Abort e ∈ plan data_dir output_dir target_size f.
Proof.
  intros HD Hw Hh Henc H. unfold plan in H. rewrite HD in H.
  apply elem_of_cons in H as [H|H]; [discriminate|].
  apply elem_of_app in H as [H|H];
    [|apply list_elem_of_singleton in H; discriminate].
  apply elem_of_concat_fmap in H as (c & _ & H).
  unfold plan_class in H.
  destruct (is_dir f (os_path_join data_dir c)); [|inversion H].
  apply elem_of_cons in H as [H|H]; [discriminate|].
  apply elem_of_concat_fmap in H as (i & _ & H).
  exact (plan_image_no_abort _ _ _ _ Hw Hh Henc H).
Qed.

Lemma created_snoc (p q : path) (n : string) :
  created [] (p ++ [n]) q -> created [] p q \/ q = p ++ [n].
Proof.
  intros (k & Hk & ->). simpl. rewrite length_app in Hk. simpl in Hk.
  destruct (decide (k <= length p)%nat) as [Hle|Hgt].
  - left. exists k. split; [lia|]. simpl. apply take_app_le. exact Hle.
  - right. apply take_ge. rewrite length_app. simpl. lia.
Qed.

(** A run that ends normally has printed the closing line last. *)
Lemma run_ok_last_line (w0 w1 : world) :
  preprocess_dataset data_dir output_dir target_size w0 = (w1, Ok tt) ->
  last (stdout w1) = Some "Preprocessing complete."%string.
Proof.
  unfold preprocess_dataset, bind.
  destruct (os_makedirs output_dir w0) as [wa [[]|e]]; [|discriminate].
  destruct (os_listdir data_dir wa) as [wb [names|e]]; [|discriminate].
  destruct (for_each _ _ wb) as [wc [[]|e]]; [|discriminate].
  unfold print. intros [= <-]. cbn [stdout]. apply last_snoc.
Qed.

(** X17: Unreadable files and images without a marker never stop the batch:
    when [data_dir] is a directory, the target size is positive, no file
    is in the way of the output directory or of the output directory of a
    class, and every image in which a contour is found has a name with an
    extension OpenCV can encode, the run ends normally, its last line
    being the closing message. *)
Theorem run_ends_normally (w0 : world) :
  separate data_dir output_dir ->
  0 < target_size.1 -> 0 < target_size.2 ->
  is_dir (files w0) data_dir = true ->
  encodable (files w0) ->
  (forall q content, created [] output_dir q ->
     files w0 !! q <> Some (File content)) ->
  (forall class_name content,
     is_dir (files w0) (os_path_join data_dir class_name) = true ->
     files w0 !! os_path_join output_dir class_name <> Some (File content)) ->
  exists w1,
    preprocess_dataset data_dir output_dir target_size w0 = (w1, Ok tt) /\
    last (stdout w1) = Some "Preprocessing complete."%string.
Proof.
  intros Hsep Hw Hh HD Henc Hout Hcls.
  destruct (exec_total (plan data_dir output_dir target_size (files w0)) w0)
    as [w1 Hexec].
  - intros e. apply plan_no_abort; assumption.
  - intros p q Hp Hq. split.
    + intros c. apply plan_mkdirs in Hp as [-> | (cls & -> & Hd)]; [apply Hout; exact Hq|].
      apply created_snoc in Hq as [Hq | ->]; [apply Hout; exact Hq | apply Hcls; exact Hd].
    + intros c Hc. apply plan_write in Hc as (cls & i & Hc).
      apply plan_image_write_inv in Hc as [-> _].
      exact (output_file_not_made _ _ _ _ Hp Hq).
  - exists w1.
    assert (Hrun : preprocess_dataset data_dir output_dir target_size w0 = (w1, Ok tt)).
    { rewrite (preprocess_dataset_exec data_dir output_dir target_size Hsep
                 (files w0) w0 (same_input_refl data_dir (files w0))).
      exact Hexec. }
    split; [exact Hrun | exact (run_ok_last_line w0 w1 Hrun)].
Qed.

(** X22: Line 49 is not guarded: an image that decodes and shows a contour
    but whose name has an extension without an encoder makes
    [cv2.imwrite] raise; nothing is written or printed for it, and the
    exception ends the loop there, the remaining images not processed. *)
Theorem unencodable_marker_image_halts_batch
    (class_name img_name : string) (rest : list string) (w : world)
    (src : list Byte.byte) (img : image) (first : contour) (others : list contour) :
  files w !! os_path_join (os_path_join data_dir class_name) img_name
    = Some (File src) ->
  imdecode src = Some img ->
  findContours (inRange (cvtColor_BGR2HSV img) lower_pink upper_pink)
    = first :: others ->
  0 < target_size.1 -> 0 < target_size.2 ->
  has_encoder img_name = false ->
  process_image (os_path_join data_dir class_name)
      (os_path_join output_dir class_name) target_size img_name w
    = (w, Raise CvError) /\
  for_each (img_name :: rest)
      (process_image (os_path_join data_dir class_name)
         (os_path_join output_dir class_name) target_size) w
    = (w, Raise CvError).
Proof.
  intros Hf Hd Hc Hw Hh He.
  destruct (marker_image_is_resized data_dir output_dir target_size class_name
              img_name w src img first others Hf Hd Hc Hw Hh)
    as (resized & Hp & _).
  unfold cv2_imwrite in Hp. rewrite basename_join, He in Hp.
  split; [exact Hp|]. cbn [for_each]. unfold bind at 1. rewrite Hp. reflexivity.
Qed.

(** X16: Whatever the outcome of a run, every directory found afterwards was
    there before, or lies along [output_dir], or is the output directory
    of an entry of [data_dir] that is a directory: nothing is made for
    plain files of [data_dir]. *)
Theorem only_class_directories_are_made
    (w0 w1 : world) (r : result unit) (q : path) :
  separate data_dir output_dir ->
  preprocess_dataset data_dir output_dir target_size w0 = (w1, r) ->
  files w1 !! q = Some Dir ->
  files w0 !! q = Some Dir \/
  (q <> [] /\ q `prefix_of` output_dir) \/
  exists class_name,
    q = os_path_join output_dir class_name /\
    is_dir (files w0) (os_path_join data_dir class_name) = true.
Proof.
  intros Hsep Hrun Hq.
  rewrite (preprocess_dataset_exec data_dir output_dir target_size Hsep
             (files w0) w0 (same_input_refl data_dir (files w0))) in Hrun.
  destruct (exec_dir_origin _ _ _ _ _ Hrun Hq) as [H|(p & Hp & Hc)]; [left; exact H|].
  right. apply plan_mkdirs in Hp as [-> | (c & -> & Hd)].
  - left. apply created_prefix. exact Hc.
  - apply created_snoc in Hc as [Hc | ->]; [left; apply created_prefix; exact Hc|].
    right. eauto.
Qed.

(** [makedirs] raises when a file sits at the path itself. *)
Lemma makedirs_blocked rest : forall base f content,
  rest <> [] -> f !! (base ++ rest) = Some (File content) ->
  makedirs_from base rest f = Raise OSError.
Proof.
  induction rest as [|c rest IH]; intros base f content Hne Hf; [congruence|].
  simpl. destruct rest as [|c' rest].
  - rewrite Hf. reflexivity.
  - assert (E : (base ++ [c]) ++ c' :: rest = base ++ c :: c' :: rest)
      by (rewrite <- app_assoc; reflexivity).
    destruct (f !! (base ++ [c])) as [[|content']|] eqn:Hq; [| reflexivity |].
    + apply (IH _ _ content); [discriminate | rewrite E; exact Hf].
    + apply (IH _ _ content); [discriminate|]. rewrite E.
      rewrite lookup_insert_ne; [exact Hf|].
      intros Heq. apply (f_equal length) in Heq.
      rewrite !length_app in Heq. simpl in Heq. lia.
Qed.

(** X19: Line 23 is not guarded: a file that sits where the output directory
    of a class should go makes [mkdir] raise, and the exception ends the
    batch there, with nothing changed and the remaining classes not
    processed. *)
Theorem file_at_class_output_halts_batch
    (class_name : string) (rest : list string) (w : world)
    (content : list Byte.byte) :
  is_dir (files w) (os_path_join data_dir class_name) = true ->
  files w !! os_path_join output_dir class_name = Some (File content) ->
  process_class data_dir output_dir target_size class_name w = (w, Raise OSError) /\
  for_each (class_name :: rest) (process_class data_dir output_dir target_size) w
    = (w, Raise OSError).
Proof.
  intros Hd Hf.
  assert (Hp : process_class data_dir output_dir target_size class_name w
               = (w, Raise OSError)).
  { unfold process_class, bind at 1, os_path_isdir. rewrite Hd. cbn [negb].
    unfold bind at 1, path_mkdir, os_makedirs.
    rewrite (makedirs_blocked (os_path_join output_dir class_name) [] (files w) content);
      [reflexivity | | exact Hf].
    unfold os_path_join. destruct output_dir; discriminate. }
  split; [exact Hp|]. cbn [for_each]. unfold bind at 1. rewrite Hp. reflexivity.
Qed.

End WithOpenCV.

(** X18: After a run that ended normally, every entry of [data_dir] that is a
    directory has its output directory, whatever its images are. *)
Theorem every_class_has_output_directory `{cv : OpenCV}
    (data_dir output_dir : path) (target_size : Z * Z) (w0 w1 : world)
    (class_name : string) :
  separate data_dir output_dir ->
  preprocess_dataset data_dir output_dir target_size w0 = (w1, Ok tt) ->
  is_dir (files w0) (os_path_join data_dir class_name) = true ->
  class_name ∈ entries (files w1) output_dir /\
  is_dir (files w1) (os_path_join output_dir class_name) = true.
Proof.
  intros Hsep Hrun Hd.
  assert (Hout : is_dir (files w1) (os_path_join output_dir class_name) = true).
  { apply (output_directories_exist data_dir output_dir target_size w0 w1);
      try assumption.
    apply elem_of_entries. apply is_dir_true in Hd as [Hd|Hd]; [|eauto].
    unfold os_path_join in Hd. destruct data_dir; discriminate. }
  split; [|exact Hout].
  apply elem_of_entries. apply is_dir_true in Hout as [Hout|Hout]; [|eauto].
  unfold os_path_join in Hout. destruct output_dir; discriminate.
Qed.

(** The example dataset after one run to 4 by 4 images. *)
Definition after_run : world :=
  (preprocess_dataset (cv := ExampleCV.example_cv) ["data"] ["out"] (4, 4)
     Example.fresh).1.

Lemma example_separate : separate ["data"] ["out"].
Proof. split; intros [k Hk]; discriminate Hk. Qed.

Lemma example_run :
  preprocess_dataset (cv := ExampleCV.example_cv) ["data"] ["out"] (4, 4)
    Example.fresh = (after_run, Ok tt).
Proof. vm_compute. reflexivity. Qed.

Lemma unreadable_file_is_skipped_witness :
  process_image (cv := ExampleCV.example_cv) ["data"; "B"] ["out"; "B"]
      default_target_size "broken.png" Example.fresh
    = ({| files := Example.dataset;
          stdout := ["[SKIP] Could not read image: data/B/broken.png"] |}, Ok tt).
Proof.
  destruct (unreadable_file_is_skipped (cv := ExampleCV.example_cv)
              ["data"] ["out"] default_target_size "B" "broken.png" []
              Example.fresh) as [H _].
  - intros content Hc.
    assert (E : files Example.fresh !! os_path_join (os_path_join ["data"] "B") "broken.png"
                = Some (File [])) by reflexivity.
    rewrite E in Hc. injection Hc as <-. reflexivity.
  - exact H.
Defined.

Lemma missing_data_dir_raises_after_makedirs_witness :
  preprocess_dataset (cv := ExampleCV.example_cv) ["data"] ["out"]
      default_target_size (World ∅ [])
    = ({| files := <[ ["out"] := Dir ]> ∅; stdout := [] |}, Raise OSError).
Proof.
  destruct (missing_data_dir_raises_after_makedirs (cv := ExampleCV.example_cv)
              ["data"] ["out"] default_target_size (World ∅ [])
              (<[ ["out"] := Dir ]> ∅)) as [H _].
  - intros [k Hk]. discriminate Hk.
  - reflexivity.
  - reflexivity.
  - exact H.
Defined.

Lemma input_tree_is_never_modified_witness :
  files after_run !! ["data"; "A"; "a.png"] = Some (File Example.marker_bytes).
Proof.
  unfold after_run.
  rewrite (input_tree_is_never_modified (cv := ExampleCV.example_cv)
             ["data"] ["out"] (4, 4) Example.fresh ["data"; "A"; "a.png"]).
  - reflexivity.
  - exact example_separate.
  - exists ["A"; "a.png"]. reflexivity.
Defined.

Lemma marker_images_have_outputs_witness :
  exists resized : image,
    files after_run !! ["out"; "A"; "a.png"]
      = Some (File (ExampleCV.example_imencode "a.png" resized)) /\
    shape1 resized = 4 /\ shape0 resized = 4.
Proof.
  destruct (marker_images_have_outputs (cv := ExampleCV.example_cv)
              ["data"] ["out"] (4, 4) Example.fresh after_run "A" "a.png"
              Example.marker_bytes Example.marker_image [(1, 1); (2, 1)] [])
    as (resized & H & _ & S1 & S0).
  - exact example_separate.
  - reflexivity.
  - reflexivity.
  - exact example_run.
  - reflexivity.
  - reflexivity.
  - reflexivity.
  - reflexivity.
  - intros H. vm_compute in H. discriminate H.
  - exists resized. split; [exact H|]. split; assumption.
Defined.

Lemma only_marker_outputs_are_written_witness :
  exists class_name img_name,
    ["out"; "A"; "a.png"] = os_path_join (os_path_join ["out"] class_name) img_name /\
    output_of (cv := ExampleCV.example_cv) ["data"] (4, 4) Example.dataset
      class_name img_name
      (match files after_run !! ["out"; "A"; "a.png"] with
       | Some (File c) => c
       | _ => []
       end).
Proof.
  destruct (only_marker_outputs_are_written (cv := ExampleCV.example_cv)
              ["data"] ["out"] (4, 4) Example.fresh after_run (Ok tt)
              ["out"; "A"; "a.png"]
              (match files after_run !! ["out"; "A"; "a.png"] with
               | Some (File c) => c
               | _ => []
               end)) as [H|H].
  - exact example_separate.
  - exact example_run.
  - vm_compute. reflexivity.
  - vm_compute in H. discriminate H.
  - exact H.
Defined.

Lemma run_ends_normally_witness :
  exists w1,
    preprocess_dataset (cv := ExampleCV.example_cv) ["data"] ["out"]
        default_target_size Example.fresh = (w1, Ok tt) /\
    last (stdout w1) = Some "Preprocessing complete."%string.
Proof.
  apply (run_ends_normally (cv := ExampleCV.example_cv)
           ["data"] ["out"] default_target_size Example.fresh).
  - exact example_separate.
  - reflexivity.
  - reflexivity.
  - reflexivity.
  - intros class_name img_name src img H _ _.
    unfold Example.fresh, Example.dataset, os_path_join in H. cbn [files app] in H.
    repeat (apply lookup_insert_Some in H as [[E _]|[_ H]];
            [try discriminate E; injection E as <- <-; reflexivity|]).
    rewrite lookup_empty in H. discriminate H.
  - intros q content (k & Hk & ->). simpl in Hk.
    assert (k = 1%nat) as -> by lia. intros H. vm_compute in H. discriminate H.
  - intros class_name content _.
    unfold Example.fresh, Example.dataset, os_path_join. cbn [files app].
    rewrite !lookup_insert_ne by discriminate. rewrite lookup_empty. discriminate.
Defined.

Lemma unencodable_marker_image_halts_batch_witness :
  for_each ["a.dat"; "a.png"]%string
      (process_image (cv := ExampleCV.example_cv) ["data"; "A"] ["out"; "A"] (4, 4))
      Example.ready_dat
    = (Example.ready_dat, Raise CvError).
Proof.
  apply (unencodable_marker_image_halts_batch (cv := ExampleCV.example_cv)
           ["data"] ["out"] (4, 4) "A" "a.dat" ["a.png"%string] Example.ready_dat
           Example.marker_bytes Example.marker_image [(1, 1); (2, 1)] []);
    reflexivity.
Defined.

Lemma every_class_has_output_directory_witness :
  "B" ∈ entries (files after_run) ["out"] /\
  is_dir (files after_run) ["out"; "B"] = true.
Proof.
  apply (every_class_has_output_directory (cv := ExampleCV.example_cv)
           ["data"] ["out"] (4, 4) Example.fresh after_run "B").
  - exact example_separate.
  - exact example_run.
  - reflexivity.
Defined.

Lemma only_class_directories_are_made_witness :
  exists class_name,
    ["out"; "B"] = os_path_join ["out"] class_name /\
    is_dir Example.dataset (os_path_join ["data"] class_name) = true.
Proof.
  destruct (only_class_directories_are_made (cv := ExampleCV.example_cv)
              ["data"] ["out"] (4, 4) Example.fresh after_run (Ok tt) ["out"; "B"])
    as [H|[[_ [k H]]|H]].
  - exact example_separate.
  - exact example_run.
  - vm_compute. reflexivity.
  - vm_compute in H. discriminate H.
  - destruct k; discriminate H.
  - exact H.
Defined.

(** The example dataset with a file where the output of class [B] goes. *)
Definition blocked : world :=
  World (<[ ["out"; "B"] := File [] ]> (<[ ["out"] := Dir ]> Example.dataset)) [].

Lemma file_at_class_output_halts_batch_witness :
  for_each ["B"; "notes.txt"]
      (process_class (cv := ExampleCV.example_cv) ["data"] ["out"] default_target_size)
      blocked
    = (blocked, Raise OSError).
Proof.
  destruct (file_at_class_output_halts_batch (cv := ExampleCV.example_cv)
              ["data"] ["out"] default_target_size "B" ["notes.txt"] blocked [])
    as [_ H].
  - reflexivity.
  - reflexivity.
  - exact H.
Defined.

End BatchExtra.

(** ** The order in which the classes are processed *)

Module SortedExtra.
Import Py BatchSpec.

Definition le_string (a b : string) : Prop := String.leb a b = true.

Lemma ascii_compare_not_Gt_trans a b c :
  Ascii.compare a b <> Gt -> Ascii.compare b c <> Gt ->
  Ascii.compare a c <> Gt /\
  (Ascii.compare a c = Eq -> Ascii.compare a b = Eq /\ Ascii.compare b c = Eq).
Proof.
  unfold Ascii.compare. rewrite !N.compare_gt_iff, !N.compare_eq_iff. lia.
Qed.

Lemma leb_trans (s1 : string) : forall s2 s3,
  String.leb s1 s2 = true -> String.leb s2 s3 = true -> String.leb s1 s3 = true.
Proof.
  unfold String.leb.
  induction s1 as [|c1 s1 IH]; intros [|c2 s2] [|c3 s3]; simpl; try congruence.
  intros H12 H23.
  destruct (ascii_compare_not_Gt_trans c1 c2 c3) as [Hgt Heq].
  - destruct (Ascii.compare c1 c2); congruence.
  - destruct (Ascii.compare c2 c3); congruence.
  - destruct (Ascii.compare c1 c3) eqn:E13; [|reflexivity|congruence].
    destruct (Heq eq_refl) as [E12 E23]. rewrite E12 in H12. rewrite E23 in H23.
    apply (IH s2 s3); assumption.
Qed.

Lemma insert_sorted_perm (s : string) (l : list string) :
  insert_sorted s l ≡ₚ s :: l.
Proof.
  induction l as [|x l IH]; simpl; [reflexivity|].
  destruct (String.leb s x); [reflexivity|].
  rewrite IH. apply Permutation_swap.
Qed.

Lemma insert_sorted_sorted (s : string) (l : list string) :
  StronglySorted le_string l -> StronglySorted le_string (insert_sorted s l).
Proof.
  induction 1 as [|x l Hs IH Hx]; simpl; [repeat constructor|].
  destruct (String.leb s x) eqn:E.
  - constructor; [constructor; assumption|].
    constructor; [exact E|].
    rewrite Forall_forall in Hx |- *. intros y Hy.
    apply (leb_trans s x y); [exact E | apply Hx; exact Hy].
  - constructor; [exact IH|].
    rewrite Forall_forall in Hx |- *. intros y Hy.
    apply elem_of_insert_sorted in Hy as [-> | Hy]; [|apply Hx; exact Hy].
    destruct (String.leb_total s x) as [H|H]; [congruence | exact H].
Qed.

(** X20: Line 16: the class names are taken in ascending order, each entry of
    the listing once: [sorted] returns an ordered rearrangement of its
    argument. *)
Theorem sorted_is_ordered_permutation (l : list string) :
  StronglySorted le_string (sorted l) /\ sorted l ≡ₚ l.
Proof.
  induction l as [|x l [IH1 IH2]]; simpl; [split; [constructor | reflexivity]|].
  split; [apply insert_sorted_sorted; exact IH1|].
  rewrite insert_sorted_perm, IH2. reflexivity.
Qed.

End SortedExtra.
